(** * Interview intelligence pipeline: a shallow embedding of the core

    The first half of the file follows the Python sources, one module
    per source file:

    - [utils/rate_limiter.py]          ~> [RateLimiter]
    - [utils/time_utils.py]            ~> [TimeUtils]
    - [utils/company_extractor.py]     ~> [CompanyExtractor]
    - [config/settings.py]             ~> [Config]
    - [scrapers/base_scraper.py]       ~> [BaseScraper], [Collection]
    - [scrapers/pipeline_manager.py]   ~> [Pipeline] (and the insight rows
                                          of [Insights])
    - [analysis/topic_extractor.py]    ~> [TopicExtractor]
    - [analysis/insights_generator.py] ~> [Insights]

    with [PyFloat], [PyStr] and [PyRound] for the pieces of Python they
    share.  Further functions of the same files follow in modules of
    their own:

    - [utils/rate_limiter.py]          ~> [LimiterRuns]
    - [utils/time_utils.py]            ~> [DecayCalculator]
    - [utils/robots_checker.py]        ~> [RobotsChecker]
    - [utils/company_extractor.py]     ~> [ExtractorTable]
    - [scrapers/base_scraper.py]       ~> [ScraperEffects],
                                          [CollectionEffects]
    - [scrapers/pipeline_manager.py]   ~> [PipelineQueries],
                                          [AnalysisStage], [CollectionStage],
                                          [InsightStore]
    - [analysis/topic_extractor.py]    ~> [TopicAnalysis], [TextShape]
    - [analysis/insights_generator.py] ~> [InsightStats]

    The second half states and proves the properties.

    Conventions.  Python [float]s that only go through [+], [*], [/],
    [min], [max], [round] and comparisons are embedded as exact rationals
    ([Q]); the decay weight, which needs [math.exp], lives in [R].
    Python [str] is embedded as [string] (the ASCII fragment).  A
    [defaultdict] is a [gmap] together with its default, and reading a
    missing key stores the default, as in Python; a [dict] whose order
    matters is an association list.  Clock readings ([time.time()],
    [datetime.utcnow()]), the jitter drawn from [random.uniform], the
    answers of the remote server, the parser [datetime.fromisoformat]
    and the regular-expression engine (for patterns other than a literal
    between word boundaries) are explicit inputs of the functions that
    consume them.  A call that can raise gives the exception back as a
    value. *)

From Stdlib Require Import ZArith QArith Qround Qabs Qminmax Reals Lqa Lra Lia List Sorted Ascii String Bool.
From stdpp Require Import gmap strings list.

Local Open Scope Z_scope.

(** Linear arithmetic over the rationals ([qlra]) and over the reals
    ([rlra]).  Divisions by a numeral are first turned into
    multiplications by its inverse. *)
Ltac qinv_consts :=
  unfold Qdiv in *;
  repeat match goal with
         | |- context [Qinv (Qmake ?n ?d)] =>
             let v := eval compute in (Qinv (Qmake n d)) in
             change (Qinv (Qmake n d)) with v
         | H : context [Qinv (Qmake ?n ?d)] |- _ =>
             let v := eval compute in (Qinv (Qmake n d)) in
             change (Qinv (Qmake n d)) with v in H
         end.
Ltac qlra := qinv_consts; Lqa.lra.
Ltac rlra := Lra.lra.

(* ===================================================================== *)
(** * Rational helpers shared by the float-valued code *)
(* ===================================================================== *)

Module PyFloat.

(** [a < b] as a boolean. *)
Definition Qltb (a b : Q) : bool := negb (Qle_bool b a).

(** Python's two-argument [max(a, b)]: [b] if [b > a], else [a]. *)
Definition pymax (a b : Q) : Q := if Qltb a b then b else a.

(** Python's two-argument [min(a, b)]: [b] if [b < a], else [a]. *)
Definition pymin (a b : Q) : Q := if Qltb b a then b else a.

(** [x ** n] for a non-negative integer exponent. *)
Definition pypow (x : Q) (n : nat) : Q := Qpower x (Z.of_nat n).

(** [sum(l)] *)
Definition pysum (l : list Q) : Q := fold_left Qplus l 0%Q.

(** [sorted(l, key=key, reverse=True)]: by decreasing key, elements with
    equal keys staying in their order.  The element is put in front of
    the first one whose key is not larger. *)
Fixpoint insert_desc {A : Type} (key : A -> Q) (x : A) (sorted : list A)
  : list A :=
  match sorted with
  | [] => [x]
  | y :: rest =>
      if Qltb (key x) (key y) then y :: insert_desc key x rest
      else x :: y :: rest
  end.

Definition sorted_desc {A : Type} (key : A -> Q) (l : list A) : list A :=
  fold_right (insert_desc key) [] l.

End PyFloat.

(* ===================================================================== *)
(** * utils/rate_limiter.py *)
(* ===================================================================== *)

Module RateLimiter.
Import PyFloat.
Local Open Scope Q_scope.

(** [defaultdict.__getitem__]: a missing key is filled in with the
    default before it is returned. *)
Definition dd_get {V : Type} (dflt : V) (k : string) (m : gmap string V)
  : V * gmap string V :=
  match m !! k with
  | Some v => (v, m)
  | None => (dflt, <[k := dflt]> m)
  end.

(** The per-domain tables of [SmartRateLimiter.__init__]. *)
Record SmartRateLimiter : Type := mkLimiter {
  domain_requests : gmap string (list Q);
  domain_failures : gmap string nat;
  domain_last_request : gmap string Q;
  success_streak : gmap string nat;
  adaptive_multiplier : gmap string Q
}.

Definition base_requests_per_minute : nat := 20.
Definition failure_backoff_base : Q := 15 # 10.
Definition max_backoff_time : Q := 60.
Definition jitter_range : Q * Q := (8 # 10, 12 # 10).
Definition default_multiplier : Q := 1.

Definition init : SmartRateLimiter :=
  {| domain_requests := ∅; domain_failures := ∅; domain_last_request := ∅;
     success_streak := ∅; adaptive_multiplier := ∅ |}.

(** What a read of each [defaultdict] at [domain] yields. *)
Definition failures_of (s : SmartRateLimiter) (domain : string) : nat :=
  default 0%nat (domain_failures s !! domain).
Definition streak_of (s : SmartRateLimiter) (domain : string) : nat :=
  default 0%nat (success_streak s !! domain).
Definition multiplier_of (s : SmartRateLimiter) (domain : string) : Q :=
  default default_multiplier (adaptive_multiplier s !! domain).

(** [record_success] *)
Definition record_success (domain : string) (s : SmartRateLimiter)
  : SmartRateLimiter :=
  let fails := <[domain := 0%nat]> (domain_failures s) in
  let '(old, streaks0) := dd_get 0%nat domain (success_streak s) in
  let streaks := <[domain := S old]> streaks0 in
  if (5 <=? S old)%nat then
    let '(current_mult, mults) :=
      dd_get default_multiplier domain (adaptive_multiplier s) in
    {| domain_requests := domain_requests s;
       domain_failures := fails;
       domain_last_request := domain_last_request s;
       success_streak := <[domain := 0%nat]> streaks;
       adaptive_multiplier :=
         <[domain := pymax (8 # 10) (current_mult * (9 # 10))]> mults |}
  else
    {| domain_requests := domain_requests s;
       domain_failures := fails;
       domain_last_request := domain_last_request s;
       success_streak := streaks;
       adaptive_multiplier := adaptive_multiplier s |}.

(** [record_failure] *)
Definition record_failure (domain : string) (s : SmartRateLimiter)
  : SmartRateLimiter :=
  let '(old, fails0) := dd_get 0%nat domain (domain_failures s) in
  let '(current_mult, mults) :=
    dd_get default_multiplier domain (adaptive_multiplier s) in
  {| domain_requests := domain_requests s;
     domain_failures := <[domain := S old]> fails0;
     domain_last_request := domain_last_request s;
     success_streak := <[domain := 0%nat]> (success_streak s);
     adaptive_multiplier :=
       <[domain := pymin 3 (current_mult * (12 # 10))]> mults |}.

(** The deque pruning loop of [_calculate_wait_time]:
    [while requests and current_time - requests[0] > 60: popleft()]. *)
Fixpoint prune (current_time : Q) (requests : list Q) : list Q :=
  match requests with
  | [] => []
  | r :: rest =>
      if Qltb 60 (current_time - r) then prune current_time rest
      else requests
  end.

(** [_calculate_wait_time]; the reads of the default dictionaries leave
    their entries behind, and the pruned deque is written back. *)
Definition _calculate_wait_time (domain : string) (base_delay : Q)
    (current_time : Q) (s : SmartRateLimiter) : Q * SmartRateLimiter :=
  let wait_time := base_delay in
  let '(requests0, reqs) := dd_get [] domain (domain_requests s) in
  let requests := prune current_time requests0 in
  let reqs := <[domain := requests]> reqs in
  let requests_per_minute := length requests in
  let wait_time :=
    if (base_requests_per_minute <=? requests_per_minute)%nat then
      let oldest_request := hd current_time requests in
      let time_until_next := 60 - (current_time - oldest_request) in
      pymax wait_time time_until_next
    else wait_time in
  let '(failure_count, fails) := dd_get 0%nat domain (domain_failures s) in
  let wait_time :=
    if (0 <? failure_count)%nat then
      let backoff_time :=
        pymin (pypow failure_backoff_base failure_count) max_backoff_time in
      pymax wait_time backoff_time
    else wait_time in
  let '(adaptive_mult, mults) :=
    dd_get default_multiplier domain (adaptive_multiplier s) in
  let wait_time := wait_time * adaptive_mult in
  let last_request_time := default 0 (domain_last_request s !! domain) in
  let time_since_last := current_time - last_request_time in
  let wait_time :=
    if Qltb time_since_last wait_time then wait_time - time_since_last
    else 0 in
  (pymax wait_time 0,
   {| domain_requests := reqs;
      domain_failures := fails;
      domain_last_request := domain_last_request s;
      success_streak := success_streak s;
      adaptive_multiplier := mults |}).

(** [_record_request] *)
Definition _record_request (domain : string) (timestamp : Q)
    (s : SmartRateLimiter) : SmartRateLimiter :=
  let '(requests, reqs) := dd_get [] domain (domain_requests s) in
  {| domain_requests := <[domain := requests ++ [timestamp]]> reqs;
     domain_failures := domain_failures s;
     domain_last_request := <[domain := timestamp]> (domain_last_request s);
     success_streak := success_streak s;
     adaptive_multiplier := adaptive_multiplier s |}.

(** [wait_if_needed]: [now] is the reading of [time.time()], [jitter]
    the draw of [random.uniform(0.8, 1.2)].  The result carries the
    duration handed to [time.sleep], if it is called. *)
Definition wait_if_needed (domain : string) (base_delay : Q) (now jitter : Q)
    (s : SmartRateLimiter) : option Q * SmartRateLimiter :=
  let '(wait_time, s1) := _calculate_wait_time domain base_delay now s in
  let slept :=
    if Qltb 0 wait_time then Some (pymin (wait_time * jitter) 10)
    else None in
  (slept, _record_request domain now s1).

(** A recording made by the crawl engine. *)
Inductive recording : Type :=
| Success (domain : string)
| Failure (domain : string).

Definition record (r : recording) (s : SmartRateLimiter) : SmartRateLimiter :=
  match r with
  | Success d => record_success d s
  | Failure d => record_failure d s
  end.

(** Recordings applied in order, first one first. *)
Definition record_all (rs : list recording) (s : SmartRateLimiter)
  : SmartRateLimiter :=
  fold_left (fun acc r => record r acc) rs s.

(** The invariant carried by every reachable limiter. *)
Definition limiter_ok (s : SmartRateLimiter) : Prop :=
  forall d : string,
    (8 # 10) <= multiplier_of s d /\ multiplier_of s d <= 3 /\
    (streak_of s d < 5)%nat.

End RateLimiter.

(* ===================================================================== *)
(** * utils/time_utils.py *)
(* ===================================================================== *)

Module TimeUtils.
Local Open Scope R_scope.

(** A naive [datetime] is the number of microseconds since the epoch. *)
Definition datetime : Type := Z.

Definition microseconds_per_day : Z := 86400 * 1000000.

(** [timedelta.days] of [later - earlier]: whole days, rounded towards
    minus infinity (the remainder is kept in [seconds] and
    [microseconds], which are never negative). *)
Definition days (later earlier : datetime) : Z :=
  ((later - earlier) / microseconds_per_day)%Z.

(** A [datetime] object as the callers hold it: naive, or aware, with
    the UTC offset of its [tzinfo] in microseconds; [wall] is what its
    own fields read.  [dateutil]'s parser, which the adapters use, gives
    an aware object whenever the text names an offset or ends in [Z]. *)
Inductive datetime_object : Type :=
| Naive (wall : datetime)
| Aware (wall : datetime) (utcoffset : Z).

(** What reaches [calculate_weight] as [experience_date]. *)
Inductive date_argument : Type :=
| Date (d : datetime_object)
| Str (s : string).

(** The exceptions that leave the calculator. *)
Inductive exception : Type :=
| TypeError
| ValueError
| OverflowError.

(** What a call that may raise gives back. *)
Inductive raising (A : Type) : Type :=
| Returns (a : A)
| Raises (e : exception).
Arguments Returns {A} a.
Arguments Raises {A} e.

(** [ExponentialDecayCalculator.__init__]'s default [decay_lambda]. *)
Definition default_decay_lambda : R := 0.08.

(** Average days per month, as in the source. *)
Definition days_per_month : R := 30.44.

(** [age_months] inside [calculate_weight]. *)
Definition age_months (now experience_date : datetime) : R :=
  IZR (days now experience_date) / days_per_month.

(** [experience_date.replace('Z', '+00:00')] *)
Fixpoint replace_Z (s : string) : string :=
  match s with
  | EmptyString => EmptyString
  | String c rest =>
      if Ascii.eqb c "Z" then ("+00:00" ++ replace_Z rest)%string
      else String c (replace_Z rest)
  end.

(** The least real that rounds to infinity as a double. *)
Definition float_overflow : R := IZR (2 ^ 1024 - 2 ^ 970).

(** [math.exp]: an [OverflowError] where the result is out of the range
    of a double. *)
Definition math_exp (x : R) : raising R :=
  if Rle_dec float_overflow (exp x) then Raises OverflowError
  else Returns (exp x).

(** [calculate_weight] from the clock reading on, when [experience_date]
    is a [datetime] object; [now] is the reading of [datetime.utcnow()].
    The subtraction [now - experience_date] of an aware from a naive
    object raises [TypeError]. *)
Definition weight_of_datetime (decay_lambda : R) (now : datetime)
    (experience_date : datetime_object) : raising R :=
  match experience_date with
  | Aware _ _ => Raises TypeError
  | Naive date =>
      match math_exp (- decay_lambda * age_months now date) with
      | Raises e => Raises e
      | Returns weight => Returns (Rmax weight 0.01)
      end
  end.

Section WithParser.

(** [datetime.fromisoformat]; [None] stands for its [ValueError]. *)
Variable fromisoformat : string -> option datetime_object.

(** [calculate_weight]: a [str] is parsed first. *)
Definition calculate_weight_with (decay_lambda : R) (now : datetime)
    (experience_date : date_argument) : raising R :=
  match experience_date with
  | Str s =>
      match fromisoformat (replace_Z s) with
      | None => Raises ValueError
      | Some parsed => weight_of_datetime decay_lambda now parsed
      end
  | Date d => weight_of_datetime decay_lambda now d
  end.

Definition calculate_weight (now : datetime)
    (experience_date : date_argument) : raising R :=
  calculate_weight_with default_decay_lambda now experience_date.

End WithParser.

End TimeUtils.

(* ===================================================================== *)
(** * Python strings and the regular expression [\b<literal>\b] *)
(* ===================================================================== *)

Module PyStr.
Local Open Scope string_scope.
Local Open Scope nat_scope.

(** [str.lower] on one ASCII character. *)
Definition lower_char (c : ascii) : ascii :=
  let n := nat_of_ascii c in
  if (65 <=? n) && (n <=? 90) then ascii_of_nat (n + 32) else c.

Fixpoint lower (s : string) : string :=
  match s with
  | EmptyString => EmptyString
  | String c rest => String (lower_char c) (lower rest)
  end.

(** [\w]: letters, digits and the underscore. *)
Definition is_word_char (c : ascii) : bool :=
  let n := nat_of_ascii c in
  ((97 <=? n) && (n <=? 122)) || ((65 <=? n) && (n <=? 90))
  || ((48 <=? n) && (n <=? 57)) || (n =? 95).

Definition is_word (c : option ascii) : bool :=
  match c with Some c => is_word_char c | None => false end.

(** [\b] between two neighbouring positions; [None] is an end of the
    text. *)
Definition boundary (before after : option ascii) : bool :=
  xorb (is_word before) (is_word after).

Definition head_char (s : string) : option ascii :=
  match s with EmptyString => None | String c _ => Some c end.

(** Consume the literal [pat] at the start of [text]; yields the last
    character consumed (or [last] when [pat] is empty) and the rest. *)
Fixpoint strip_prefix (last : option ascii) (pat text : string)
  : option (option ascii * string) :=
  match pat with
  | EmptyString => Some (last, text)
  | String p pat' =>
      match text with
      | EmptyString => None
      | String c text' =>
          if Ascii.eqb p c then strip_prefix (Some c) pat' text' else None
      end
  end.

(** [\b<pat>\b] anchored at the current position, [prev] being the
    character just before it. *)
Definition match_here (prev : option ascii) (pat text : string) : bool :=
  boundary prev (head_char text) &&
  match strip_prefix prev pat text with
  | Some (last, rest) => boundary last (head_char rest)
  | None => false
  end.

(** [re.search(r'\b' + re.escape(pat) + r'\b', text)] is not [None]:
    try every start position from left to right. *)
Fixpoint search_from (prev : option ascii) (pat text : string) : bool :=
  match_here prev pat text ||
  match text with
  | EmptyString => false
  | String c rest => search_from (Some c) pat rest
  end.

Definition re_search_word (pat text : string) : bool :=
  search_from None pat text.

(** [sub in text] *)
Fixpoint contains (sub text : string) : bool :=
  (match strip_prefix None sub text with Some _ => true | None => false end) ||
  match text with
  | EmptyString => false
  | String _ rest => contains sub rest
  end.

(** ** What "occurs as a whole word" means, independently of the
    matcher: the text splits around the pattern with a word boundary on
    each side. *)
Fixpoint last_char (dflt : option ascii) (s : string) : option ascii :=
  match s with
  | EmptyString => dflt
  | String c rest => last_char (Some c) rest
  end.

Definition occurs_as_whole_word (pat text : string) : Prop :=
  exists pre post : string,
    text = pre ++ pat ++ post /\
    boundary (last_char None pre) (head_char (pat ++ post)) = true /\
    boundary (last_char None (pre ++ pat)) (head_char post) = true.

Definition occurs_as_substring (sub text : string) : Prop :=
  exists pre post : string, text = pre ++ sub ++ post.

End PyStr.

(* ===================================================================== *)
(** * utils/company_extractor.py *)
(* ===================================================================== *)

Module CompanyExtractor.
Local Open Scope string_scope.
Local Open Scope nat_scope.

Import PyStr.

(** ** The extractor *)

(** [self.company_patterns]; a Python [dict] keeps insertion order, so
    the table is an association list. *)
Definition company_patterns : list (string * list string) :=
  [ ("PhonePe", ["phonepe"; "phone pe"]);
    ("Myntra", ["myntra"; "myntra.com"]);
    ("PayPal", ["paypal"; "paypal.com"]);
    ("PayTM", ["paytm"; "paytm.com"; "one97"]);
    ("Google", ["google"; "alphabet"; "goog"; "google.com"; "alphabet inc"]);
    ("Amazon", ["amazon"; "amzn"; "aws"; "amazon.com"; "amazon inc"]);
    ("Microsoft", ["microsoft"; "msft"; "ms"; "microsoft.com";
                   "microsoft corporation"]);
    ("Apple", ["apple"; "aapl"; "apple inc"; "apple.com"]);
    ("Meta", ["meta"; "facebook"; "fb"; "instagram"; "whatsapp";
              "meta platforms"]);
    ("Netflix", ["netflix"; "nflx"; "netflix.com"; "netflix inc"]);
    ("Flipkart", ["flipkart"; "flipkart.com"; "flipkart india"]);
    ("Zomato", ["zomato"; "zomato.com"]);
    ("Swiggy", ["swiggy"; "swiggy.com"]);
    ("Ola", ["ola"; "ola cabs"; "ola.com"]);
    ("Uber", ["uber"; "uber.com"]);
    ("Razorpay", ["razorpay"; "razorpay.com"]);
    ("Dream11", ["dream11"; "dream 11"]);
    ("Carwale", ["carwale"; "carwale.com"; "car wale"]);
    ("BigBasket", ["bigbasket"; "big basket"]);
    ("Grofers", ["grofers"; "blinkit"]);
    ("Dunzo", ["dunzo"; "dunzo.com"]);
    ("Freshworks", ["freshworks"; "freshdesk"; "freshservice"]);
    ("Zoho", ["zoho"; "zoho.com"]);
    ("InMobi", ["inmobi"; "inmobi.com"]);
    ("ShareChat", ["sharechat"; "share chat"]);
    ("Nykaa", ["nykaa"; "nykaa.com"]);
    ("PolicyBazaar", ["policybazaar"; "policy bazaar"]);
    ("MakeMyTrip", ["makemytrip"; "make my trip"; "mmt"]);
    ("BookMyShow", ["bookmyshow"; "book my show"; "bms"]);
    ("Lenskart", ["lenskart"; "lenskart.com"]);
    ("UrbanCompany", ["urbancompany"; "urban company"; "urbanclap";
                      "urban clap"]);
    ("Cred", ["cred"; "cred.com"]);
    ("Unacademy", ["unacademy"; "unacademy.com"]);
    ("Vedantu", ["vedantu"; "vedantu.com"]);
    ("Byju", ["byju"; "byjus"; "byju's"]) ].

(** [dict.get(key, dflt)] on the table. *)
Fixpoint table_get (table : list (string * list string)) (key : string)
    (dflt : list string) : list string :=
  match table with
  | [] => dflt
  | (name, patterns) :: rest =>
      if String.eqb name key then patterns else table_get rest key dflt
  end.

(** [_matches_company_patterns] *)
Fixpoint _matches_company_patterns (text : string) (patterns : list string)
  : bool :=
  match patterns with
  | [] => false
  | pattern :: rest =>
      if re_search_word pattern text then true
      else _matches_company_patterns text rest
  end.

Section WithTable.
Variable table : list (string * list string).

(** [_check_target_company_first] *)
Definition _check_target_company_first (title content target_company : string)
  : string :=
  let text := lower (title ++ " " ++ content) in
  let target_lower := lower target_company in
  if contains target_lower text then target_company
  else
    let patterns := table_get table target_company [target_lower] in
    if _matches_company_patterns text patterns then target_company
    else "Unknown".

(** The priority loop of [extract_company_from_content]:
    first match wins. *)
Fixpoint scan (text : string) (entries : list (string * list string))
  : option string :=
  match entries with
  | [] => None
  | (company_name, patterns) :: rest =>
      if _matches_company_patterns text patterns then Some company_name
      else scan text rest
  end.

(** [_extract_from_url_patterns]: the loop over the platform hosts only
    ever [continue]s, so the answer is always ["Unknown"]. *)
Definition url_patterns : list (string * list string) :=
  [ ("GeeksforGeeks", ["geeksforgeeks.org"]);
    ("LeetCode", ["leetcode.com"]);
    ("Glassdoor", ["glassdoor.com"]);
    ("Reddit", ["reddit.com"]) ].

Definition _extract_from_url_patterns (title content : string) : string :=
  let text := lower (title ++ " " ++ content) in
  fold_left
    (fun acc '(_, url_parts) =>
       if existsb (fun url_part => contains url_part text) url_parts
       then acc else acc)
    url_patterns "Unknown".

(** The part of [extract_company_from_content] after the target
    check. *)
Definition extract_without_target (title content : string) : string :=
  let text := lower (title ++ " " ++ content) in
  match scan text table with
  | Some company_name => company_name
  | None =>
      let url_company := _extract_from_url_patterns title content in
      if negb (String.eqb url_company "Unknown") then url_company
      else "Unknown"
  end.

(** [extract_company_from_content]; [None] and the empty string are
    both falsy targets. *)
Definition extract_company_from_content (title content : string)
    (target_company : option string) : string :=
  match target_company with
  | Some target =>
      if String.eqb target EmptyString then extract_without_target title content
      else
        let extracted := _check_target_company_first title content target in
        if negb (String.eqb extracted "Unknown") then extracted
        else extract_without_target title content
  | None => extract_without_target title content
  end.

End WithTable.

(** The module-level convenience function on the global instance. *)
Definition extract (title content : string) (target_company : option string)
  : string :=
  extract_company_from_content company_patterns title content target_company.

(** The patterns under which a company name is looked for: its table
    entry, or its own lower-cased name when it has none. *)
Definition patterns_for (company : string) : list string :=
  table_get company_patterns company [lower company].

(** Keys of a [dict] are pairwise distinct. *)
Fixpoint distinct_keys (table : list (string * list string)) : bool :=
  match table with
  | [] => true
  | (k, _) :: rest =>
      negb (existsb (fun e => String.eqb k (fst e)) rest) && distinct_keys rest
  end.

End CompanyExtractor.

(* ===================================================================== *)
(** * config/settings.py *)
(* ===================================================================== *)

Module Config.

(** The scraping knobs of [Config]; each is read from the environment. *)
Record t : Type := mk {
  REQUEST_DELAY : nat;
  MAX_RETRIES : nat;
  MAX_CONSECUTIVE_FAILURES : nat;
  RESPECT_ROBOTS_TXT : bool
}.

(** The values used when the environment sets nothing. *)
Definition defaults : t :=
  {| REQUEST_DELAY := 1; MAX_RETRIES := 2; MAX_CONSECUTIVE_FAILURES := 3;
     RESPECT_ROBOTS_TXT := false |}.

End Config.

(* ===================================================================== *)
(** * scrapers/base_scraper.py *)
(* ===================================================================== *)

Module BaseScraper.
Import PyFloat PyStr.
Local Open Scope string_scope.
Local Open Scope nat_scope.

(** ** [urlparse(url).netloc] *)

Definition is_alpha (c : ascii) : bool :=
  let n := nat_of_ascii c in
  ((97 <=? n) && (n <=? 122)) || ((65 <=? n) && (n <=? 90)).

Definition is_scheme_char (c : ascii) : bool :=
  let n := nat_of_ascii c in
  is_alpha c || ((48 <=? n) && (n <=? 57))
  || (n =? 43) || (n =? 45) || (n =? 46).

Fixpoint forall_chars (p : ascii -> bool) (s : string) : bool :=
  match s with
  | EmptyString => true
  | String c rest => p c && forall_chars p rest
  end.

(** Split at the first [":"]. *)
Fixpoint split_colon (s : string) : option (string * string) :=
  match s with
  | EmptyString => None
  | String c rest =>
      if Ascii.eqb c ":" then Some (EmptyString, rest)
      else match split_colon rest with
           | Some (pre, post) => Some (String c pre, post)
           | None => None
           end
  end.

(** The URL with a leading [scheme:] removed, when there is one. *)
Definition after_scheme (url : string) : string :=
  match split_colon url with
  | Some (String c pre, post) =>
      if is_alpha c && forall_chars is_scheme_char pre then post else url
  | _ => url
  end.

(** Up to the first of ["/"], ["?"] and ["#"]. *)
Fixpoint until_delimiter (s : string) : string :=
  match s with
  | EmptyString => EmptyString
  | String c rest =>
      if Ascii.eqb c "/" || Ascii.eqb c "?" || Ascii.eqb c "#"
      then EmptyString
      else String c (until_delimiter rest)
  end.

Definition netloc (url : string) : string :=
  match after_scheme url with
  | String "/" (String "/" rest) => until_delimiter rest
  | _ => EmptyString
  end.

(** ** The outside world *)

(** What [session.get] comes back with. *)
Inductive response : Type :=
| Response (status_code : nat) (text : string)
| RequestException.

(** The effects a request leaves behind, in the order they happen. *)
Inductive event : Type :=
| Sleep (seconds : Q)
| Get (url : string).

(** The clock, the answers the server will give to the next calls of
    [session.get], the next draws of [random.uniform(0.8, 1.2)], the
    verdicts of the robots checker, and the effects so far. *)
Record world : Type := mkWorld {
  clock : Q;
  answers : list response;
  jitters : list Q;
  robots : string -> bool * nat;
  trace : list event
}.

(** [time.sleep] *)
Definition sleep (seconds : Q) (w : world) : world :=
  {| clock := (clock w + seconds)%Q; answers := answers w;
     jitters := jitters w; robots := robots w;
     trace := trace w ++ [Sleep seconds] |}.

(** [session.get]; a server with nothing left to say is unreachable. *)
Definition get (url : string) (w : world) : response * world :=
  (hd RequestException (answers w),
   {| clock := clock w; answers := tl (answers w); jitters := jitters w;
      robots := robots w; trace := trace w ++ [Get url] |}).

Definition next_jitter (w : world) : Q := hd 1%Q (jitters w).

Definition drop_jitter (w : world) : world :=
  {| clock := clock w; answers := answers w; jitters := tl (jitters w);
     robots := robots w; trace := trace w |}.

(** ** The scraper's own state *)

Record Stats : Type := mkStats {
  requests_made : nat;
  successful_scrapes : nat;
  duplicates_found : nat;
  robots_blocked : nat;
  rate_limited : nat;
  forbidden_errors : nat
}.

Record scraper : Type := mkScraper {
  platform_name : string;
  rate_limiter : RateLimiter.SmartRateLimiter;
  seen_urls : gset string;
  content_hashes : gset string;
  stats : Stats;
  domain_failures : gmap string nat
}.

(** [BaseScraper.__init__] *)
Definition init (platform : string) : scraper :=
  {| platform_name := platform; rate_limiter := RateLimiter.init;
     seen_urls := ∅; content_hashes := ∅;
     stats := mkStats 0 0 0 0 0 0; domain_failures := ∅ |}.

Definition with_stats (f : Stats -> Stats) (s : scraper) : scraper :=
  {| platform_name := platform_name s; rate_limiter := rate_limiter s;
     seen_urls := seen_urls s; content_hashes := content_hashes s;
     stats := f (stats s); domain_failures := domain_failures s |}.

Definition with_limiter (f : RateLimiter.SmartRateLimiter ->
                             RateLimiter.SmartRateLimiter)
    (s : scraper) : scraper :=
  {| platform_name := platform_name s; rate_limiter := f (rate_limiter s);
     seen_urls := seen_urls s; content_hashes := content_hashes s;
     stats := stats s; domain_failures := domain_failures s |}.

Definition with_failures (f : gmap string nat -> gmap string nat)
    (s : scraper) : scraper :=
  {| platform_name := platform_name s; rate_limiter := rate_limiter s;
     seen_urls := seen_urls s; content_hashes := content_hashes s;
     stats := stats s; domain_failures := f (domain_failures s) |}.

Definition with_seen (f : gset string -> gset string) (s : scraper)
  : scraper :=
  {| platform_name := platform_name s; rate_limiter := rate_limiter s;
     seen_urls := f (seen_urls s); content_hashes := content_hashes s;
     stats := stats s; domain_failures := domain_failures s |}.

Definition with_hashes (f : gset string -> gset string) (s : scraper)
  : scraper :=
  {| platform_name := platform_name s; rate_limiter := rate_limiter s;
     seen_urls := seen_urls s; content_hashes := f (content_hashes s);
     stats := stats s; domain_failures := domain_failures s |}.

Definition incr_requests_made (st : Stats) : Stats :=
  mkStats (S (requests_made st)) (successful_scrapes st)
    (duplicates_found st) (robots_blocked st) (rate_limited st)
    (forbidden_errors st).
Definition incr_successful_scrapes (st : Stats) : Stats :=
  mkStats (requests_made st) (S (successful_scrapes st))
    (duplicates_found st) (robots_blocked st) (rate_limited st)
    (forbidden_errors st).
Definition incr_duplicates_found (st : Stats) : Stats :=
  mkStats (requests_made st) (successful_scrapes st)
    (S (duplicates_found st)) (robots_blocked st) (rate_limited st)
    (forbidden_errors st).
Definition incr_robots_blocked (st : Stats) : Stats :=
  mkStats (requests_made st) (successful_scrapes st)
    (duplicates_found st) (S (robots_blocked st)) (rate_limited st)
    (forbidden_errors st).
Definition incr_rate_limited (st : Stats) : Stats :=
  mkStats (requests_made st) (successful_scrapes st)
    (duplicates_found st) (robots_blocked st) (S (rate_limited st))
    (forbidden_errors st).
Definition incr_forbidden_errors (st : Stats) : Stats :=
  mkStats (requests_made st) (successful_scrapes st)
    (duplicates_found st) (robots_blocked st) (rate_limited st)
    (S (forbidden_errors st)).

(** [self.domain_failures.get(domain, 0)] *)
Definition failures_of (s : scraper) (domain : string) : nat :=
  default 0 (domain_failures s !! domain).

(** ** [safe_request] *)

Definition Q_of_nat (n : nat) : Q := inject_Z (Z.of_nat n).

(** The call [self.rate_limiter.wait_if_needed(domain, crawl_delay)]
    with its clock reading, its jitter draw and its sleep. *)
Definition rate_limit (domain : string) (crawl_delay : nat)
    (s : scraper) (w : world) : scraper * world :=
  let '(slept, limiter) :=
    RateLimiter.wait_if_needed domain (Q_of_nat crawl_delay) (clock w)
      (next_jitter w) (rate_limiter s) in
  (with_limiter (fun _ => limiter) s,
   match slept with
   | Some seconds => sleep seconds (drop_jitter w)
   | None => w
   end).

(** The loop [for attempt in range(Config.MAX_RETRIES)], entered at
    [attempt] with [remaining] iterations to go. *)
Fixpoint attempts (cfg : Config.t) (url domain : string)
    (remaining attempt : nat) (s : scraper) (w : world)
  : option response * scraper * world :=
  match remaining with
  | 0 => (None, s, w)
  | S remaining' =>
      let s := with_stats incr_requests_made s in
      let '(answer, w) := get url w in
      match answer with
      | Response status_code body =>
          if status_code =? 200 then
            let s := with_seen (fun seen => {[url]} ∪ seen) s in
            let s := with_limiter (RateLimiter.record_success domain) s in
            let s := with_stats incr_successful_scrapes s in
            let s := with_failures (fun f => <[domain := 0]> f) s in
            (Some answer, s, w)
          else if status_code =? 403 then
            let s := with_stats incr_forbidden_errors s in
            let s := with_failures
                       (fun f => <[domain := default 0 (f !! domain) + 1]> f)
                       s in
            if 3 <=? failures_of s domain then (None, s, w)
            else
              let wait_time := Q_of_nat (5 * (attempt + 1)) in
              attempts cfg url domain remaining' (S attempt) s
                (sleep wait_time w)
          else if status_code =? 429 then
            let s := with_stats incr_rate_limited s in
            let s := with_limiter (RateLimiter.record_failure domain) s in
            let wait_time := pypow 2 attempt in
            attempts cfg url domain remaining' (S attempt) s
              (sleep wait_time w)
          else
            (* 404 is logged at debug level, anything else as a warning;
               both go on to the next attempt *)
            attempts cfg url domain remaining' (S attempt) s w
      | RequestException =>
          let s :=
            if attempt =? Config.MAX_RETRIES cfg - 1
            then with_limiter (RateLimiter.record_failure domain) s
            else s in
          attempts cfg url domain remaining' (S attempt) s w
      end
  end.

Definition safe_request (cfg : Config.t) (url : string)
    (s : scraper) (w : world) : option response * scraper * world :=
  if bool_decide (url ∈ seen_urls s) then
    (None, with_stats incr_duplicates_found s, w)
  else
    let permission :=
      if Config.RESPECT_ROBOTS_TXT cfg then
        let '(can_fetch, crawl_delay) := robots w url in
        if can_fetch then Some crawl_delay else None
      else Some (Config.REQUEST_DELAY cfg) in
    match permission with
    | None => (None, with_stats incr_robots_blocked s, w)
    | Some crawl_delay =>
        let domain := netloc url in
        let '(s, w) := rate_limit domain crawl_delay s w in
        if Config.MAX_CONSECUTIVE_FAILURES cfg <=? failures_of s domain
        then (None, s, w)
        else attempts cfg url domain (Config.MAX_RETRIES cfg) 0 s w
    end.

(** A run of requests, one URL after the other. *)
Fixpoint safe_requests (cfg : Config.t) (urls : list string)
    (s : scraper) (w : world)
  : list (option response) * scraper * world :=
  match urls with
  | [] => ([], s, w)
  | url :: rest =>
      let '(r, s, w) := safe_request cfg url s w in
      let '(rs, s, w) := safe_requests cfg rest s w in
      (r :: rs, s, w)
  end.

(** ** Shapes of event lists *)

(** No [session.get] among the events, and no sleep above ten seconds. *)
Definition only_short_sleeps (evs : list event) : Prop :=
  Forall (fun e => match e with
                   | Sleep seconds => (seconds <= 10)%Q
                   | Get _ => False
                   end) evs.

(** Every [session.get] among the events asks for [url]. *)
Definition gets_only (url : string) (evs : list event) : Prop :=
  Forall (fun e => match e with
                   | Sleep _ => True
                   | Get u => u = url
                   end) evs.

(** No [session.get] among the events is for a URL on [host]. *)
Definition no_get_for (host : string) (evs : list event) : Prop :=
  Forall (fun e => match e with
                   | Sleep _ => True
                   | Get u => netloc u <> host
                   end) evs.

(** ** A hostile host, for the examples *)

Definition hostile_url : string := "https://www.glassdoor.com/Interview/x".

(** The server answers 403 to everything; the clock reads 1000. *)
Definition hostile_world : world :=
  {| clock := 1000;
     answers := [Response 403 EmptyString; Response 403 EmptyString; Response 403 EmptyString];
     jitters := [1%Q];
     robots := fun _ => (true, 1);
     trace := [] |}.

(** The scraper and the world after two requests for [hostile_url]:
    three 403s have been counted. *)
Definition after_three_403 : scraper * world :=
  let '(_, s1, w1) :=
    safe_request Config.defaults hostile_url (init "glassdoor")
      hostile_world in
  let '(_, s2, w2) := safe_request Config.defaults hostile_url s1 w1 in
  (s2, w2).

End BaseScraper.

(* ===================================================================== *)
(** * scrapers/base_scraper.py: the collection loop *)
(* ===================================================================== *)

Module Collection.
Import PyStr BaseScraper.
Local Open Scope string_scope.
Local Open Scope nat_scope.

(** The record an adapter hands over, as a dictionary with the keys the
    core reads: [title], [content], [source_url] and [company] are
    always set by an adapter, the others may be missing.  The
    [datetime] object under ['experience_date'] is kept as the reading
    of its fields, [experience_date], and the UTC offset of its
    [tzinfo], [experience_tzinfo], which is [None] for a naive object.
    [scrape_company_experiences] fills in [source_platform],
    [scraped_at] and [time_weight]. *)
Record experience_data : Type := mkData {
  title : string;
  content : string;
  source_url : string;
  company : string;
  role : option string;
  experience_date : option TimeUtils.datetime;
  experience_tzinfo : option Z;
  outcome : option string;
  source_platform : option string;
  scraped_at : option TimeUtils.datetime;
  time_weight : option R
}.

(** What the requests of one call of an adapter method leave behind in
    the scraper.  The adapters reach the scraper's state through
    [safe_request] and the rate limiter only, which write to
    [rate_limiter], [seen_urls], [stats] and [domain_failures]. *)
Record request_effects : Type := mkEffects {
  on_limiter : RateLimiter.SmartRateLimiter -> RateLimiter.SmartRateLimiter;
  on_seen : gset string -> gset string;
  on_stats : Stats -> Stats;
  on_failures : gmap string nat -> gmap string nat
}.

(** A call that makes no request. *)
Definition no_requests : request_effects :=
  {| on_limiter := fun limiter => limiter; on_seen := fun seen => seen;
     on_stats := fun st => st; on_failures := fun failures => failures |}.

Definition apply_requests (e : request_effects) (s : scraper) : scraper :=
  {| platform_name := platform_name s;
     rate_limiter := on_limiter e (rate_limiter s);
     seen_urls := on_seen e (seen_urls s);
     content_hashes := content_hashes s;
     stats := on_stats e (stats s);
     domain_failures := on_failures e (domain_failures s) |}.

(** What happened at one discovered URL: the answer of the adapter's
    [extract_experience_data] and what its requests did to the scraper,
    and the three readings of [datetime.utcnow()] taken, in this order,
    if the record is kept: for ['scraped_at'], for the default of
    [.get('experience_date', ...)], and inside [calculate_weight]. *)
Record visit : Type := mkVisit {
  extracted : option experience_data;
  requests : request_effects;
  at_scraped : TimeUtils.datetime;
  at_default : TimeUtils.datetime;
  at_weight : TimeUtils.datetime
}.

(** The clock does not run backwards between the three readings. *)
Definition clock_monotone (v : visit) : Prop :=
  (at_scraped v <= at_default v)%Z /\ (at_default v <= at_weight v)%Z.

(** [experience_data.get('experience_date', datetime.utcnow())]: the
    date the weight is computed for. *)
Definition weighted_date (v : visit) (d : experience_data)
  : TimeUtils.datetime_object :=
  match experience_date d with
  | Some wall =>
      match experience_tzinfo d with
      | Some utcoffset => TimeUtils.Aware wall utcoffset
      | None => TimeUtils.Naive wall
      end
  | None => TimeUtils.Naive (at_default v)
  end.

(** The dictionary after [experience_data.update({...})], for a weight
    that has been computed. *)
Definition with_metadata (platform : string) (v : visit) (weight : R)
    (d : experience_data) : experience_data :=
  {| title := title d; content := content d; source_url := source_url d;
     company := company d; role := role d;
     experience_date := experience_date d;
     experience_tzinfo := experience_tzinfo d; outcome := outcome d;
     source_platform := Some platform;
     scraped_at := Some (at_scraped v);
     time_weight := Some weight |}.

(** [experience_data.update({...})] in [scrape_company_experiences]:
    what [calculate_weight] raises leaves the generator. *)
Definition add_metadata (platform : string) (v : visit) (d : experience_data)
  : TimeUtils.raising experience_data :=
  match TimeUtils.weight_of_datetime TimeUtils.default_decay_lambda
          (at_weight v) (weighted_date v d) with
  | TimeUtils.Returns weight =>
      TimeUtils.Returns (with_metadata platform v weight d)
  | TimeUtils.Raises e => TimeUtils.Raises e
  end.

(** A run of the generator: the records it yields, the exception that
    ends it if one does, and the scraper it leaves. *)
Record scrape : Type := mkScrape {
  yielded : list experience_data;
  raised : option TimeUtils.exception;
  scraper_after : scraper
}.

Section WithHash.

(** [hashlib.md5(content.encode()).hexdigest()] *)
Variable md5 : string -> string.

(** [is_duplicate_content] *)
Definition is_duplicate_content (text : string) (s : scraper) : bool * scraper :=
  let content_hash := md5 text in
  if bool_decide (content_hash ∈ content_hashes s) then (true, s)
  else (false, with_hashes (fun hashes => {[content_hash]} ∪ hashes) s).

(** The loop of [scrape_company_experiences] over the discovered URLs. *)
Fixpoint scrape_loop (max_experiences : nat) (visits : list visit)
    (scraped_count : nat) (s : scraper) : scrape :=
  match visits with
  | [] => mkScrape [] None s
  | v :: rest =>
      if max_experiences <=? scraped_count then mkScrape [] None s
      else
        let s := apply_requests (requests v) s in
        match extracted v with
        | None => scrape_loop max_experiences rest scraped_count s
        | Some d =>
            let '(duplicate, s) := is_duplicate_content (content d) s in
            if duplicate then
              scrape_loop max_experiences rest scraped_count
                (with_stats incr_duplicates_found s)
            else
              match add_metadata (platform_name s) v d with
              | TimeUtils.Raises e => mkScrape [] (Some e) s
              | TimeUtils.Returns d =>
                  let run :=
                    scrape_loop max_experiences rest (S scraped_count) s in
                  mkScrape (d :: yielded run) (raised run)
                    (scraper_after run)
              end
        end
  end.

(** [scrape_company_experiences]; [discovery] is what the requests of
    [discover_experience_urls] do to the scraper, and [visits] what
    happens at the URLs it returns. *)
Definition scrape_company_experiences (max_experiences : nat)
    (discovery : request_effects) (visits : list visit) (s : scraper)
  : scrape :=
  scrape_loop max_experiences visits 0 (apply_requests discovery s).

End WithHash.

(** ** One visit, for the examples: a post dated thirty days before the
    scrape, found by the Reddit adapter. *)

Definition sample_scrape_time : TimeUtils.datetime := 1700000000000000%Z.

Definition sample_data : experience_data :=
  {| title := "Amazon SDE interview";
     content := "Two coding rounds and one design round.";
     source_url := "https://www.reddit.com/r/cscareerquestions/1";
     company := "Amazon"; role := None;
     experience_date :=
       Some (sample_scrape_time - 30 * TimeUtils.microseconds_per_day)%Z;
     experience_tzinfo := None;
     outcome := Some "offer";
     source_platform := Some "reddit"; scraped_at := None;
     time_weight := None |}.

Definition sample_visit : visit :=
  {| extracted := Some sample_data;
     requests := no_requests;
     at_scraped := sample_scrape_time;
     at_default := (sample_scrape_time + 1)%Z;
     at_weight := (sample_scrape_time + 2)%Z |}.

End Collection.

(* ===================================================================== *)
(** * scrapers/pipeline_manager.py: persistence of experiences *)
(* ===================================================================== *)

Module Pipeline.
Local Open Scope string_scope.
Local Open Scope nat_scope.

(** Rows of [companies] and [interview_experiences], with the columns
    [_store_experience] writes. *)
Record Company : Type := mkCompany {
  company_id : nat;
  name : string;
  display_name : string
}.

Record InterviewExperience : Type := mkExperience {
  id : nat;
  experience_company_id : nat;
  title : string;
  content : string;
  source_url : string;
  source_platform : string;
  role : string;
  experience_date : TimeUtils.datetime;
  time_weight : R;
  success : bool;
  scraped_at : TimeUtils.datetime;
  processed_at : option TimeUtils.datetime
}.

(** The two tables, in insertion order, and the next value of each
    primary-key sequence. *)
Record database : Type := mkDatabase {
  companies : list Company;
  experiences : list InterviewExperience;
  next_company_id : nat;
  next_experience_id : nat
}.

Definition empty : database :=
  {| companies := []; experiences := [];
     next_company_id := 1; next_experience_id := 1 |}.

(** [session.query(InterviewExperience).filter(source_url == url).first()] *)
Definition find_experience (url : string) (db : database)
  : option InterviewExperience :=
  find (fun e => String.eqb (source_url e) url) (experiences db).

(** [session.query(Company).filter(Company.name == name).first()] *)
Definition find_company (company_name : string) (db : database)
  : option Company :=
  find (fun c => String.eqb (name c) company_name) (companies db).

(** Get or create the company row. *)
Definition get_or_create_company (company_name : string) (db : database)
  : Company * database :=
  match find_company company_name db with
  | Some c => (c, db)
  | None =>
      let c := {| company_id := next_company_id db; name := company_name;
                  display_name := company_name |} in
      (c, {| companies := companies db ++ [c];
             experiences := experiences db;
             next_company_id := S (next_company_id db);
             next_experience_id := next_experience_id db |})
  end.

(** [_store_experience]; [now] is the reading of [datetime.utcnow()] for
    the row's [scraped_at].  A missing ['source_platform'] or
    ['experience_date'] raises [KeyError] after the company has been
    flushed: the session is rolled back and the function returns [None]. *)
Definition _store_experience (now : TimeUtils.datetime)
    (experience_data : Collection.experience_data) (db : database)
  : option nat * database :=
  match find_experience (Collection.source_url experience_data) db with
  | Some existing => (Some (id existing), db)
  | None =>
      let '(company, db1) :=
        get_or_create_company (Collection.company experience_data) db in
      match Collection.source_platform experience_data,
            Collection.experience_date experience_data with
      | Some platform, Some date =>
          let experience :=
            {| id := next_experience_id db1;
               experience_company_id := company_id company;
               title := Collection.title experience_data;
               content := Collection.content experience_data;
               source_url := Collection.source_url experience_data;
               source_platform := platform;
               role := default "Software Engineer"
                         (Collection.role experience_data);
               experience_date := date;
               time_weight := default 1%R
                                (Collection.time_weight experience_data);
               success :=
                 match Collection.outcome experience_data with
                 | Some o => String.eqb o "offer"
                 | None => false
                 end;
               scraped_at := now;
               processed_at := None |} in
          (Some (id experience),
           {| companies := companies db1;
              experiences := experiences db1 ++ [experience];
              next_company_id := next_company_id db1;
              next_experience_id := S (next_experience_id db1) |})
      | _, _ => (None, db)
      end
  end.

(** Records stored one after the other, each with its clock reading. *)
Definition store_all
    (records : list (TimeUtils.datetime * Collection.experience_data))
    (db : database) : database :=
  fold_left (fun acc r => snd (_store_experience (fst r) (snd r) acc))
    records db.

(** The URLs of the persisted experiences, in table order. *)
Definition stored_urls (db : database) : list string :=
  map source_url (experiences db).

End Pipeline.

(* ===================================================================== *)
(** * Python's [round(x, ndigits)] on exact values *)
(* ===================================================================== *)

Module PyRound.
Local Open Scope Q_scope.

(** The nearest integer, ties going to the even neighbour. *)
Definition round_half_even (q : Q) : Z :=
  let f := Qfloor q in
  match Qcompare (q - inject_Z f) (1 # 2) with
  | Lt => f
  | Gt => (f + 1)%Z
  | Eq => if Z.even f then f else (f + 1)%Z
  end.

(** [round(q, 1)], [round(q, 2)] and [round(q, 3)]. *)
Definition round1 (q : Q) : Q := inject_Z (round_half_even (q * 10)) / 10.
Definition round2 (q : Q) : Q := inject_Z (round_half_even (q * 100)) / 100.
Definition round3 (q : Q) : Q := inject_Z (round_half_even (q * 1000)) / 1000.

End PyRound.

(* ===================================================================== *)
(** * analysis/topic_extractor.py *)
(* ===================================================================== *)

Module TopicExtractor.
Import PyFloat PyStr PyRound.
Local Open Scope string_scope.
Local Open Scope nat_scope.

(** A topic key ["category.topic"], kept as the pair it is built from;
    [topic.split('.')] gives the two components back (no name of the
    taxonomy contains a dot). *)
Definition topic_key : Type := (string * string)%type.

Definition category_of (key : topic_key) : string := fst key.
Definition topic_name_of (key : topic_key) : string := snd key.

Definition key_eqb (a b : topic_key) : bool :=
  String.eqb (fst a) (fst b) && String.eqb (snd a) (snd b).

(** A [dict] from topic keys to counts, in insertion order. *)
Definition counts : Type := list (topic_key * nat).

(** [topics[key] += n] on a [defaultdict(int)]. *)
Fixpoint add_count (key : topic_key) (n : nat) (topics : counts) : counts :=
  match topics with
  | [] => [(key, n)]
  | (k, m) :: rest =>
      if key_eqb k key then (k, m + n) :: rest
      else (k, m) :: add_count key n rest
  end.

(** [len(re.findall(r'\b' + re.escape(pat) + r'\b', text))]: matches are
    counted from left to right and do not overlap; [skip] characters of
    the last match are still to be passed. *)
Fixpoint count_from (prev : option ascii) (skip : nat) (pat text : string)
  : nat :=
  match text with
  | EmptyString =>
      if (skip =? 0) && match_here prev pat text then 1 else 0
  | String c rest =>
      match skip with
      | S skip' => count_from (Some c) skip' pat rest
      | 0 =>
          if match_here prev pat text
          then S (count_from (Some c) (String.length pat - 1) pat rest)
          else count_from (Some c) 0 pat rest
      end
  end.

Definition count_word_matches (pat text : string) : nat :=
  count_from None 0 pat text.

(** [len(text.split())]: the number of maximal runs of non-blank
    characters. *)
Definition is_space (c : ascii) : bool :=
  let n := nat_of_ascii c in
  (n =? 32) || ((9 <=? n) && (n <=? 13)) || ((28 <=? n) && (n <=? 31)).

Fixpoint word_count_from (in_word : bool) (text : string) : nat :=
  match text with
  | EmptyString => 0
  | String c rest =>
      if is_space c then word_count_from false rest
      else if in_word then word_count_from true rest
           else S (word_count_from true rest)
  end.

Definition word_count (text : string) : nat := word_count_from false text.

(** [_preprocess_text]: lower case, every character other than a word
    character, a blank or a full stop replaced by a space, runs of blanks
    collapsed to one space, and the ends stripped.  Word characters and
    upper-case letters are those of ASCII, as in Python for a text of
    ASCII characters. *)
Definition keep_or_blank (c : ascii) : ascii :=
  if is_word_char c || is_space c || Ascii.eqb c "." then c else " "%char.

Fixpoint map_chars (f : ascii -> ascii) (s : string) : string :=
  match s with
  | EmptyString => EmptyString
  | String c rest => String (f c) (map_chars f rest)
  end.

Fixpoint collapse_blanks (in_blank : bool) (s : string) : string :=
  match s with
  | EmptyString => EmptyString
  | String c rest =>
      if is_space c then
        if in_blank then collapse_blanks true rest
        else String " " (collapse_blanks true rest)
      else String c (collapse_blanks false rest)
  end.

Fixpoint lstrip (s : string) : string :=
  match s with
  | EmptyString => EmptyString
  | String c rest => if is_space c then lstrip rest else s
  end.

Fixpoint rstrip (s : string) : string :=
  match s with
  | EmptyString => EmptyString
  | String c rest =>
      match rstrip rest with
      | EmptyString => if is_space c then EmptyString else String c EmptyString
      | rest' => String c rest'
      end
  end.

Definition _preprocess_text (text : string) : string :=
  let text := lower text in
  let text := map_chars keep_or_blank text in
  let text := collapse_blanks false text in
  rstrip (lstrip text).

(** [_build_keyword_dictionary]: category, topic, keywords. *)
Definition technical_keywords : list (string * list (string * list string)) :=
  [ ("data_structures",
     [ ("array", ["array"; "arrays"; "list"; "arraylist"; "vector";
                  "1d array"; "2d array"]);
       ("linked_list", ["linked list"; "linkedlist"; "singly linked";
                        "doubly linked"; "circular linked"]);
       ("stack", ["stack"; "stacks"; "lifo"; "push"; "pop"; "stack overflow"]);
       ("queue", ["queue"; "queues"; "fifo"; "enqueue"; "dequeue";
                  "circular queue"; "priority queue"]);
       ("tree", ["tree"; "trees"; "binary tree"; "bst"; "binary search tree";
                 "balanced tree"; "avl tree"; "red black tree"]);
       ("heap", ["heap"; "heaps"; "min heap"; "max heap"; "binary heap";
                 "heapify"]);
       ("hash_table", ["hash"; "hashmap"; "hash table"; "hash set";
                       "dictionary"; "map"; "hashtable"]);
       ("graph", ["graph"; "graphs"; "vertices"; "edges"; "adjacency";
                  "directed graph"; "undirected graph"; "weighted graph"]);
       ("trie", ["trie"; "prefix tree"; "suffix tree"; "radix tree"]) ]);
    ("algorithms",
     [ ("sorting", ["sort"; "sorting"; "merge sort"; "quick sort"; "heap sort";
                    "bubble sort"; "insertion sort"; "selection sort"]);
       ("searching", ["search"; "binary search"; "linear search"; "dfs"; "bfs";
                      "depth first"; "breadth first"]);
       ("dynamic_programming", ["dynamic programming"; "dp"; "memoization";
                                "tabulation"; "optimal substructure";
                                "overlapping subproblems"]);
       ("greedy", ["greedy"; "greedy algorithm"; "greedy approach";
                   "local optimum"]);
       ("recursion", ["recursion"; "recursive"; "backtracking";
                      "divide and conquer"]);
       ("two_pointers", ["two pointer"; "two pointers"; "sliding window";
                         "fast slow pointer"]);
       ("string_algorithms", ["string"; "substring"; "string matching"; "kmp";
                              "rabin karp"; "string manipulation"]) ]);
    ("system_design",
     [ ("scalability", ["scalability"; "scale"; "scaling"; "horizontal scaling";
                        "vertical scaling"; "scale out"; "scale up"]);
       ("load_balancer", ["load balancer"; "load balancing"; "nginx";
                          "haproxy"; "round robin"]);
       ("database", ["database"; "sql"; "nosql"; "mongodb"; "mysql";
                     "postgresql"; "cassandra"; "dynamodb"]);
       ("caching", ["cache"; "caching"; "redis"; "memcached"; "cdn";
                    "content delivery network"]);
       ("microservices", ["microservice"; "microservices"; "api"; "rest api";
                          "service oriented"; "distributed systems"]);
       ("messaging", ["queue"; "kafka"; "rabbitmq"; "pub sub";
                      "message queue"; "event driven"]);
       ("consistency", ["consistency"; "acid"; "cap theorem";
                        "eventual consistency"; "strong consistency"]) ]);
    ("programming_concepts",
     [ ("oop", ["oop"; "object oriented"; "inheritance"; "polymorphism";
                "encapsulation"; "abstraction"]);
       ("concurrency", ["thread"; "threading"; "concurrency"; "parallel";
                        "async"; "synchronization"; "mutex"; "semaphore"]);
       ("design_patterns", ["singleton"; "factory"; "observer"; "decorator";
                            "strategy"; "builder"; "adapter"]);
       ("complexity", ["time complexity"; "space complexity"; "big o";
                       "o(n)"; "o(log n)"; "o(n^2)"; "complexity analysis"]) ]);
    ("technologies",
     [ ("languages", ["java"; "python"; "c++"; "cpp"; "javascript"; "go";
                      "rust"; "scala"; "kotlin"]);
       ("frameworks", ["spring"; "django"; "react"; "angular"; "express";
                       "flask"; "nodejs"]);
       ("cloud", ["aws"; "azure"; "gcp"; "docker"; "kubernetes"; "ec2"; "s3";
                  "lambda"]);
       ("databases", ["mysql"; "postgresql"; "mongodb"; "cassandra";
                      "dynamodb"; "elasticsearch"]) ]) ].

(** [lookup[key] = value] on a [dict]: a key that is already there keeps
    its place and takes the new value. *)
Fixpoint dict_set (key : string) (value : topic_key)
    (d : list (string * topic_key)) : list (string * topic_key) :=
  match d with
  | [] => [(key, value)]
  | (k, v) :: rest =>
      if String.eqb k key then (k, value) :: rest
      else (k, v) :: dict_set key value rest
  end.

(** [_create_lookup_table] *)
Definition _create_lookup_table
    (keywords : list (string * list (string * list string)))
  : list (string * topic_key) :=
  fold_left
    (fun lookup '(cat, subcategories) =>
       fold_left
         (fun lookup '(topic, words) =>
            fold_left
              (fun lookup keyword => dict_set (lower keyword) (cat, topic) lookup)
              words lookup)
         subcategories lookup)
    keywords [].

(** [self.keyword_lookup] of the extractor as it is constructed. *)
Definition default_keyword_lookup : list (string * topic_key) :=
  Eval vm_compute in _create_lookup_table technical_keywords.

(** One entry of the scored result. *)
Record topic_data : Type := mkTopic {
  raw_count : nat;
  frequency_percent : Q;
  importance_score : Q;
  weighted_importance : Q;
  time_factor : Q;
  category : string;
  topic_name : string;
  confidence : Q
}.

(** [_calculate_topic_confidence] *)
Definition _calculate_topic_confidence (count : nat) (frequency : Q) : Q :=
  let count_factor := pymin (inject_Z (Z.of_nat count) / 5) 1 in
  let frequency_factor := pymin (frequency / 2) 1 in
  round2 ((count_factor + frequency_factor) / 2).

(** The category multipliers of [_calculate_topic_scores]. *)
Definition importance_multiplier (cat : string) : Q :=
  if String.eqb cat "algorithms" then 16 # 10
  else if String.eqb cat "data_structures" then 15 # 10
  else if String.eqb cat "system_design" then 18 # 10
  else if String.eqb cat "programming_concepts" then 13 # 10
  else if String.eqb cat "technologies" then 11 # 10
  else 1.

(** [(raw_count / text_words) * 100 if text_words > 0 else 0] *)
Definition frequency_of (count text_words : nat) : Q :=
  if 0 <? text_words
  then (inject_Z (Z.of_nat count) / inject_Z (Z.of_nat text_words) * 100)%Q
  else 0%Q.

Section WithTaxonomy.

(** [self.keyword_lookup]: lower-case keyword to (category, topic), in
    the order of the flattened taxonomy. *)
Variable keyword_lookup : list (string * topic_key).

(** The regular-expression engine on the patterns that are not plain
    literals: [len(re.findall(pattern, text, re.IGNORECASE))], and the
    stripped first group of every match of [re.finditer]. *)
Variable findall_count : string -> string -> nat.
Variable captured_terms : string -> string -> list string.

(** [math.log] on the integers it is applied to. *)
Variable math_log : nat -> Q.

(** [_extract_by_keywords] *)
Definition _extract_by_keywords (text : string) : counts :=
  fold_left
    (fun topics '(keyword, key) =>
       let matches := count_word_matches keyword text in
       if 0 <? matches then add_count key matches topics else topics)
    keyword_lookup [].

(** [self.context_patterns], flattened in iteration order. *)
Definition context_patterns : list string :=
  [ "implement(?:ed|ing)?\s+(\w+(?:\s+\w+){0,2})";
    "(?:write|code|solve)\s+(?:a|an)?\s*(\w+(?:\s+\w+){0,2})\s+(?:algorithm|solution)";
    "(?:asked|given)\s+(?:a|an)?\s*(\w+(?:\s+\w+){0,2})\s+(?:problem|question)";
    "us(?:e|ed|ing)\s+(?:a|an)?\s*(\w+(?:\s+\w+){0,2})";
    "implement(?:ed|ing)?\s+(?:a|an)?\s*(\w+(?:\s+\w+){0,2})";
    "(?:maintain|store|keep)\s+(?:data|elements|items)\s+in\s+(?:a|an)?\s*(\w+(?:\s+\w+){0,2})";
    "design(?:ed|ing)?\s+(?:a|an)?\s*(\w+(?:\s+\w+){0,2})\s+(?:system|service|application)";
    "(?:scale|scaling)\s+(?:the\s+)?(\w+(?:\s+\w+){0,2})";
    "(?:handle|managing)\s+(\w+(?:\s+\w+){0,2})\s+(?:load|traffic|requests)" ].

(** [_extract_by_context]: each captured term adds one to every topic a
    keyword of which contains the term or is contained in it. *)
Definition _extract_by_context (text : string) : counts :=
  fold_left
    (fun topics pattern =>
       fold_left
         (fun topics term =>
            fold_left
              (fun topics '(keyword, key) =>
                 if contains keyword term || contains term keyword
                 then add_count key 1 topics else topics)
              keyword_lookup topics)
         (captured_terms pattern text) topics)
    context_patterns [].

(** The [advanced_patterns] of [_extract_by_patterns]. *)
Definition advanced_patterns : list (topic_key * list string) :=
  [ (("algorithms", "dynamic_programming"),
     ["dp\s*\["; "memoization|tabulation"; "optimal substructure";
      "overlapping subproblems"; "knapsack|lis|lcs|edit.distance"]);
    (("algorithms", "two_pointers"),
     ["two.pointer"; "left.*right.*pointer"; "sliding.window";
      "fast.*slow.*pointer"]);
    (("system_design", "scalability"),
     ["horizontal.*scaling"; "vertical.*scaling"; "scale.*million.*users";
      "handle.*concurrent.*requests"; "load.*balancing"]);
    (("data_structures", "tree"),
     ["binary.*search.*tree"; "left.*child.*right.*child";
      "root.*node.*leaf"; "inorder.*preorder.*postorder";
      "tree.*traversal"]) ].

(** [_extract_by_patterns] *)
Definition _extract_by_patterns (text : string) : counts :=
  fold_left
    (fun topics '(key, patterns) =>
       fold_left
         (fun topics pattern =>
            let matches := findall_count pattern text in
            if 0 <? matches then add_count key matches topics else topics)
         patterns topics)
    advanced_patterns [].

(** [_merge_topic_extractions] *)
Definition merge_into (merged extraction : counts) : counts :=
  fold_left (fun acc '(key, count) => add_count key count acc)
    extraction merged.

Definition _merge_topic_extractions (extractions : list counts) : counts :=
  fold_left merge_into extractions [].

(** The un-rounded frequency a topic is scored with. *)
Definition topic_frequency (text : string) (count : nat) : Q :=
  frequency_of count (word_count text).

(** One iteration of the loop of [_calculate_topic_scores];
    [decay] is the value of [calculate_weight(experience_date)]. *)
Definition score_topic (text : string) (decay : Q) (key : topic_key)
    (count : nat) : topic_data :=
  let frequency := topic_frequency text count in
  let multiplier := importance_multiplier (category_of key) in
  let importance := (frequency * multiplier * math_log (count + 1))%Q in
  {| raw_count := count;
     frequency_percent := round2 frequency;
     importance_score := round2 importance;
     weighted_importance := round2 (importance * decay);
     time_factor := round3 decay;
     category := category_of key;
     topic_name := topic_name_of key;
     confidence := _calculate_topic_confidence count frequency |}.

(** [_calculate_topic_scores] *)
Definition _calculate_topic_scores (topics : counts) (text : string)
    (decay : Q) : list (topic_key * topic_data) :=
  sorted_desc (fun kd => weighted_importance (snd kd))
    (map (fun '(key, count) => (key, score_topic text decay key count)) topics).

(** The ['topics'] entry of [extract_topics_from_experience]; [decay] is
    the value of [calculate_weight] for the experience date.  An empty
    content gives no topics. *)
Definition extract_topics_from_experience (title content : string) (decay : Q)
  : list (topic_key * topic_data) :=
  if String.eqb content EmptyString then []
  else
    let combined_text := title ++ " " ++ content in
    let processed_text := _preprocess_text combined_text in
    let keyword_topics := _extract_by_keywords processed_text in
    let context_topics := _extract_by_context processed_text in
    let pattern_topics := _extract_by_patterns processed_text in
    let all_topics :=
      _merge_topic_extractions
        [keyword_topics; context_topics; pattern_topics] in
    _calculate_topic_scores all_topics processed_text decay.

End WithTaxonomy.

(** The rows [_store_topic_mentions] writes for one experience. *)
Record TopicMention : Type := mkMention {
  experience_id : nat;
  mention_topic : topic_key;
  frequency : nat;
  mention_importance_score : Q;
  mention_confidence : Q
}.

Definition _store_topic_mentions (experience : nat)
    (topics : list (topic_key * topic_data)) : list TopicMention :=
  map (fun '(key, data) =>
         {| experience_id := experience; mention_topic := key;
            frequency := raw_count data;
            mention_importance_score := importance_score data;
            mention_confidence := confidence data |})
      topics.

(** Every count in the dictionary is at least one. *)
Definition counts_positive (topics : counts) : Prop :=
  Forall (fun kc => 1 <= snd kc) topics.

(** ** A text for the examples.  Of the regular-expression engine the
    examples only need the word-boundary literals: no other pattern
    matches, and natural logarithms are taken to the integer below. *)

Definition sample_title : string := "Amazon SDE-2 Interview".

Definition sample_content : string :=
  "They asked a DP question on a tree, and I solved it with DP!".

Definition sample_log (n : nat) : Q := inject_Z (Z.log2 (Z.of_nat n)).

Definition sample_topics : list (topic_key * topic_data) :=
  extract_topics_from_experience default_keyword_lookup
    (fun _ _ => 0) (fun _ _ => []) sample_log
    sample_title sample_content 1%Q.

End TopicExtractor.


(* ===================================================================== *)
(** * analysis/insights_generator.py *)
(* ===================================================================== *)

Module Insights.
Import PyFloat PyRound.
Local Open Scope string_scope.
Local Open Scope Q_scope.

Definition topic_key : Type := TopicExtractor.topic_key.
Definition topic_data : Type := TopicExtractor.topic_data.

(** [self.min_sample_size] *)
Definition min_sample_size : nat := 3.

(** A function either returns or raises; the one exception the
    aggregator can raise on well-typed input is a division by zero. *)
Inductive outcome (A : Type) : Type :=
| Returned (a : A)
| ZeroDivisionError.
Arguments Returned {A} a.
Arguments ZeroDivisionError {A}.

Inductive priority : Type := HIGH | MEDIUM | LOW.

(** [_determine_priority_level] *)
Definition _determine_priority_level (frequency importance confidence : Q)
  : priority :=
  let priority_score :=
    frequency * (4 # 10) + importance * (4 # 10)
    + confidence * 20 * (2 # 10) in
  if Qle_bool 15 priority_score && Qle_bool (7 # 10) confidence then HIGH
  else if Qle_bool 8 priority_score && Qle_bool (5 # 10) confidence
       then MEDIUM
       else LOW.

(** An experience as [_get_experiences_with_topic_data] hands it over;
    [time_weight] is [None] when the key is missing. *)
Record experience : Type := mkExperience {
  id : nat;
  title : string;
  content : string;
  time_weight : option Q
}.

(** The analysis of one experience: the topics found by the extractor
    and, under ['experience_metadata'], the experience itself. *)
Record analysis : Type := mkAnalysis {
  topics : list (topic_key * topic_data);
  experience_metadata : experience
}.

(** [analysis['experience_metadata'].get('time_weight', 1.0)] *)
Definition exp_weight (a : analysis) : Q :=
  default 1 (time_weight (experience_metadata a)).

(** The three [defaultdict(list)] of [_generate_topic_insights]; they
    are always appended to together, so one dictionary holds the three
    lists of a topic. *)
Record samples : Type := mkSamples {
  frequencies : list Q;
  importances : list Q;
  confidences : list Q
}.

Definition groups : Type := list (topic_key * samples).

Fixpoint add_sample (key : topic_key) (f i c : Q) (g : groups) : groups :=
  match g with
  | [] => [(key, mkSamples [f] [i] [c])]
  | (k, s) :: rest =>
      if TopicExtractor.key_eqb k key
      then (k, mkSamples (frequencies s ++ [f]) (importances s ++ [i])
                 (confidences s ++ [c])) :: rest
      else (k, s) :: add_sample key f i c rest
  end.

(** The first loop: the total weight and the samples per topic. *)
Definition collect_analysis (acc : Q * groups) (a : analysis) : Q * groups :=
  let w := exp_weight a in
  (fst acc + w,
   fold_left
     (fun g '(key, data) =>
        add_sample key
          (TopicExtractor.frequency_percent data * w)
          (TopicExtractor.importance_score data * w)
          (TopicExtractor.confidence data) g)
     (topics a) (snd acc)).

Definition collect (analyses : list analysis) : Q * groups :=
  fold_left collect_analysis analyses (0, []).

(** [np.mean] of a non-empty list. *)
Definition mean (l : list Q) : Q := pysum l / inject_Z (Z.of_nat (length l)).

(** One entry of ['detailed_topics'].  The standard deviation (a square
    root), the texts and the study resources are left out. *)
Record topic_insight : Type := mkInsight {
  topic_name : string;
  category : string;
  weighted_frequency : Q;
  average_importance : Q;
  confidence_score : Q;
  priority_level : priority;
  mentions_count : nat
}.

(** The statistics of one topic, before rounding. *)
Definition weighted_frequency_of (total_weight : Q) (s : samples) : Q :=
  pysum (frequencies s) / total_weight * 100.
Definition avg_importance_of (s : samples) : Q := mean (importances s).
Definition avg_confidence_of (s : samples) : Q := mean (confidences s).

(** The divisors of the list comprehension under [np.std]:
    [f / analyses[i]['experience_metadata'].get('time_weight', 1.0)] for
    [i] below the number of samples. *)
Definition std_divisors_nonzero (analyses : list analysis) (s : samples)
  : bool :=
  forallb (fun a => negb (Qeq_bool (exp_weight a) 0))
    (firstn (length (frequencies s)) analyses).

(** The body of the second loop for one topic. *)
Definition rollup (analyses : list analysis) (total_weight : Q)
    (key : topic_key) (s : samples) : outcome topic_insight :=
  if Qeq_bool total_weight 0 then ZeroDivisionError
  else if negb (std_divisors_nonzero analyses s) then ZeroDivisionError
  else
    let frequency := weighted_frequency_of total_weight s in
    let avg_importance := avg_importance_of s in
    let avg_confidence := avg_confidence_of s in
    Returned
      {| topic_name := TopicExtractor.topic_name_of key;
         category := TopicExtractor.category_of key;
         weighted_frequency := round1 frequency;
         average_importance := round2 avg_importance;
         confidence_score := round2 avg_confidence;
         priority_level :=
           _determine_priority_level frequency avg_importance avg_confidence;
         mentions_count := length (frequencies s) |}.

Fixpoint rollup_all (analyses : list analysis) (total_weight : Q)
    (g : groups) : outcome (list (topic_key * topic_insight)) :=
  match g with
  | [] => Returned []
  | (key, s) :: rest =>
      match rollup analyses total_weight key s with
      | Returned insight =>
          match rollup_all analyses total_weight rest with
          | Returned insights => Returned ((key, insight) :: insights)
          | ZeroDivisionError => ZeroDivisionError
          end
      | ZeroDivisionError => ZeroDivisionError
      end
  end.

(** The result of [_generate_topic_insights]. *)
Record topic_insights : Type := mkTopicInsights {
  detailed_topics : list (topic_key * topic_insight);
  top_5_topics : list topic_key;
  high_priority_topics : list topic_key
}.

Definition is_high (p : priority) : bool :=
  match p with HIGH => true | _ => false end.

(** [_generate_topic_insights] *)
Definition _generate_topic_insights (analyses : list analysis)
  : outcome topic_insights :=
  let '(total_weight, g) := collect analyses in
  match rollup_all analyses total_weight g with
  | Returned insights =>
      let sorted_insights :=
        sorted_desc (fun ki => weighted_frequency (snd ki)) insights in
      Returned
        {| detailed_topics := sorted_insights;
           top_5_topics := firstn 5 (map fst sorted_insights);
           high_priority_topics :=
             map fst (List.filter (fun ki => is_high (priority_level (snd ki)))
                        sorted_insights) |}
  | ZeroDivisionError => ZeroDivisionError
  end.

(** [_insufficient_data_response] *)
Record insufficient_data_response : Type := mkInsufficient {
  response_company : string;
  status : string;
  needed : nat;
  response_sample_size : nat;
  quality_score : Q;
  sample_adequacy : string;
  recommendations : list string
}.

Definition _insufficient_data_response (company_name : string)
    (experience_count : nat) : insufficient_data_response :=
  {| response_company := company_name;
     status := "insufficient_data";
     needed := min_sample_size;
     response_sample_size := experience_count;
     quality_score := 0;
     sample_adequacy := "insufficient";
     recommendations :=
       ["Collect more interview experiences";
        "Try different scraping sources";
        "Wait for more data to accumulate"] |}.

(** The normal result.  Of its entries the company, the sample size and
    the topic insights are kept; the others (data quality, difficulty,
    process, trends, recommendations, strategy, success factors,
    confidence, comparison) are computed from the same analyses by
    functions that guard each of their divisions, and are left out. *)
Record insights : Type := mkInsights {
  company : string;
  sample_size : nat;
  topic_insights_of : topic_insights
}.

Inductive result : Type :=
| InsufficientData (response : insufficient_data_response)
| Insights (i : insights).

Section WithExtractor.

(** [self.topic_extractor.extract_topics_from_experience(exp)['topics']] *)
Variable extract_topics_from_experience :
  experience -> list (topic_key * topic_data).

Definition analyse (exp : experience) : analysis :=
  {| topics := extract_topics_from_experience exp;
     experience_metadata := exp |}.

(** [generate_comprehensive_insights] *)
Definition generate_comprehensive_insights (company_name : string)
    (experiences : list experience) : outcome result :=
  if (length experiences <? min_sample_size)%nat then
    Returned (InsufficientData
                (_insufficient_data_response company_name (length experiences)))
  else
    let experience_analyses := map analyse experiences in
    match _generate_topic_insights experience_analyses with
    | Returned ti =>
        Returned (Insights {| company := company_name;
                              sample_size := length experiences;
                              topic_insights_of := ti |})
    | ZeroDivisionError => ZeroDivisionError
    end.

End WithExtractor.

(** [priority_level] as the string the aggregator reports. *)
Definition priority_name (p : priority) : string :=
  match p with HIGH => "HIGH" | MEDIUM => "MEDIUM" | LOW => "LOW" end.

(** A row of [company_insights], with the six columns
    [_store_company_insights] fills from the figures of the result; the
    recommendation and the analysis date it writes beside them are
    added in [InsightStore]. *)
Record CompanyInsight : Type := mkCompanyInsight {
  insight_company_id : nat;
  insight_topic_id : nat;
  stored_weighted_frequency : Q;
  stored_confidence_score : Q;
  stored_sample_size : nat;
  stored_priority_level : string
}.

(** The rows inserted for a result: one per detailed topic that has a
    row in [topics]; a response without ['topic_insights'] inserts
    none. *)
Definition insight_rows (company_id : nat)
    (topic_id_of : topic_key -> option nat) (r : result)
  : list CompanyInsight :=
  match r with
  | InsufficientData _ => []
  | Insights found =>
      flat_map
        (fun '(key, data) =>
           match topic_id_of key with
           | Some topic_id =>
               [ {| insight_company_id := company_id;
                    insight_topic_id := topic_id;
                    stored_weighted_frequency := weighted_frequency data;
                    stored_confidence_score := confidence_score data;
                    stored_sample_size := sample_size found;
                    stored_priority_level :=
                      PyStr.lower (priority_name (priority_level data)) |} ]
           | None => []
           end)
        (detailed_topics (topic_insights_of found))
  end.

(** [_store_company_insights] in pipeline_manager.py: nothing happens
    for an unknown company; otherwise the company's old rows are deleted
    and the new ones inserted. *)
Definition _store_company_insights (company_id : option nat)
    (topic_id_of : topic_key -> option nat) (r : result)
    (table : list CompanyInsight) : list CompanyInsight :=
  match company_id with
  | None => table
  | Some cid =>
      List.filter (fun row => negb (insight_company_id row =? cid)%nat) table
      ++ insight_rows cid topic_id_of r
  end.

(** Every experience carries a positive weight, as the store's
    [0.01 <= time_weight <= 1.0] guarantees. *)
Definition weights_positive (experiences : list experience) : Prop :=
  Forall (fun e => 0 < default 1 (time_weight e)) experiences.


(** ** Three experiences, for the examples *)

Definition sample_extractor (e : experience)
  : list (topic_key * topic_data) :=
  TopicExtractor.extract_topics_from_experience
    TopicExtractor.default_keyword_lookup
    (fun _ _ => 0%nat) (fun _ _ => []) TopicExtractor.sample_log
    (title e) (content e) 1.

Definition sample_experiences : list experience :=
  [ mkExperience 1 "Amazon SDE" "a dp question and a tree question" (Some (1 # 2));
    mkExperience 2 "Amazon SDE 2" "dp dp dp dp dp everywhere" (Some 1);
    mkExperience 3 "Amazon intern" "behavioural round only" None ].

End Insights.
(* ===================================================================== *)
(** * utils/rate_limiter.py: the limiter over a run of requests *)
(* ===================================================================== *)

Module LimiterRuns.
Import PyFloat RateLimiter.
Local Open Scope Q_scope.

(** The deque [domain_requests[domain]] and the entry
    [domain_last_request.get(domain, 0)]. *)
Definition requests_of (s : SmartRateLimiter) (domain : string) : list Q :=
  default [] (domain_requests s !! domain).

(** One call of [wait_if_needed]: its arguments, the reading of
    [time.time()] and the jitter drawn. *)
Record call : Type := mkCall {
  call_domain : string;
  call_base_delay : Q;
  call_now : Q;
  call_jitter : Q
}.

Definition step (c : call) (s : SmartRateLimiter) : SmartRateLimiter :=
  snd (wait_if_needed (call_domain c) (call_base_delay c) (call_now c)
         (call_jitter c) s).

(** Calls made in order, first one first. *)
Definition run (calls : list call) (s : SmartRateLimiter) : SmartRateLimiter :=
  fold_left (fun acc c => step c acc) calls s.

(** The clock readings of the calls made for [domain]. *)
Definition times_to (domain : string) (calls : list call) : list Q :=
  List.map call_now
    (List.filter (fun c => bool_decide (call_domain c = domain)) calls).

(** The reading of the last call made for [domain]. *)
Definition last_time (domain : string) (calls : list call) : Q :=
  List.last (times_to domain calls) 0.

(** [t'] is at most 60 seconds before [t]. *)
Definition within_minute (t t' : Q) : bool := Qle_bool (t - t') 60.

End LimiterRuns.
(* ===================================================================== *)
(** * utils/time_utils.py: averages over the decay weights *)
(* ===================================================================== *)

Module DecayCalculator.
Import TimeUtils.
Local Open Scope R_scope.

(** [sum(...)] over floats: from 0, left to right. *)
Definition rsum (l : list R) : R := fold_left Rplus l 0.

(** A naive date that none of the clock readings precedes. *)
Definition naive_past (clock : nat -> datetime) (a : date_argument) : Prop :=
  match a with
  | Date (Naive date) => forall i : nat, (date <= clock i)%Z
  | _ => False
  end.

Section WithParser.

Variable fromisoformat : string -> option datetime_object.

(** [calculate_batch_weights], each call of [calculate_weight] with its
    own reading of the clock: [clock i] is the reading of call number
    [i].  The first call that raises ends the comprehension. *)
Fixpoint batch_weights_from (clock : nat -> datetime) (i : nat)
    (experience_dates : list date_argument) : raising (list R) :=
  match experience_dates with
  | [] => Returns []
  | date :: rest =>
      match calculate_weight fromisoformat (clock i) date with
      | Raises e => Raises e
      | Returns weight =>
          match batch_weights_from clock (S i) rest with
          | Raises e => Raises e
          | Returns weights => Returns (weight :: weights)
          end
      end
  end.

Definition calculate_batch_weights (clock : nat -> datetime)
    (experience_dates : list date_argument) : raising (list R) :=
  batch_weights_from clock 0 experience_dates.

(** [weighted_sum] inside [calculate_weighted_average]. *)
Definition weighted_sum (values weights : list R) : R :=
  rsum (List.map (fun '(val, weight) => val * weight)
          (combine values weights)).

(** [calculate_weighted_average] *)
Definition calculate_weighted_average (clock : nat -> datetime)
    (values : list R) (experience_dates : list date_argument) : raising R :=
  if negb (length values =? length experience_dates)%nat
  then Raises ValueError
  else
    match calculate_batch_weights clock experience_dates with
    | Raises e => Raises e
    | Returns weights =>
        let total_weight := rsum weights in
        Returns (if Rlt_dec 0 total_weight
                 then weighted_sum values weights / total_weight
                 else 0)
    end.

End WithParser.

End DecayCalculator.
(* ===================================================================== *)
(** * utils/robots_checker.py *)
(* ===================================================================== *)

Module RobotsChecker.
Import PyFloat BaseScraper.
Local Open Scope Q_scope.

(** What a [RobotFileParser] that has read a robots.txt answers:
    [can_fetch(user_agent, url)] and [crawl_delay(user_agent)]. *)
Record RobotFileParser : Type := mkParser {
  rp_can_fetch : string -> string -> bool;
  rp_crawl_delay : string -> option nat
}.

(** The checker's two dictionaries.  [cache] holds [None] for a domain
    whose robots.txt could not be loaded. *)
Record RobotsTxtChecker : Type := mkChecker {
  cache : gmap string (option RobotFileParser);
  cache_ttl : gmap string Q
}.

Definition cache_duration : Q := 3600.

Definition init : RobotsTxtChecker := {| cache := ∅; cache_ttl := ∅ |}.

(** The remote side: what loading the robots.txt of a domain at a given
    time produces, [None] standing for a status other than 200 and for
    any exception raised on the way. *)
Definition loader : Type := string -> Q -> option RobotFileParser.

(** [_load_robots_txt]; [stamp] is the reading of [time.time()] stored
    with the entry. *)
Definition _load_robots_txt (load : loader) (stamp : Q) (domain : string)
    (c : RobotsTxtChecker) : RobotsTxtChecker :=
  {| cache := <[domain := load domain stamp]> (cache c);
     cache_ttl := <[domain := stamp]> (cache_ttl c) |}.

(** [can_fetch]: [now] is the clock reading of the freshness test.  The
    result carries the answer, the checker afterwards and the domains
    handed to [_load_robots_txt]. *)
Definition can_fetch (load : loader) (now stamp : Q)
    (url user_agent : string) (c : RobotsTxtChecker)
  : (bool * nat) * RobotsTxtChecker * list string :=
  let domain := netloc url in
  let '(rp, c, loads) :=
    match cache c !! domain with
    | Some cached =>
        if Qltb (now - default 0 (cache_ttl c !! domain)) cache_duration
        then (cached, c, [])
        else
          let c := _load_robots_txt load stamp domain c in
          (default None (cache c !! domain), c, [domain])
    | None =>
        let c := _load_robots_txt load stamp domain c in
        (default None (cache c !! domain), c, [domain])
    end in
  match rp with
  | None => ((true, 5%nat), c, loads)
  | Some rp =>
      let is_allowed := rp_can_fetch rp user_agent url in
      let crawl_delay :=
        match rp_crawl_delay rp user_agent with
        | Some (S n) => S n
        | _ => 2%nat
        end in
      ((is_allowed, Nat.max crawl_delay 2), c, loads)
  end.

(** [clear_cache] *)
Definition clear_cache (c : RobotsTxtChecker) : RobotsTxtChecker := init.

End RobotsChecker.
(* ===================================================================== *)
(** * utils/company_extractor.py: the table of patterns as a [dict] *)
(* ===================================================================== *)

Module ExtractorTable.
Import PyStr CompanyExtractor.
Local Open Scope string_scope.

(** [d[key] = value] on an insertion-ordered [dict]: an existing key
    keeps its place, a new one goes to the end. *)
Fixpoint dict_set (table : list (string * list string)) (key : string)
    (value : list string) : list (string * list string) :=
  match table with
  | [] => [(key, value)]
  | (name, patterns) :: rest =>
      if String.eqb name key then (name, value) :: rest
      else (name, patterns) :: dict_set rest key value
  end.

(** [add_company_patterns] *)
Definition add_company_patterns (company_name : string)
    (patterns : list string) (table : list (string * list string))
  : list (string * list string) :=
  dict_set table company_name patterns.

(** [get_all_companies] *)
Definition get_all_companies (table : list (string * list string))
  : list string :=
  List.map fst table.

(** [get_patterns_for_company] *)
Definition get_patterns_for_company (table : list (string * list string))
    (company_name : string) : list string :=
  table_get table company_name [].

(** [key in d] *)
Definition has_key (table : list (string * list string)) (key : string)
  : bool :=
  existsb (fun name => String.eqb name key) (get_all_companies table).

End ExtractorTable.
(* ===================================================================== *)
(** * scrapers/base_scraper.py: counting the requests of a call *)
(* ===================================================================== *)

Module ScraperEffects.
Import BaseScraper.
Local Open Scope nat_scope.

(** The number of [session.get] calls among the events. *)
Fixpoint count_gets (evs : list event) : nat :=
  match evs with
  | [] => 0
  | Get _ :: rest => S (count_gets rest)
  | Sleep _ :: rest => count_gets rest
  end.

(** What the retry loop has done when it is left. *)
Definition attempts_post (url domain : string) (budget : nat)
    (s : scraper) (w : world) (r : option response) (s' : scraper)
    (w' : world) : Prop :=
  exists evs : list event,
    trace w' = (trace w ++ evs)%list /\
    count_gets evs <= budget /\
    requests_made (stats s') = requests_made (stats s) + count_gets evs /\
    answers w' = List.skipn (count_gets evs) (answers w) /\
    match r with
    | Some answer =>
        (exists body, answer = Response 200 body) /\
        seen_urls s' = {[url]} ∪ seen_urls s /\
        failures_of s' domain = 0 /\
        RateLimiter.failures_of (rate_limiter s') domain = 0 /\
        successful_scrapes (stats s') = S (successful_scrapes (stats s))
    | None =>
        seen_urls s' = seen_urls s /\
        successful_scrapes (stats s') = successful_scrapes (stats s)
    end.

End ScraperEffects.

(* ===================================================================== *)
(** * scrapers/base_scraper.py: the hashes of what the loop yields *)
(* ===================================================================== *)

Module CollectionEffects.
Import BaseScraper Collection.

(** The content hashes of a list of records, in order. *)
Definition hashes_of (md5 : string -> string) (ds : list experience_data)
  : list string :=
  List.map (fun d => md5 (content d)) ds.

(** The visits at which the adapter extracted something. *)
Fixpoint extractions (visits : list visit) : list experience_data :=
  match visits with
  | [] => []
  | v :: rest =>
      match extracted v with
      | Some d => d :: extractions rest
      | None => extractions rest
      end
  end.

End CollectionEffects.
(* ===================================================================== *)
(** * scrapers/pipeline_manager.py: the queries over the store *)
(* ===================================================================== *)

Module PipelineQueries.
Import PyFloat Pipeline.
Local Open Scope string_scope.
Local Open Scope nat_scope.

(** The row [e] in
    [session.query(InterviewExperience).join(Company)
       .filter(Company.name == company_name)]:
    it is joined to the company its foreign key names. *)
Definition joins (company_name : string) (db : database)
    (e : InterviewExperience) : bool :=
  existsb (fun c => (company_id c =? experience_company_id e)
                    && String.eqb (name c) company_name)
    (companies db).

(** [_get_company_experiences], as rows. *)
Definition _get_company_experiences (company_name : string) (db : database)
  : list InterviewExperience :=
  List.filter (joins company_name db) (experiences db).

(** [_get_existing_experience_count] *)
Definition _get_existing_experience_count (company_name : string)
    (db : database) : nat :=
  length (_get_company_experiences company_name db).

(** [.order_by(InterviewExperience.scraped_at.desc()).first()] *)
Definition latest_experience (company_name : string) (db : database)
  : option InterviewExperience :=
  hd_error
    (sorted_desc (fun e => inject_Z (scraped_at e))
       (_get_company_experiences company_name db)).

Definition days_threshold : Z := 7.

(** [_is_data_stale]; [now] is the reading of [datetime.utcnow()]. *)
Definition _is_data_stale (company_name : string) (now : TimeUtils.datetime)
    (db : database) : bool :=
  match latest_experience company_name db with
  | Some latest =>
      let days_since_update := TimeUtils.days now (scraped_at latest) in
      (days_threshold <? days_since_update)%Z
  | None => true
  end.

(** The consistency of the two tables: primary keys come from the
    sequences, company names are not repeated, and every experience
    points to a company that is there. *)
Definition db_ok (db : database) : Prop :=
  NoDup (List.map company_id (companies db)) /\
  NoDup (List.map name (companies db)) /\
  Forall (fun c => company_id c < next_company_id db) (companies db) /\
  NoDup (List.map id (experiences db)) /\
  Forall (fun e => id e < next_experience_id db /\
                   In (experience_company_id e)
                      (List.map company_id (companies db)))
    (experiences db).

End PipelineQueries.
(* ===================================================================== *)
(** * analysis/topic_extractor.py: the analyses beside the topics *)
(* ===================================================================== *)

Module TopicAnalysis.
Import PyFloat PyStr PyRound TopicExtractor.
Local Open Scope string_scope.
Local Open Scope nat_scope.

(** [topics.get(key, 0)] *)
Fixpoint count_of (key : topic_key) (topics : counts) : nat :=
  match topics with
  | [] => 0
  | (k, m) :: rest => if key_eqb k key then m else count_of key rest
  end.

(** [key in topics] *)
Definition has_topic (key : topic_key) (topics : counts) : bool :=
  existsb (fun km => key_eqb (fst km) key) topics.

(** [_calculate_overall_confidence] *)
Definition _calculate_overall_confidence
    (topics : list (topic_key * topic_data)) : Q :=
  match topics with
  | [] => 0%Q
  | _ =>
      let confidences := List.map (fun kd => confidence (snd kd)) topics in
      round2 (pysum confidences / inject_Z (Z.of_nat (length confidences)))
  end.

(** ** [_classify_interview_rounds] *)

Definition round_types : list (string * list string) :=
  [ ("coding",
     ["coding"; "algorithm"; "data structure"; "leetcode"; "hackerrank"]);
    ("system_design",
     ["system design"; "architecture"; "scalability"; "design"]);
    ("behavioral",
     ["behavioral"; "culture fit"; "leadership"; "teamwork"; "conflict"]);
    ("technical_discussion",
     ["technical discussion"; "past projects"; "experience"; "deep dive"]) ].

Record round_info : Type := mkRound {
  score : nat;
  round_confidence : Q
}.

(** [len(re.findall(r'\b' + re.escape(keyword) + r'\b', text,
    re.IGNORECASE))] for a lower-case keyword: the matches in the
    lower-cased text. *)
Definition count_ignoring_case (keyword text : string) : nat :=
  count_word_matches keyword (lower text).

Definition round_score (keywords : list string) (text : string) : nat :=
  fold_left (fun score keyword => score + count_ignoring_case keyword text)
    keywords 0.

Definition _classify_interview_rounds (text : string)
  : list (string * round_info) :=
  flat_map
    (fun '(round_type, keywords) =>
       let score := round_score keywords text in
       if 0 <? score then
         [(round_type,
           {| score := score;
              round_confidence :=
                pymin (inject_Z (Z.of_nat score) / 3) 1 |})]
       else [])
    round_types.

(** The test [round_info.get('confidence', 0) > 0.5] under which
    [_analyze_interview_process] counts a round. *)
Definition counts_as_round (info : round_info) : bool :=
  Qltb (5 # 10) (round_confidence info).

(** ** [_assess_difficulty] *)

Inductive difficulty : Type := easy | medium | hard.

(** [self.difficulty_patterns] *)
Definition difficulty_patterns (d : difficulty) : list string :=
  match d with
  | easy =>
      [ "(?:simple|easy|basic|straightforward|trivial)";
        "(?:beginner|junior|entry.level)";
        "(?:took|solved|finished)\s+(?:quickly|fast|easily)" ]
  | medium =>
      [ "(?:medium|moderate|intermediate|standard)";
        "(?:took|required)\s+(?:some|considerable)\s+(?:time|thought|effort)";
        "(?:tricky|challenging)\s+(?:but|however)\s+(?:manageable|doable)" ]
  | hard =>
      [ "(?:hard|difficult|challenging|tough|complex|advanced)";
        "(?:struggled|difficulty|trouble|hard time)";
        "(?:senior|experienced|expert).level";
        "(?:took|required)\s+(?:long|much|lot of)\s+(?:time|effort|thinking)" ]
  end.

Record difficulty_assessment : Type := mkAssessment {
  overall_difficulty : option difficulty;   (* [None]: 'unknown' *)
  assessment_confidence : Q;
  breakdown : difficulty -> nat
}.

Section WithRegex.

(** [len(re.findall(pattern, text, re.IGNORECASE))] *)
Variable findall_count : string -> string -> nat.

Definition difficulty_score (text : string) (d : difficulty) : nat :=
  fold_left (fun score pattern => score + findall_count pattern text)
    (difficulty_patterns d) 0.

(** [max(difficulty_scores, key=difficulty_scores.get)]: the keys are
    visited in the order easy, medium, hard, and a later key replaces
    the best one only when its score is strictly larger. *)
Definition max_by_score (scores : difficulty -> nat) : difficulty :=
  fold_left (fun best d => if scores best <? scores d then d else best)
    [medium; hard] easy.

Definition _assess_difficulty (text : string) : difficulty_assessment :=
  let difficulty_scores := difficulty_score text in
  let total_mentions :=
    difficulty_scores easy + difficulty_scores medium
    + difficulty_scores hard in
  if total_mentions =? 0 then
    {| overall_difficulty := None;
       assessment_confidence := round2 0;
       breakdown := difficulty_scores |}
  else
    let overall := max_by_score difficulty_scores in
    {| overall_difficulty := Some overall;
       assessment_confidence :=
         round2 (inject_Z (Z.of_nat (difficulty_scores overall))
                 / inject_Z (Z.of_nat total_mentions));
       breakdown := difficulty_scores |}.

End WithRegex.

End TopicAnalysis.
(* ===================================================================== *)
(** * analysis/insights_generator.py: the confidence of a report *)
(* ===================================================================== *)

Module InsightStats.
Import PyFloat PyRound Insights.
Local Open Scope string_scope.
Local Open Scope Q_scope.

(** The three priority levels, from the lowest to the highest. *)
Definition priority_rank (p : priority) : nat :=
  match p with LOW => 0 | MEDIUM => 1 | HIGH => 2 end.

(** The dictionary returned by [_calculate_statistical_confidence]. *)
Record statistical_confidence : Type := mkConfidence {
  overall_score : Q;
  sample_size_confidence : Q;
  data_quality_confidence : Q;
  confidence_level : string;
  factor_sample_size : nat;
  avg_topics_per_experience : Q
}.

(** [sum(len(analysis.get('topics', {})) for analysis in analyses)] *)
Definition total_topics (analyses : list analysis) : nat :=
  fold_left (fun total a => (total + length (topics a))%nat) analyses 0%nat.

(** [_calculate_statistical_confidence] *)
Definition _calculate_statistical_confidence (analyses : list analysis)
  : statistical_confidence :=
  let sample_size := length analyses in
  let sample_confidence :=
    if (20 <=? sample_size)%nat then 9 # 10
    else if (10 <=? sample_size)%nat then 7 # 10
    else if (5 <=? sample_size)%nat then 5 # 10
    else 3 # 10 in
  let avg_topics_per_exp :=
    if (0 <? sample_size)%nat
    then inject_Z (Z.of_nat (total_topics analyses))
         / inject_Z (Z.of_nat sample_size)
    else 0 in
  let quality_confidence :=
    if Qle_bool 5 avg_topics_per_exp then 9 # 10
    else if Qle_bool 3 avg_topics_per_exp then 7 # 10
    else if Qle_bool 2 avg_topics_per_exp then 5 # 10
    else 3 # 10 in
  let overall_confidence := (sample_confidence + quality_confidence) / 2 in
  {| overall_score := round2 overall_confidence;
     sample_size_confidence := round2 sample_confidence;
     data_quality_confidence := round2 quality_confidence;
     confidence_level :=
       if Qle_bool (7 # 10) overall_confidence then "high"
       else if Qle_bool (5 # 10) overall_confidence then "medium"
       else "low";
     factor_sample_size := sample_size;
     avg_topics_per_experience := round1 avg_topics_per_exp |}.

(** "On average at least [k] topics per experience", in whole
    numbers. *)
Definition averages_at_least (k : nat) (analyses : list analysis) : Prop :=
  (0 < length analyses /\ k * length analyses <= total_topics analyses)%nat.

(** Every topic that has samples has at least one. *)
Definition sampled (g : groups) : Prop :=
  Forall (fun ks => (1 <= length (frequencies (snd ks)))%nat) g.

End InsightStats.
(* ===================================================================== *)
(** * scrapers/pipeline_manager.py: the analysis stage *)
(* ===================================================================== *)

Module AnalysisStage.
Import Pipeline PipelineQueries.
Local Open Scope string_scope.
Local Open Scope nat_scope.

(** The store with the table of topic mentions beside it. *)
Record store : Type := mkStore {
  db : database;
  mentions : list TopicExtractor.TopicMention
}.

Definition hours_threshold : Z := 24.
Definition microseconds_per_hour : Z := 3600 * 1000000.

(** [hours_since < hours_threshold] for a row processed at
    [processed]: [(now - processed).total_seconds() / 3600 < 24], on
    exact values. *)
Definition analyzed_within_threshold (now processed : TimeUtils.datetime)
  : bool :=
  (now - processed <? hours_threshold * microseconds_per_hour)%Z.

(** [_is_experience_recently_analyzed]; [now] is the reading of
    [datetime.utcnow()]. *)
Definition _is_experience_recently_analyzed (experience_id : nat)
    (now : TimeUtils.datetime) (d : database) : bool :=
  match find (fun e => id e =? experience_id) (experiences d) with
  | Some experience =>
      match processed_at experience with
      | Some processed => analyzed_within_threshold now processed
      | None => false
      end
  | None => false
  end.

(** [experience.processed_at = now] *)
Definition set_processed (now : TimeUtils.datetime)
    (e : InterviewExperience) : InterviewExperience :=
  {| id := id e; experience_company_id := experience_company_id e;
     title := title e; content := content e; source_url := source_url e;
     source_platform := source_platform e; role := role e;
     experience_date := experience_date e; time_weight := time_weight e;
     success := success e; scraped_at := scraped_at e;
     processed_at := Some now |}.

(** The update of the first row with the given id. *)
Fixpoint mark_processed (experience_id : nat) (now : TimeUtils.datetime)
    (rows : list InterviewExperience) : list InterviewExperience :=
  match rows with
  | [] => []
  | e :: rest =>
      if id e =? experience_id then set_processed now e :: rest
      else e :: mark_processed experience_id now rest
  end.

(** [_store_topic_mentions]: one mention per topic, and the timestamp of
    the experience. *)
Definition _store_topic_mentions (experience_id : nat)
    (topics : list (TopicExtractor.topic_key * TopicExtractor.topic_data))
    (now : TimeUtils.datetime) (st : store) : store :=
  {| db := {| companies := companies (db st);
              experiences :=
                mark_processed experience_id now (experiences (db st));
              next_company_id := next_company_id (db st);
              next_experience_id := next_experience_id (db st) |};
     mentions :=
       mentions st
       ++ TopicExtractor._store_topic_mentions experience_id topics |}.

Section WithExtractor.

(** [self.topic_extractor.extract_topics_from_experience(...)['topics']]
    on the title, the content and the date of an experience. *)
Variable extract_topics :
  string -> string -> TimeUtils.datetime ->
  list (TopicExtractor.topic_key * TopicExtractor.topic_data).

(** The clock readings of the stage, by the id of the experience they
    are taken for: in [_is_experience_recently_analyzed], and for
    [processed_at]. *)
Variable checked_at stored_at : nat -> TimeUtils.datetime.

Definition topics_of (e : InterviewExperience)
  : list (TopicExtractor.topic_key * TopicExtractor.topic_data) :=
  extract_topics (title e) (content e) (experience_date e).

(** The body of the loop of [_run_analysis_stage]. *)
Definition analyse_experience (st : store) (e : InterviewExperience)
  : store :=
  if _is_experience_recently_analyzed (id e) (checked_at (id e)) (db st)
  then st
  else
    match topics_of e with
    | [] => st
    | topics => _store_topic_mentions (id e) topics (stored_at (id e)) st
    end.

(** [_run_analysis_stage], as it changes the store. *)
Definition _run_analysis_stage (company_name : string) (st : store)
  : store :=
  fold_left analyse_experience
    (_get_company_experiences company_name (db st)) st.

(** The experiences the stage analyses and finds topics in: those of the
    company that were not processed within the threshold. *)
Definition analysed (company_name : string) (d : database)
    (e : InterviewExperience) : bool :=
  joins company_name d e
  && negb (match processed_at e with
           | Some processed =>
               analyzed_within_threshold (checked_at (id e)) processed
           | None => false
           end)
  && match topics_of e with [] => false | _ => true end.

(** The row written for an experience that is analysed. *)
Definition analysed_row (company_name : string) (d : database)
    (e : InterviewExperience) : InterviewExperience :=
  if analysed company_name d e
  then set_processed (stored_at (id e)) e else e.

(** The mentions written for an experience that is analysed. *)
Definition analysed_mentions (company_name : string) (d : database)
    (e : InterviewExperience) : list TopicExtractor.TopicMention :=
  if analysed company_name d e
  then TopicExtractor._store_topic_mentions (id e)
         (topics_of e)
  else [].

End WithExtractor.

End AnalysisStage.
(* ===================================================================== *)
(** * analysis/topic_extractor.py: the shape of a preprocessed text *)
(* ===================================================================== *)

Module TextShape.
Import PyStr TopicExtractor.
Local Open Scope string_scope.
Local Open Scope nat_scope.

(** A text of ASCII characters only: there [string] and Python's [str]
    agree on what a word character, a blank and a lower-case letter
    are. *)
Fixpoint ascii_only (s : string) : bool :=
  match s with
  | EmptyString => true
  | String c rest => (nat_of_ascii c <? 128) && ascii_only rest
  end.

(** An upper-case ASCII letter. *)
Definition is_upper (c : ascii) : bool :=
  let n := nat_of_ascii c in (65 <=? n) && (n <=? 90).

(** A lower-case letter, a digit, an underscore or a full stop. *)
Definition plain_char (c : ascii) : bool :=
  (is_word_char c && negb (is_upper c)) || Ascii.eqb c ".".

(** Plain characters and single spaces only, and no space at the
    beginning when [after_blank] is set. *)
Fixpoint single_spaced (after_blank : bool) (s : string) : bool :=
  match s with
  | EmptyString => true
  | String c rest =>
      if Ascii.eqb c " " then negb after_blank && single_spaced true rest
      else plain_char c && single_spaced false rest
  end.

(** The last character is a blank. *)
Fixpoint ends_with_blank (s : string) : bool :=
  match s with
  | EmptyString => false
  | String c EmptyString => is_space c
  | String _ rest => ends_with_blank rest
  end.

(** The shape of every preprocessed text: lower-case words of letters,
    digits, underscores and full stops, separated by single spaces. *)
Definition normal_form (s : string) : bool :=
  single_spaced true s && negb (ends_with_blank s).

End TextShape.
(* ===================================================================== *)
(** * scrapers/pipeline_manager.py: the data collection stage *)
(* ===================================================================== *)

Module CollectionStage.
Import Pipeline PipelineQueries BaseScraper Collection.
Local Open Scope string_scope.
Local Open Scope nat_scope.

(** One entry of [self.scrapers]: the scraper, what the requests of
    its discovery do to it, and what its adapter finds at the URLs it
    discovers; [None] when an adapter method raises. *)
Record platform : Type := mkPlatform {
  platform_scraper : scraper;
  platform_discovery : request_effects;
  platform_visits : option (list visit)
}.

(** The counters of [collection_results]. *)
Record collection_results : Type := mkResults {
  existing_experiences : nat;
  newly_scraped : nat;
  total_experiences : nat;
  scraping_performed : bool
}.

Section WithEnvironment.

Variable md5 : string -> string.

(** The reading of [datetime.utcnow()] taken when the row of a record
    is written. *)
Variable stored_at : experience_data -> TimeUtils.datetime.

(** The loop [for exp_data in platform_experiences]: the number of
    truthy ids returned, and the store afterwards. *)
Definition store_experiences (records : list experience_data)
    (d : database) : nat * database :=
  fold_left
    (fun acc exp_data =>
       let '(experience_id, d') :=
         _store_experience (stored_at exp_data) exp_data (snd acc) in
       (match experience_id with
        | Some i => if i =? 0 then fst acc else S (fst acc)
        | None => fst acc
        end, d'))
    records (0, d).

(** One iteration of the loop over [self.scrapers.items()], with
    [total_scraped] and the store as state.  The generator is drained
    by [list(...)] before anything is stored, so a run that raises
    stores nothing. *)
Definition scrape_platform (experiences_per_platform : nat)
    (acc : nat * database) (p : platform) : nat * database :=
  match platform_visits p with
  | None => acc
  | Some visits =>
      let run :=
        scrape_company_experiences md5 experiences_per_platform
          (platform_discovery p) visits (platform_scraper p) in
      match raised run with
      | Some _ => acc
      | None =>
          let '(platform_scraped, d') :=
            store_experiences (yielded run) (snd acc) in
          (fst acc + platform_scraped, d')
      end
  end.

(** [_run_data_collection_stage]; [now] is the clock reading of
    [_is_data_stale], and [None] stands for the [ZeroDivisionError] of
    a manager without scrapers. *)
Definition _run_data_collection_stage (company_name : string)
    (max_experiences : nat) (force_refresh : bool)
    (now : TimeUtils.datetime) (scrapers : list platform) (d : database)
  : option (collection_results * database) :=
  let existing_count := _get_existing_experience_count company_name d in
  let should_scrape :=
    force_refresh || (existing_count <? max_experiences)
    || _is_data_stale company_name now d in
  if should_scrape then
    match length scrapers with
    | 0 => None
    | S _ =>
        let experiences_per_platform :=
          max_experiences / length scrapers in
        let '(total_scraped, d') :=
          fold_left (scrape_platform experiences_per_platform) scrapers
            (0, d) in
        Some ({| existing_experiences := existing_count;
                 newly_scraped := total_scraped;
                 total_experiences :=
                   _get_existing_experience_count company_name d';
                 scraping_performed := true |}, d')
    end
  else
    Some ({| existing_experiences := existing_count;
             newly_scraped := 0;
             total_experiences :=
               _get_existing_experience_count company_name d;
             scraping_performed := false |}, d).

End WithEnvironment.

(** A store in which the sequence of experience ids has started. *)
Definition store_ok (d : database) : Prop :=
  db_ok d /\ 1 <= next_experience_id d.

End CollectionStage.
(* ===================================================================== *)
(** * scrapers/pipeline_manager.py: the rows of [company_insights] *)
(* ===================================================================== *)

Module InsightStore.
Import Insights.
Local Open Scope string_scope.
Local Open Scope nat_scope.

(** A row of [company_insights] as [_store_company_insights] builds it:
    the six columns of [Insights.CompanyInsight], the recommendation,
    and the reading of [datetime.utcnow()] taken for [analysis_date].
    The primary key is assigned by the database and is not part of what
    the code writes. *)
Record stored_insight : Type := mkStored {
  written : CompanyInsight;
  study_recommendation : string;
  analysis_date : TimeUtils.datetime
}.

Section WithEnvironment.

(** [topic_data['actionable_insight']] of an entry of
    ['detailed_topics']. *)
Variable actionable_insight : topic_key -> topic_insight -> string.

(** [session.query(Topic).filter(Topic.name == topic_key).first()] *)
Variable topic_id_of : topic_key -> option nat.

(** The loop over ['detailed_topics']: one row for each topic that has
    a row in [topics]; [clock i] is the reading of the clock for the
    row built after [i] others. *)
Fixpoint new_rows (company_id sample : nat)
    (clock : nat -> TimeUtils.datetime) (i : nat)
    (entries : list (topic_key * topic_insight)) : list stored_insight :=
  match entries with
  | [] => []
  | (key, data) :: rest =>
      match topic_id_of key with
      | Some topic_id =>
          {| written :=
               {| insight_company_id := company_id;
                  insight_topic_id := topic_id;
                  stored_weighted_frequency := weighted_frequency data;
                  stored_confidence_score := confidence_score data;
                  stored_sample_size := sample;
                  stored_priority_level :=
                    PyStr.lower (priority_name (priority_level data)) |};
             study_recommendation := actionable_insight key data;
             analysis_date := clock i |}
          :: new_rows company_id sample clock (S i) rest
      | None => new_rows company_id sample clock i rest
      end
  end.

(** The rows inserted for a result; a response without
    ['topic_insights'] inserts none. *)
Definition insight_rows (company_id : nat)
    (clock : nat -> TimeUtils.datetime) (r : result) : list stored_insight :=
  match r with
  | InsufficientData _ => []
  | Insights found =>
      new_rows company_id (sample_size found) clock 0
        (detailed_topics (topic_insights_of found))
  end.

(** [_store_company_insights]: nothing happens for an unknown company;
    otherwise the company's old rows are deleted and the new ones
    inserted. *)
Definition _store_company_insights (company_id : option nat)
    (clock : nat -> TimeUtils.datetime) (r : result)
    (table : list stored_insight) : list stored_insight :=
  match company_id with
  | None => table
  | Some cid =>
      List.filter
        (fun row => negb (insight_company_id (written row) =? cid)) table
      ++ insight_rows cid clock r
  end.

End WithEnvironment.

End InsightStore.

(* ===================================================================== *)
(** * Properties of the rational helpers *)
(* ===================================================================== *)

Section PyFloatFacts.
Import PyFloat.
Local Open Scope Q_scope.

Lemma Qltb_true (a b : Q) : Qltb a b = true <-> a < b.
Proof.
  unfold Qltb. rewrite negb_true_iff, <- not_true_iff_false, Qle_bool_iff.
  split; [apply Qnot_le_lt | apply Qlt_not_le].
Qed.

Lemma Qltb_false (a b : Q) : Qltb a b = false <-> b <= a.
Proof.
  unfold Qltb. rewrite negb_false_iff, Qle_bool_iff. reflexivity.
Qed.

Lemma pymax_lower (a b : Q) : a <= pymax a b.
Proof.
  unfold pymax. destruct (Qltb a b) eqn:E.
  - apply Qltb_true in E. qlra.
  - qlra.
Qed.

Lemma pymax_upper (a b c : Q) : a <= c -> b <= c -> pymax a b <= c.
Proof. unfold pymax. destruct (Qltb a b); auto. Qed.

Lemma pymin_upper (a b : Q) : pymin a b <= a.
Proof.
  unfold pymin. destruct (Qltb b a) eqn:E.
  - apply Qltb_true in E. qlra.
  - qlra.
Qed.

Lemma pymin_upper_right (a b : Q) : pymin a b <= b.
Proof.
  unfold pymin. destruct (Qltb b a) eqn:E.
  - qlra.
  - apply Qltb_false in E. exact E.
Qed.

Lemma pymin_lower (a b c : Q) : c <= a -> c <= b -> c <= pymin a b.
Proof. unfold pymin. destruct (Qltb b a); auto. Qed.

Lemma pymax_Qmax (a b : Q) : pymax a b == Qmax a b.
Proof.
  unfold pymax. destruct (Qltb a b) eqn:E.
  - apply Qltb_true in E. symmetry. apply Q.max_r. qlra.
  - apply Qltb_false in E. symmetry. apply Q.max_l. exact E.
Qed.

Lemma pymin_Qmin (a b : Q) : pymin a b == Qmin a b.
Proof.
  unfold pymin. destruct (Qltb b a) eqn:E.
  - apply Qltb_true in E. symmetry. apply Q.min_r. qlra.
  - apply Qltb_false in E. symmetry. apply Q.min_l. exact E.
Qed.

Lemma insert_desc_Forall {A : Type} (key : A -> Q) (P : A -> Prop)
    (x : A) (sorted : list A) :
  P x -> Forall P sorted -> Forall P (insert_desc key x sorted).
Proof.
  intros Hx. induction sorted as [| y rest IH]; intros Hall; simpl.
  - constructor; [exact Hx | constructor].
  - destruct (Qltb (key x) (key y)).
    + apply Forall_cons in Hall. destruct Hall as [Hy Hrest].
      constructor; [exact Hy | apply IH, Hrest].
    + constructor; [exact Hx | exact Hall].
Qed.

Lemma sorted_desc_Forall {A : Type} (key : A -> Q) (P : A -> Prop)
    (l : list A) :
  Forall P l -> Forall P (sorted_desc key l).
Proof.
  unfold sorted_desc.
  induction l as [| x rest IH]; intros Hall; simpl; [constructor |].
  apply Forall_cons in Hall. destruct Hall as [Hx Hrest].
  apply insert_desc_Forall; [exact Hx | apply IH, Hrest].
Qed.

End PyFloatFacts.

(* ===================================================================== *)
(** * The adaptive rate limiter *)
(* ===================================================================== *)

Section RateLimiterFacts.
Import PyFloat RateLimiter.
Local Open Scope Q_scope.

Lemma dd_get_fst {V : Type} (dflt : V) (k : string) (m : gmap string V) :
  fst (dd_get dflt k m) = default dflt (m !! k).
Proof. unfold dd_get. destruct (m !! k); reflexivity. Qed.


Lemma dd_get_snd_ne {V : Type} (dflt : V) (k k' : string)
    (m : gmap string V) :
  k <> k' -> snd (dd_get dflt k m) !! k' = m !! k'.
Proof.
  intros Hne. unfold dd_get. destruct (m !! k); simpl; [reflexivity |].
  apply lookup_insert_ne, Hne.
Qed.

(** *** One recording, read back through the default dictionaries *)

Lemma record_success_failures (d d' : string) (s : SmartRateLimiter) :
  failures_of (record_success d s) d' =
  if decide (d = d') then 0%nat else failures_of s d'.
Proof.
  unfold record_success, failures_of.
  destruct (dd_get 0%nat d (success_streak s)) as [old streaks0].
  destruct (5 <=? S old)%nat;
    [destruct (dd_get default_multiplier d (adaptive_multiplier s)) |];
    simpl; rewrite lookup_insert; destruct (decide (d = d')); reflexivity.
Qed.

Lemma record_success_streak (d d' : string) (s : SmartRateLimiter) :
  streak_of (record_success d s) d' =
  if decide (d = d')
  then (if (5 <=? S (streak_of s d))%nat then 0%nat else S (streak_of s d))
  else streak_of s d'.
Proof.
  unfold record_success, streak_of.
  pose proof (dd_get_fst 0%nat d (success_streak s)) as Hfst.
  pose proof (dd_get_snd_ne 0%nat d d' (success_streak s)) as Hsnd.
  destruct (dd_get 0%nat d (success_streak s)) as [old streaks0].
  simpl in Hfst, Hsnd. subst old.
  destruct (5 <=? S _)%nat;
    [destruct (dd_get default_multiplier d (adaptive_multiplier s)) |];
    simpl; destruct (decide (d = d')) as [-> | Hne];
    rewrite ?lookup_insert_eq; try reflexivity;
    rewrite !lookup_insert_ne by exact Hne; rewrite Hsnd by exact Hne;
    reflexivity.
Qed.

Lemma record_success_multiplier (d d' : string) (s : SmartRateLimiter) :
  multiplier_of (record_success d s) d' =
  if decide (d = d')
  then (if (5 <=? S (streak_of s d))%nat
        then pymax (8 # 10) (multiplier_of s d * (9 # 10))
        else multiplier_of s d)
  else multiplier_of s d'.
Proof.
  unfold record_success, multiplier_of, streak_of.
  pose proof (dd_get_fst 0%nat d (success_streak s)) as Hfst.
  destruct (dd_get 0%nat d (success_streak s)) as [old streaks0].
  simpl in Hfst. subst old.
  pose proof (dd_get_fst default_multiplier d (adaptive_multiplier s)) as Hm.
  pose proof (dd_get_snd_ne default_multiplier d d' (adaptive_multiplier s))
    as Hsnd.
  destruct (5 <=? S _)%nat.
  - destruct (dd_get default_multiplier d (adaptive_multiplier s))
      as [current_mult mults].
    simpl in *. subst current_mult.
    destruct (decide (d = d')) as [-> | Hne].
    + rewrite lookup_insert_eq. reflexivity.
    + rewrite lookup_insert_ne by exact Hne. rewrite Hsnd by exact Hne.
      reflexivity.
  - simpl. destruct (decide (d = d')) as [-> | Hne]; reflexivity.
Qed.

Lemma record_failure_failures (d d' : string) (s : SmartRateLimiter) :
  failures_of (record_failure d s) d' =
  if decide (d = d') then S (failures_of s d) else failures_of s d'.
Proof.
  unfold record_failure, failures_of.
  pose proof (dd_get_fst 0%nat d (domain_failures s)) as Hfst.
  pose proof (dd_get_snd_ne 0%nat d d' (domain_failures s)) as Hsnd.
  destruct (dd_get 0%nat d (domain_failures s)) as [old fails0].
  destruct (dd_get default_multiplier d (adaptive_multiplier s)).
  simpl in *. subst old.
  destruct (decide (d = d')) as [-> | Hne].
  - rewrite lookup_insert_eq. reflexivity.
  - rewrite lookup_insert_ne by exact Hne. rewrite Hsnd by exact Hne.
    reflexivity.
Qed.

Lemma record_failure_streak (d d' : string) (s : SmartRateLimiter) :
  streak_of (record_failure d s) d' =
  if decide (d = d') then 0%nat else streak_of s d'.
Proof.
  unfold record_failure, streak_of.
  destruct (dd_get 0%nat d (domain_failures s)).
  destruct (dd_get default_multiplier d (adaptive_multiplier s)).
  simpl. rewrite lookup_insert. destruct (decide (d = d')); reflexivity.
Qed.

Lemma record_failure_multiplier (d d' : string) (s : SmartRateLimiter) :
  multiplier_of (record_failure d s) d' =
  if decide (d = d') then pymin 3 (multiplier_of s d * (12 # 10))
  else multiplier_of s d'.
Proof.
  unfold record_failure, multiplier_of.
  pose proof (dd_get_fst default_multiplier d (adaptive_multiplier s)) as Hm.
  pose proof (dd_get_snd_ne default_multiplier d d' (adaptive_multiplier s))
    as Hsnd.
  destruct (dd_get 0%nat d (domain_failures s)).
  destruct (dd_get default_multiplier d (adaptive_multiplier s))
    as [current_mult mults].
  simpl in *. subst current_mult.
  destruct (decide (d = d')) as [-> | Hne].
  - rewrite lookup_insert_eq. reflexivity.
  - rewrite lookup_insert_ne by exact Hne. rewrite Hsnd by exact Hne.
    reflexivity.
Qed.

Lemma limiter_ok_init : limiter_ok init.
Proof.
  intros d. unfold multiplier_of, streak_of, init. simpl.
  rewrite !lookup_empty. simpl. unfold default_multiplier.
  repeat split; [qlra | qlra | lia].
Qed.

Lemma limiter_ok_record (r : recording) (s : SmartRateLimiter) :
  limiter_ok s -> limiter_ok (record r s).
Proof.
  intros Hs d'. destruct r as [d | d]; simpl.
  - rewrite record_success_multiplier, record_success_streak.
    destruct (decide (d = d')) as [-> | Hne]; [| apply Hs].
    destruct (Hs d') as (Hlo & Hhi & Hstreak).
    destruct (5 <=? S (streak_of s d'))%nat eqn:E.
    + repeat split; [apply pymax_lower | | lia].
      apply pymax_upper; qlra.
    + apply Nat.leb_gt in E. repeat split; [qlra | qlra | lia].
  - rewrite record_failure_multiplier, record_failure_streak.
    destruct (decide (d = d')) as [-> | Hne]; [| apply Hs].
    destruct (Hs d') as (Hlo & Hhi & Hstreak).
    repeat split; [| apply pymin_upper | lia].
    apply pymin_lower; qlra.
Qed.

Lemma limiter_ok_record_all (rs : list recording) (s : SmartRateLimiter) :
  limiter_ok s -> limiter_ok (record_all rs s).
Proof.
  revert s. induction rs as [| r rs IH]; intros s Hs; simpl; [exact Hs |].
  apply IH, limiter_ok_record, Hs.
Qed.

End RateLimiterFacts.

Section RateLimiterClaim.
Import PyFloat RateLimiter.
Local Open Scope Q_scope.

(** C8.  Per host the adaptive multiplier starts at 1.0 and stays within
    [0.8, 3.0] under every sequence of success and failure recordings.
    In every limiter [s] reached by such a sequence, recording a success
    for [d] zeroes the failure counter of [d]; on the fifth success in a
    row (streak 4 before the call) it multiplies the multiplier by 0.9,
    floored at 0.8, and resets the streak, and otherwise it only
    increments the streak.  Recording a failure for [d] increments the
    failure counter, multiplies the multiplier by 1.2, capped at 3.0,
    and resets the streak.  The counters of every other host [d'] are
    left as they were. *)
Theorem adaptive_multiplier_in_range :
  forall (rs : list recording) (d d' : string),
    let s := record_all rs init in
    multiplier_of init d == 1 /\
    (8 # 10) <= multiplier_of s d /\ multiplier_of s d <= 3 /\
    (streak_of s d <= 4)%nat /\
    failures_of (record_success d s) d' =
      (if decide (d = d') then 0%nat else failures_of s d') /\
    streak_of (record_success d s) d' =
      (if decide (d = d')
       then (if (streak_of s d =? 4)%nat then 0%nat else S (streak_of s d))
       else streak_of s d') /\
    multiplier_of (record_success d s) d' ==
      (if decide (d = d')
       then (if (streak_of s d =? 4)%nat
             then Qmax (8 # 10) (multiplier_of s d * (9 # 10))
             else multiplier_of s d)
       else multiplier_of s d') /\
    failures_of (record_failure d s) d' =
      (if decide (d = d') then S (failures_of s d) else failures_of s d') /\
    streak_of (record_failure d s) d' =
      (if decide (d = d') then 0%nat else streak_of s d') /\
    multiplier_of (record_failure d s) d' ==
      (if decide (d = d')
       then Qmin 3 (multiplier_of s d * (12 # 10))
       else multiplier_of s d').
Proof.
  intros rs d d' s.
  assert (Hok : limiter_ok s)
    by (apply limiter_ok_record_all, limiter_ok_init).
  destruct (Hok d) as (Hlo & Hhi & Hstreak).
  assert (Hfifth : (5 <=? S (streak_of s d))%nat = (streak_of s d =? 4)%nat).
  { destruct (Nat.eqb_spec (streak_of s d) 4) as [E | E].
    - rewrite E. reflexivity.
    - apply Nat.leb_gt. lia. }
  split; [reflexivity |].
  split; [exact Hlo |]. split; [exact Hhi |]. split; [lia |].
  split; [apply record_success_failures |].
  split; [rewrite record_success_streak, Hfifth; reflexivity |].
  split.
  { rewrite record_success_multiplier, Hfifth.
    destruct (decide (d = d')); [| reflexivity].
    destruct (streak_of s d =? 4)%nat; [apply pymax_Qmax | reflexivity]. }
  split; [apply record_failure_failures |].
  split; [apply record_failure_streak |].
  rewrite record_failure_multiplier.
  destruct (decide (d = d')); [apply pymin_Qmin | reflexivity].
Qed.

End RateLimiterClaim.

(* ===================================================================== *)
(** * The word-boundary matcher against its declarative reading *)
(* ===================================================================== *)

Section PyStrFacts.
Import PyStr.
Local Open Scope string_scope.

Lemma last_char_app (dflt : option ascii) (s t : string) :
  last_char dflt (s ++ t) = last_char (last_char dflt s) t.
Proof.
  revert dflt. induction s as [| c s IH]; intros dflt; simpl;
    [reflexivity | apply IH].
Qed.

Lemma strip_prefix_spec (last : option ascii) (pat text : string)
    (l : option ascii) (rest : string) :
  strip_prefix last pat text = Some (l, rest) <->
  text = pat ++ rest /\ l = last_char last pat.
Proof.
  revert last text. induction pat as [| p pat IH]; intros last text; simpl.
  - split.
    + intros H. injection H as -> ->. split; reflexivity.
    + intros [-> ->]. reflexivity.
  - destruct text as [| c text].
    + split; [discriminate | intros [H _]; discriminate].
    + destruct (Ascii.eqb_spec p c) as [-> | Hne].
      * rewrite IH. split.
        -- intros [-> ->]. split; reflexivity.
        -- intros [H ->]. injection H as ->. split; reflexivity.
      * split; [discriminate |].
        intros [H _]. injection H as H _. congruence.
Qed.

Lemma strip_prefix_None (last : option ascii) (pat text : string) :
  strip_prefix last pat text = None ->
  forall rest : string, text <> pat ++ rest.
Proof.
  intros H rest Heq.
  assert (Hs : strip_prefix last pat text = Some (last_char last pat, rest))
    by (apply strip_prefix_spec; split; [exact Heq | reflexivity]).
  congruence.
Qed.

Lemma match_here_spec (prev : option ascii) (pat text : string) :
  match_here prev pat text = true <->
  exists post : string,
    text = pat ++ post /\
    boundary prev (head_char (pat ++ post)) = true /\
    boundary (last_char prev pat) (head_char post) = true.
Proof.
  unfold match_here. rewrite andb_true_iff. split.
  - intros [Hb Hm].
    destruct (strip_prefix prev pat text) as [[l rest] |] eqn:E;
      [| discriminate].
    apply strip_prefix_spec in E. destruct E as [-> ->].
    exists rest. repeat split; assumption.
  - intros (post & -> & Hb & Ha).
    split; [exact Hb |].
    assert (Hs : strip_prefix prev pat (pat ++ post)
                 = Some (last_char prev pat, post))
      by (apply strip_prefix_spec; split; reflexivity).
    rewrite Hs. exact Ha.
Qed.

Lemma search_from_spec (prev : option ascii) (pat text : string) :
  search_from prev pat text = true <->
  exists pre post : string,
    text = pre ++ pat ++ post /\
    boundary (last_char prev pre) (head_char (pat ++ post)) = true /\
    boundary (last_char prev (pre ++ pat)) (head_char post) = true.
Proof.
  revert prev. induction text as [| c text IH]; intros prev; simpl;
    rewrite orb_true_iff, match_here_spec.
  - split.
    + intros [(post & Heq & Hb & Ha) | H]; [| discriminate].
      exists EmptyString, post. simpl. repeat split; assumption.
    + intros (pre & post & Heq & Hb & Ha). left.
      destruct pre as [| c pre]; [| discriminate].
      exists post. simpl in *. repeat split; assumption.
  - rewrite IH. split.
    + intros [(post & Heq & Hb & Ha) | (pre & post & Heq & Hb & Ha)].
      * exists EmptyString, post. simpl. repeat split; assumption.
      * exists (String c pre), post. simpl. rewrite Heq.
        repeat split; assumption.
    + intros (pre & post & Heq & Hb & Ha).
      destruct pre as [| c' pre]; simpl in *.
      * left. exists post. repeat split; assumption.
      * right. injection Heq as -> ->. exists pre, post.
        repeat split; assumption.
Qed.

(** The matcher decides exactly "occurs as a whole word". *)
Lemma re_search_word_spec (pat text : string) :
  re_search_word pat text = true <-> occurs_as_whole_word pat text.
Proof. unfold re_search_word, occurs_as_whole_word. apply search_from_spec. Qed.

Lemma contains_spec (sub text : string) :
  contains sub text = true <-> occurs_as_substring sub text.
Proof.
  unfold occurs_as_substring.
  induction text as [| c text IH]; simpl; rewrite orb_true_iff.
  - split.
    + intros [H | H]; [| discriminate].
      destruct (strip_prefix None sub EmptyString) as [[l rest] |] eqn:E;
        [| discriminate].
      apply strip_prefix_spec in E. destruct E as [E _].
      exists EmptyString, rest. exact E.
    + intros (pre & post & Heq). left.
      destruct pre as [| c pre]; [| discriminate]. simpl in Heq.
      destruct (strip_prefix None sub EmptyString) eqn:E; [reflexivity |].
      exfalso. exact (strip_prefix_None _ _ _ E post Heq).
  - rewrite IH. split.
    + intros [H | (pre & post & Heq)].
      * destruct (strip_prefix None sub (String c text)) as [[l rest] |] eqn:E;
          [| discriminate].
        apply strip_prefix_spec in E. destruct E as [E _].
        exists EmptyString, rest. exact E.
      * exists (String c pre), post. simpl. now rewrite Heq.
    + intros (pre & post & Heq).
      destruct pre as [| c' pre]; simpl in Heq.
      * left. destruct (strip_prefix None sub (String c text)) eqn:E;
          [reflexivity |].
        exfalso. exact (strip_prefix_None _ _ _ E post Heq).
      * right. injection Heq as -> ->. exists pre, post. reflexivity.
Qed.

(** A whole-word occurrence is in particular a substring occurrence;
    the converse fails (["ola"] inside ["cola"]). *)
Lemma whole_word_is_substring (pat text : string) :
  occurs_as_whole_word pat text -> occurs_as_substring pat text.
Proof. intros (pre & post & Heq & _). exists pre, post. exact Heq. Qed.

End PyStrFacts.

(* ===================================================================== *)
(** * The company disambiguator *)
(* ===================================================================== *)

Section CompanyExtractorFacts.
Import PyStr CompanyExtractor.
Local Open Scope string_scope.

Lemma matches_company_patterns_spec (text : string) (patterns : list string) :
  _matches_company_patterns text patterns = true <->
  exists p : string, In p patterns /\ occurs_as_whole_word p text.
Proof.
  induction patterns as [| pat rest IH]; simpl.
  - split; [discriminate | intros (p & [] & _)].
  - destruct (re_search_word pat text) eqn:E.
    + split; [| reflexivity]. intros _. exists pat. split; [now left |].
      apply re_search_word_spec, E.
    + rewrite IH. split.
      * intros (p & Hin & Hocc). exists p. split; [now right | exact Hocc].
      * intros (p & [<- | Hin] & Hocc).
        -- apply re_search_word_spec in Hocc. congruence.
        -- exists p. split; assumption.
Qed.

Lemma url_patterns_never_answer (title content : string) :
  _extract_from_url_patterns title content = "Unknown".
Proof.
  unfold _extract_from_url_patterns, url_patterns. simpl.
  repeat match goal with
         | |- context [if ?b then _ else _] => destruct b
         end; reflexivity.
Qed.

Lemma scan_is_find (text : string) (entries : list (string * list string)) :
  scan text entries =
  option_map fst
    (find (fun e => _matches_company_patterns text (snd e)) entries).
Proof.
  induction entries as [| [name patterns] rest IH]; simpl; [reflexivity |].
  destruct (_matches_company_patterns text patterns); [reflexivity | exact IH].
Qed.

Lemma scan_Some (text : string) (entries : list (string * list string))
    (name : string) :
  scan text entries = Some name ->
  exists (before after : list (string * list string)) (patterns : list string),
    entries = (before ++ (name, patterns) :: after)%list /\
    _matches_company_patterns text patterns = true /\
    Forall (fun e => _matches_company_patterns text (snd e) = false) before.
Proof.
  induction entries as [| [n ps] rest IH]; simpl; [discriminate |].
  destruct (_matches_company_patterns text ps) eqn:E.
  - intros H. injection H as <-. exists [], rest, ps.
    repeat split; [exact E | constructor].
  - intros H. destruct (IH H) as (before & after & patterns & -> & Hm & Hb).
    exists ((n, ps) :: before), after, patterns.
    repeat split; [exact Hm |]. constructor; [exact E | exact Hb].
Qed.

Lemma scan_None (text : string) (entries : list (string * list string)) :
  scan text entries = None ->
  Forall (fun e => _matches_company_patterns text (snd e) = false) entries.
Proof.
  induction entries as [| [n ps] rest IH]; simpl; [constructor |].
  destruct (_matches_company_patterns text ps) eqn:E; [discriminate |].
  intros H. constructor; [exact E | exact (IH H)].
Qed.

Lemma extract_without_target_scan (table : list (string * list string))
    (title content : string) :
  extract_without_target table title content =
  default "Unknown" (scan (lower (title ++ " " ++ content)) table).
Proof.
  unfold extract_without_target.
  destruct (scan _ table); [reflexivity |].
  rewrite url_patterns_never_answer. reflexivity.
Qed.

Lemma table_get_entry (table before after : list (string * list string))
    (name : string) (patterns dflt : list string) :
  distinct_keys table = true ->
  table = (before ++ (name, patterns) :: after)%list ->
  table_get table name dflt = patterns.
Proof.
  revert table. induction before as [| [k ps] before IH];
    intros table Hd ->; simpl in *.
  - now rewrite String.eqb_refl.
  - apply andb_true_iff in Hd. destruct Hd as [Hk Hd].
    destruct (String.eqb_spec k name) as [-> | Hne].
    + exfalso. apply negb_true_iff in Hk.
      rewrite existsb_app in Hk. simpl in Hk.
      rewrite String.eqb_refl, orb_true_r in Hk. discriminate.
    + eapply IH; [exact Hd | reflexivity].
Qed.

Lemma company_patterns_distinct : distinct_keys company_patterns = true.
Proof. vm_compute. reflexivity. Qed.

Lemma scan_key (text : string) (table : list (string * list string))
    (name : string) :
  scan text table = Some name -> In name (map fst table).
Proof.
  intros H. destruct (scan_Some _ _ _ H) as (before & after & ps & -> & _).
  rewrite map_app. apply in_or_app. right. now left.
Qed.

End CompanyExtractorFacts.

Section CompanyExtractorClaims.
Import PyStr CompanyExtractor.
Local Open Scope string_scope.

(** C5.  Without a target the pattern table is scanned in its own order
    and the first entry one of whose patterns matches is returned
    (["Unknown"] when none does).  For the title "PhonePe Interview
    Experience" the answer is ["PhonePe"] whatever the content says; and
    for a content that names Walmart, Flipkart and a PhonePe SDE round,
    both the PhonePe and the Flipkart entry match the text and the answer
    is still ["PhonePe"], even under a title that names no company:
    PhonePe is entry 0 of the table, Flipkart entry 10. *)
Theorem earlier_entries_win :
  (forall title content : string,
      extract title content None =
      match find (fun e => _matches_company_patterns
                             (lower (title ++ " " ++ content)) (snd e))
                 company_patterns with
      | Some e => fst e
      | None => "Unknown"
      end) /\
  (forall content : string,
      extract "PhonePe Interview Experience" content None = "PhonePe") /\
  (let content :=
     "Walmart bought Flipkart long ago. My PhonePe SDE round went well." in
   let text := lower ("Interview Experience" ++ " " ++ content) in
   _matches_company_patterns text
     (table_get company_patterns "PhonePe" []) = true /\
   _matches_company_patterns text
     (table_get company_patterns "Flipkart" []) = true /\
   extract "PhonePe Interview Experience" content None = "PhonePe" /\
   extract "Interview Experience" content None = "PhonePe" /\
   extract "Interview Experience" content None <> "Flipkart") /\
  nth_error (map fst company_patterns) 0 = Some "PhonePe" /\
  nth_error (map fst company_patterns) 10 = Some "Flipkart".
Proof.
  split; [| split; [| split; [| split]]].
  - intros title content. unfold extract, extract_company_from_content.
    rewrite extract_without_target_scan, scan_is_find.
    destruct (find _ company_patterns); reflexivity.
  - intros content. vm_compute. reflexivity.
  - vm_compute. repeat split; discriminate.
  - reflexivity.
  - reflexivity.
Qed.

(** C10.  Whatever the title, the content and the optional target, the
    extractor answers with the target it was given, with a key of its
    pattern table, or with ["Unknown"]. *)
Theorem extraction_is_closed :
  forall (table : list (string * list string)) (title content : string)
         (target_company : option string),
    let r := extract_company_from_content table title content target_company in
    r = "Unknown" \/ target_company = Some r \/ In r (map fst table).
Proof.
  intros table title content target r. subst r.
  assert (Hscan : forall r, r = extract_without_target table title content ->
                            r = "Unknown" \/ In r (map fst table)).
  { intros r ->. rewrite extract_without_target_scan.
    destruct (scan _ table) as [name |] eqn:E; simpl.
    - right. eapply scan_key, E.
    - now left. }
  unfold extract_company_from_content.
  destruct target as [target |].
  - destruct (String.eqb target EmptyString).
    + destruct (Hscan _ eq_refl); auto.
    + unfold _check_target_company_first.
      destruct (contains _ _); simpl.
      * destruct (String.eqb target "Unknown") eqn:E; simpl; [| auto].
        destruct (Hscan _ eq_refl); auto.
      * destruct (_matches_company_patterns _ _); simpl.
        -- destruct (String.eqb target "Unknown") eqn:E; simpl; [| auto].
           destruct (Hscan _ eq_refl); auto.
        -- destruct (Hscan _ eq_refl); auto.
  - destruct (Hscan _ eq_refl); auto.
Qed.

End CompanyExtractorClaims.

Section WordBoundaryClaim.
Import PyStr CompanyExtractor.
Local Open Scope string_scope.

(** C6, as stated, fails for a supplied target: with target ["Uber"] a
    text that only talks about Kubernetes is attributed to Uber, although
    no pattern of Uber occurs in it as a whole word. *)
Lemma target_matches_inside_a_word :
  let title := "Interview experience" in
  let content := "They asked about Kubernetes deployments" in
  extract title content (Some "Uber") = "Uber" /\
  forall p : string,
    In p (patterns_for "Uber") ->
    ~ occurs_as_whole_word p (lower (title ++ " " ++ content)).
Proof.
  split; [vm_compute; reflexivity |].
  intros p Hin Hocc. apply re_search_word_spec in Hocc.
  vm_compute in Hin.
  destruct Hin as [<- | [<- | []]]; vm_compute in Hocc; discriminate.
Qed.

Lemma scan_whole_word (text name : string) :
  scan text company_patterns = Some name ->
  exists p : string, In p (patterns_for name) /\ occurs_as_whole_word p text.
Proof.
  intros H.
  destruct (scan_Some _ _ _ H) as (before & after & ps & Heq & Hm & _).
  unfold patterns_for.
  rewrite (table_get_entry _ before after name ps _
             company_patterns_distinct Heq).
  apply matches_company_patterns_spec, Hm.
Qed.

Lemma extract_without_target_whole_word (title content : string) :
  let r := extract_without_target company_patterns title content in
  r = "Unknown" \/
  exists p : string,
    In p (patterns_for r) /\
    occurs_as_whole_word p (lower (title ++ " " ++ content)).
Proof.
  simpl. rewrite extract_without_target_scan.
  destruct (scan _ company_patterns) as [name |] eqn:E; simpl.
  - right. apply scan_whole_word, E.
  - now left.
Qed.

(** C6, amended.  In the table scan a company is matched only when one
    of its patterns occurs in the lower-cased "title content" text as a
    whole word.  A supplied target (non-empty, other than "Unknown") is
    returned when its lower-cased name occurs anywhere in that text as a
    plain substring, or when one of its patterns occurs as a whole word;
    otherwise the table scan decides.  So every answer other than
    "Unknown" comes with a whole-word occurrence of one of the answer's
    patterns, or is the target found as a substring. *)
Theorem word_boundaries_except_direct_target_match :
  forall (title content : string) (target_company : option string),
    let text := lower (title ++ " " ++ content) in
    let r := extract title content target_company in
    (r = "Unknown" \/
     (exists p : string, In p (patterns_for r) /\ occurs_as_whole_word p text) \/
     (target_company = Some r /\ occurs_as_substring (lower r) text)) /\
    (forall target : string,
        extract title content (Some target) =
        if String.eqb target EmptyString || String.eqb target "Unknown"
        then extract title content None
        else if contains (lower target) text
                || _matches_company_patterns text (patterns_for target)
             then target
             else extract title content None).
Proof.
  intros title content target text r. split.
  - subst r. unfold extract, extract_company_from_content.
    pose proof (extract_without_target_whole_word title content) as Hscan.
    simpl in Hscan. fold text in Hscan.
    assert (Hs : let r := extract_without_target company_patterns title content in
                 r = "Unknown" \/
                 (exists p, In p (patterns_for r) /\ occurs_as_whole_word p text) \/
                 target = Some r /\ occurs_as_substring (lower r) text)
      by (simpl; tauto).
    clear Hscan. simpl in Hs.
    destruct target as [t |]; [| exact Hs].
    destruct (String.eqb t EmptyString); [exact Hs |].
    unfold _check_target_company_first. fold text.
    destruct (contains (lower t) text) eqn:Ec; simpl.
    + destruct (String.eqb t "Unknown"); simpl; [exact Hs |].
      right. right. split; [reflexivity |]. apply contains_spec, Ec.
    + destruct (_matches_company_patterns text _) eqn:Em; simpl; [| exact Hs].
      destruct (String.eqb t "Unknown"); simpl; [exact Hs |].
      right. left. apply matches_company_patterns_spec, Em.
  - intros t.
    unfold extract, extract_company_from_content,
      _check_target_company_first, patterns_for.
    fold text.
    destruct (String.eqb t EmptyString); [reflexivity |]. cbn [orb].
    destruct (contains (lower t) text);
      destruct (_matches_company_patterns text
                  (table_get company_patterns t [lower t]));
      destruct (String.eqb t "Unknown") eqn:E;
      cbn [orb negb]; rewrite ?E, ?String.eqb_refl; reflexivity.
Qed.

End WordBoundaryClaim.


(* ===================================================================== *)
(** * The crawl engine's circuit breaker *)
(* ===================================================================== *)

Section SafeRequestFacts.
Import PyFloat BaseScraper.
Local Open Scope string_scope.
Local Open Scope nat_scope.

Variable cfg : Config.t.

Lemma rate_limit_spec (domain : string) (crawl_delay : nat)
    (s s' : scraper) (w w' : world) :
  rate_limit domain crawl_delay s w = (s', w') ->
  domain_failures s' = domain_failures s /\
  stats s' = stats s /\ seen_urls s' = seen_urls s /\
  answers w' = answers w /\
  exists evs : list event,
    trace w' = (trace w ++ evs)%list /\ only_short_sleeps evs.
Proof.
  unfold rate_limit, RateLimiter.wait_if_needed.
  destruct (RateLimiter._calculate_wait_time _ _ _ _) as [wait_time limiter].
  intros H. injection H as <- <-. simpl.
  do 3 (split; [reflexivity |]).
  destruct (Qltb 0 wait_time); simpl.
  - split; [reflexivity |].
    exists [Sleep (pymin (wait_time * next_jitter w) 10)].
    split; [reflexivity |]. constructor; [| constructor].
    apply pymin_upper_right.
  - split; [reflexivity |].
    exists []. split; [symmetry; apply app_nil_r | constructor].
Qed.

Lemma gets_only_app (url : string) (evs1 evs2 : list event) :
  gets_only url evs1 -> gets_only url evs2 -> gets_only url (evs1 ++ evs2).
Proof. unfold gets_only. intros H1 H2. apply Forall_app. split; assumption. Qed.

Lemma attempts_spec (url domain : string) :
  forall (remaining attempt : nat) (s : scraper) (w : world)
         (r : option response) (s' : scraper) (w' : world),
    attempts cfg url domain remaining attempt s w = (r, s', w') ->
    (forall h : string, h <> domain -> failures_of s' h = failures_of s h) /\
    exists evs : list event,
      trace w' = (trace w ++ evs)%list /\ gets_only url evs.
Proof.
  induction remaining as [| remaining IH]; intros attempt s w r s' w' H.
  - simpl in H. injection H as <- <- <-. split; [reflexivity |].
    exists []. split; [symmetry; apply app_nil_r | constructor].
  - cbn [attempts get] in H.
    assert (Hget : gets_only url [Get url])
      by (constructor; [reflexivity | constructor]).
    assert (Hsleep : forall d, gets_only url [Get url; Sleep d])
      by (intros d; constructor; [reflexivity |];
          constructor; [exact I | constructor]).
    destruct (hd RequestException (answers w)) as [status_code body |].
    + destruct (status_code =? 200).
      { injection H as <- <- <-. split.
        - intros h Hne. unfold failures_of. simpl.
          rewrite lookup_insert_ne by congruence. reflexivity.
        - exists [Get url]. split; [reflexivity | exact Hget]. }
      destruct (status_code =? 403).
      { match type of H with
        | (if ?b then _ else _) = _ => destruct b
        end.
        - injection H as <- <- <-. split.
          + intros h Hne. unfold failures_of. simpl.
            rewrite lookup_insert_ne by congruence. reflexivity.
          + exists [Get url]. split; [reflexivity | exact Hget].
        - apply IH in H. destruct H as (Hf & evs & Ht & He). split.
          + intros h Hne. rewrite (Hf h Hne). unfold failures_of. simpl.
            rewrite lookup_insert_ne by congruence. reflexivity.
          + eexists (_ :: _ :: evs). split.
            * rewrite Ht. simpl. rewrite <- !app_assoc. reflexivity.
            * apply (gets_only_app url [_; _] evs); [apply Hsleep | exact He]. }
      destruct (status_code =? 429).
      { apply IH in H. destruct H as (Hf & evs & Ht & He). split.
        - intros h Hne. rewrite (Hf h Hne). reflexivity.
        - eexists (_ :: _ :: evs). split.
          + rewrite Ht. simpl. rewrite <- !app_assoc. reflexivity.
          + apply (gets_only_app url [_; _] evs); [apply Hsleep | exact He]. }
      apply IH in H. destruct H as (Hf & evs & Ht & He). split.
      * intros h Hne. rewrite (Hf h Hne). reflexivity.
      * exists (Get url :: evs). split.
        -- rewrite Ht. simpl. rewrite <- app_assoc. reflexivity.
        -- constructor; [reflexivity | exact He].
    + apply IH in H. destruct H as (Hf & evs & Ht & He). split.
      * intros h Hne. rewrite (Hf h Hne).
        destruct (attempt =? _); reflexivity.
      * exists (Get url :: evs). split.
        -- rewrite Ht. simpl. rewrite <- app_assoc. reflexivity.
        -- constructor; [reflexivity | exact He].
Qed.

(** A request for a URL on a host whose circuit is open. *)
Lemma safe_request_open (url : string) (s s' : scraper) (w w' : world)
    (r : option response) :
  Config.MAX_CONSECUTIVE_FAILURES cfg <= failures_of s (netloc url) ->
  safe_request cfg url s w = (r, s', w') ->
  r = None /\
  answers w' = answers w /\
  domain_failures s' = domain_failures s /\
  requests_made (stats s') = requests_made (stats s) /\
  exists evs : list event,
    trace w' = (trace w ++ evs)%list /\ only_short_sleeps evs.
Proof.
  intros Hopen. unfold safe_request.
  assert (Hnil : exists evs : list event,
             trace w = (trace w ++ evs)%list /\ only_short_sleeps evs)
    by (exists []; split; [symmetry; apply app_nil_r | constructor]).
  destruct (bool_decide (url ∈ seen_urls s)).
  { intros H. injection H as <- <- <-. repeat (split; [reflexivity |]).
    exact Hnil. }
  destruct (match Config.RESPECT_ROBOTS_TXT cfg with
            | true => _ | false => _ end) as [crawl_delay |].
  2: { intros H. injection H as <- <- <-. repeat (split; [reflexivity |]).
       exact Hnil. }
  destruct (rate_limit (netloc url) crawl_delay s w) as [s1 w1] eqn:Er.
  apply rate_limit_spec in Er.
  destruct Er as (Hf & Hst & _ & Ha & Hev).
  assert (Hopen1 : Config.MAX_CONSECUTIVE_FAILURES cfg
                   <= failures_of s1 (netloc url))
    by (unfold failures_of; rewrite Hf; exact Hopen).
  apply Nat.leb_le in Hopen1. rewrite Hopen1.
  intros H. injection H as <- <- <-.
  split; [reflexivity |]. split; [exact Ha |]. split; [exact Hf |].
  split; [now rewrite Hst | exact Hev].
Qed.

(** Any request leaves the counters of the other hosts alone and only
    ever fetches its own URL. *)
Lemma safe_request_frame (url : string) (s s' : scraper) (w w' : world)
    (r : option response) :
  safe_request cfg url s w = (r, s', w') ->
  (forall h : string, h <> netloc url -> failures_of s' h = failures_of s h) /\
  exists evs : list event,
    trace w' = (trace w ++ evs)%list /\ gets_only url evs.
Proof.
  unfold safe_request.
  assert (Hnil : exists evs : list event,
             trace w = (trace w ++ evs)%list /\ gets_only url evs)
    by (exists []; split; [symmetry; apply app_nil_r | constructor]).
  destruct (bool_decide (url ∈ seen_urls s)).
  { intros H. injection H as <- <- <-. split; [reflexivity | exact Hnil]. }
  destruct (match Config.RESPECT_ROBOTS_TXT cfg with
            | true => _ | false => _ end) as [crawl_delay |].
  2: { intros H. injection H as <- <- <-. split; [reflexivity | exact Hnil]. }
  destruct (rate_limit (netloc url) crawl_delay s w) as [s1 w1] eqn:Er.
  apply rate_limit_spec in Er.
  destruct Er as (Hf & _ & _ & _ & evs1 & Ht1 & He1).
  assert (He1' : gets_only url evs1).
  { unfold gets_only. eapply Forall_impl; [exact He1 |].
    intros [d | u]; simpl; [trivial | contradiction]. }
  destruct (_ <=? failures_of s1 (netloc url)).
  { intros H. injection H as <- <- <-. split.
    - intros h _. unfold failures_of. now rewrite Hf.
    - exists evs1. split; assumption. }
  intros H. apply attempts_spec in H.
  destruct H as (Hf2 & evs2 & Ht2 & He2). split.
  - intros h Hne. rewrite (Hf2 h Hne). unfold failures_of. now rewrite Hf.
  - exists (evs1 ++ evs2)%list. split.
    + rewrite Ht2, Ht1, app_assoc. reflexivity.
    + apply gets_only_app; assumption.
Qed.

Lemma safe_requests_open (host : string) :
  forall (urls : list string) (s s' : scraper) (w w' : world)
         (rs : list (option response)),
    Config.MAX_CONSECUTIVE_FAILURES cfg <= failures_of s host ->
    safe_requests cfg urls s w = (rs, s', w') ->
    Config.MAX_CONSECUTIVE_FAILURES cfg <= failures_of s' host /\
    (forall (i : nat) (url : string),
        urls !! i = Some url -> netloc url = host -> rs !! i = Some None) /\
    exists evs : list event,
      trace w' = (trace w ++ evs)%list /\ no_get_for host evs.
Proof.
  induction urls as [| url rest IH]; intros s s' w w' rs Hopen H.
  - simpl in H. injection H as <- <- <-. split; [exact Hopen |].
    split; [intros i url Hi; destruct i; discriminate |].
    exists []. split; [symmetry; apply app_nil_r | constructor].
  - simpl in H.
    destruct (safe_request cfg url s w) as [[r s1] w1] eqn:E1.
    destruct (safe_requests cfg rest s1 w1) as [[rs' s2] w2] eqn:E2.
    injection H as <- <- <-.
    assert (Hstep : Config.MAX_CONSECUTIVE_FAILURES cfg <= failures_of s1 host
                    /\ (netloc url = host -> r = None)
                    /\ exists evs : list event,
                         trace w1 = (trace w ++ evs)%list
                         /\ no_get_for host evs).
    { destruct (string_dec (netloc url) host) as [Heq | Hne].
      - subst host.
        destruct (safe_request_open _ _ _ _ _ _ Hopen E1)
          as (Hr & _ & Hf & _ & evs & Ht & He).
        split; [unfold failures_of; rewrite Hf; exact Hopen |].
        split; [intros _; exact Hr |].
        exists evs. split; [exact Ht |].
        unfold no_get_for. eapply Forall_impl; [exact He |].
        intros [d | u]; simpl; [trivial | contradiction].
      - destruct (safe_request_frame _ _ _ _ _ _ E1) as (Hf & evs & Ht & He).
        split; [rewrite Hf by congruence; exact Hopen |].
        split; [intros Heq; contradiction |].
        exists evs. split; [exact Ht |].
        unfold no_get_for. eapply Forall_impl; [exact He |].
        intros [d | u]; simpl; [trivial | intros ->; exact Hne]. }
    destruct Hstep as (Hopen1 & Hr & evs1 & Ht1 & He1).
    destruct (IH _ _ _ _ _ Hopen1 E2) as (Hopen2 & Hrs & evs2 & Ht2 & He2).
    split; [exact Hopen2 |]. split.
    + intros [| i] u Hi Hu; simpl in *.
      * injection Hi as ->. now rewrite (Hr Hu).
      * eapply Hrs; eassumption.
    + exists (evs1 ++ evs2)%list. split.
      * rewrite Ht2, Ht1, app_assoc. reflexivity.
      * unfold no_get_for. apply Forall_app. split; assumption.
Qed.

End SafeRequestFacts.

Section CircuitBreakerClaim.
Import PyFloat BaseScraper.
Local Open Scope string_scope.
Local Open Scope nat_scope.

(** C7, as stated, fails: the rate limiter is consulted before the
    failure counter is looked at.  After three 403s from one host, the
    very next request for that host returns nothing and fetches nothing,
    but it first sleeps for one second in [wait_if_needed]. *)
Lemma open_circuit_still_waits :
  let '(s2, w2) := after_three_403 in
  let '(r3, s3, w3) := safe_request Config.defaults hostile_url s2 w2 in
  3 <= failures_of s2 (netloc hostile_url) /\
  r3 = None /\
  trace w3 = (trace w2 ++ [Sleep 1%Q])%list.
Proof. vm_compute. split; [apply le_n | split; reflexivity]. Qed.

(** C7, amended.  Once a host has at least [MAX_CONSECUTIVE_FAILURES]
    failures on its counter, every [safe_request] for a URL on that host
    returns null without calling [session.get]: no answer of the server
    is consumed, [requests_made] and the failure counters stay as they
    are, and the only effect is the rate limiter's own wait, a sleep of
    at most ten seconds, taken before the counter is checked.  The
    counter is not reset by anything that follows: in any run of
    requests, to whatever hosts, each request for this host returns null
    and no [session.get] for this host is made. *)
Theorem open_circuit_makes_no_request :
  forall (cfg : Config.t) (host : string) (s : scraper) (w : world),
    Config.MAX_CONSECUTIVE_FAILURES cfg <= failures_of s host ->
    (forall url : string,
        netloc url = host ->
        let '(r, s', w') := safe_request cfg url s w in
        r = None /\
        answers w' = answers w /\
        domain_failures s' = domain_failures s /\
        requests_made (stats s') = requests_made (stats s) /\
        exists evs : list event,
          trace w' = (trace w ++ evs)%list /\ only_short_sleeps evs) /\
    (forall urls : list string,
        let '(rs, s', w') := safe_requests cfg urls s w in
        Config.MAX_CONSECUTIVE_FAILURES cfg <= failures_of s' host /\
        (forall (i : nat) (url : string),
            urls !! i = Some url -> netloc url = host ->
            rs !! i = Some None) /\
        exists evs : list event,
          trace w' = (trace w ++ evs)%list /\ no_get_for host evs).
Proof.
  intros cfg host s w Hopen. split.
  - intros url <-.
    destruct (safe_request cfg url s w) as [[r s'] w'] eqn:E.
    eapply safe_request_open; eassumption.
  - intros urls.
    destruct (safe_requests cfg urls s w) as [[rs s'] w'] eqn:E.
    eapply safe_requests_open; eassumption.
Qed.

(** The amended C7 at the hostile host of the example. *)
Lemma open_circuit_makes_no_request_witness :
  let s := fst after_three_403 in
  let w := snd after_three_403 in
  Config.MAX_CONSECUTIVE_FAILURES Config.defaults
    <= failures_of s (netloc hostile_url) /\
  (let '(rs, s', w') :=
     safe_requests Config.defaults [hostile_url; hostile_url] s w in
   Config.MAX_CONSECUTIVE_FAILURES Config.defaults
     <= failures_of s' (netloc hostile_url) /\
   (forall (i : nat) (url : string),
       [hostile_url; hostile_url] !! i = Some url ->
       netloc url = netloc hostile_url ->
       rs !! i = Some None) /\
   exists evs : list event,
     trace w' = (trace w ++ evs)%list /\
     no_get_for (netloc hostile_url) evs).
Proof.
  assert (H : Config.MAX_CONSECUTIVE_FAILURES Config.defaults
              <= failures_of (fst after_three_403) (netloc hostile_url))
    by (vm_compute; apply le_n).
  split; [exact H |].
  exact (proj2 (open_circuit_makes_no_request Config.defaults
                  (netloc hostile_url) (fst after_three_403)
                  (snd after_three_403) H)
           [hostile_url; hostile_url]).
Defined.

End CircuitBreakerClaim.

(* ===================================================================== *)
(** * The decay weight *)
(* ===================================================================== *)

Section TimeUtilsFacts.
Import TimeUtils.
Local Open Scope R_scope.

Variable fromisoformat : string -> option datetime_object.

Lemma days_nonneg (now date : datetime) :
  (date <= now)%Z -> (0 <= days now date)%Z.
Proof.
  intros H. unfold days, microseconds_per_day.
  apply Z.div_pos; lia.
Qed.

Lemma days_negative (now date : datetime) :
  (now < date)%Z -> (days now date < 0)%Z.
Proof.
  intros H. unfold days, microseconds_per_day.
  apply Z.div_lt_upper_bound; lia.
Qed.

Lemma exp_le_1 (x : R) : x <= 0 -> exp x <= 1.
Proof.
  intros [Hlt | ->].
  - rewrite <- exp_0. left. apply exp_increasing, Hlt.
  - rewrite exp_0. right. reflexivity.
Qed.

Lemma exp_le (x y : R) : x <= y -> exp x <= exp y.
Proof.
  intros [Hlt | ->]; [left; apply exp_increasing, Hlt | right; reflexivity].
Qed.

Lemma float_overflow_above_3 : 3 < float_overflow.
Proof. unfold float_overflow. apply IZR_lt. reflexivity. Qed.

(** Below the range limit [math.exp] returns. *)
Lemma math_exp_returns (x : R) :
  exp x < float_overflow -> math_exp x = Returns (exp x).
Proof.
  intros H. unfold math_exp.
  destruct (Rle_dec float_overflow (exp x)) as [Hle | _]; [rlra | reflexivity].
Qed.

Lemma math_exp_below_1 (x : R) : x <= 1 -> math_exp x = Returns (exp x).
Proof.
  intros H. apply math_exp_returns.
  pose proof (exp_le x 1 H). pose proof exp_le_3.
  pose proof float_overflow_above_3. rlra.
Qed.

Lemma math_exp_cases (x : R) :
  math_exp x = Returns (exp x) \/
  (math_exp x = Raises OverflowError /\ float_overflow <= exp x).
Proof.
  unfold math_exp.
  destruct (Rle_dec float_overflow (exp x)) as [Hle | _];
    [right; split; [reflexivity | exact Hle] | left; reflexivity].
Qed.

(** The exponent, by the sign of the age in whole days. *)
Lemma exponent_of_past (now date : datetime) :
  (0 <= days now date)%Z ->
  - default_decay_lambda * age_months now date <= 0.
Proof.
  intros H. apply IZR_le in H.
  unfold age_months, default_decay_lambda, days_per_month.
  assert (Hm : 0 <= IZR (days now date) / 30.44)
    by (apply Rle_mult_inv_pos; [exact H | rlra]).
  rlra.
Qed.

Lemma exponent_of_future (now date : datetime) :
  (days now date < 0)%Z ->
  0 < - default_decay_lambda * age_months now date.
Proof.
  intros H. apply IZR_lt in H.
  unfold age_months, default_decay_lambda, days_per_month. rlra.
Qed.

(** What the calculator gives for an age in whole days, when it
    returns. *)
Lemma weight_formula (now date : datetime) :
  Rmax (exp (- default_decay_lambda * age_months now date)) 0.01 =
  Rmax (exp (- (0.08) * (IZR ((now - date) / 86400000000) / 30.44))) 0.01.
Proof. reflexivity. Qed.

Lemma weight_lower (x : R) : 0.01 <= Rmax (exp x) 0.01.
Proof. apply Rmax_r. Qed.

Lemma weight_upper (x : R) : x <= 0 -> Rmax (exp x) 0.01 <= 1.
Proof. intros H. apply Rmax_lub; [apply exp_le_1, H | rlra]. Qed.

(** A naive date: the value, or [OverflowError] for a date in the
    future. *)
Lemma weight_of_naive_cases (now date : datetime) :
  weight_of_datetime default_decay_lambda now (Naive date) =
    Returns (Rmax (exp (- default_decay_lambda * age_months now date)) 0.01)
  \/ (weight_of_datetime default_decay_lambda now (Naive date) =
        Raises OverflowError /\
      (days now date < 0)%Z).
Proof.
  unfold weight_of_datetime.
  destruct (math_exp_cases (- default_decay_lambda * age_months now date))
    as [-> | [-> Hbig]]; [left; reflexivity |].
  right. split; [reflexivity |].
  destruct (Z_lt_le_dec (days now date) 0) as [Hneg | Hpos]; [exact Hneg |].
  pose proof (exp_le_1 _ (exponent_of_past now date Hpos)).
  pose proof float_overflow_above_3. rlra.
Qed.

Lemma weight_of_naive_past (now date : datetime) :
  (0 <= days now date)%Z ->
  weight_of_datetime default_decay_lambda now (Naive date) =
    Returns (Rmax (exp (- default_decay_lambda * age_months now date)) 0.01).
Proof.
  intros H. destruct (weight_of_naive_cases now date) as [E | [_ Hneg]];
    [exact E | lia].
Qed.

Lemma weight_of_naive_returned (now date : datetime) (w : R) :
  weight_of_datetime default_decay_lambda now (Naive date) = Returns w ->
  w = Rmax (exp (- default_decay_lambda * age_months now date)) 0.01.
Proof.
  intros H. destruct (weight_of_naive_cases now date) as [E | [E _]];
    rewrite E in H; [injection H as <-; reflexivity | discriminate].
Qed.

Lemma weight_of_aware (now wall : datetime) (utcoffset : Z) :
  weight_of_datetime default_decay_lambda now (Aware wall utcoffset) =
    Raises TypeError.
Proof. reflexivity. Qed.

(** Within one and the same whole day of age the weight does not move. *)
Lemma weight_of_same_day (now now' date : datetime) :
  days now date = days now' date ->
  weight_of_datetime default_decay_lambda now (Naive date) =
  weight_of_datetime default_decay_lambda now' (Naive date).
Proof.
  intros H. unfold weight_of_datetime, age_months.
  rewrite H. reflexivity.
Qed.

Lemma calculate_weight_of_date (now : datetime) (d : datetime_object) :
  calculate_weight fromisoformat now (Date d) =
  weight_of_datetime default_decay_lambda now d.
Proof. reflexivity. Qed.

End TimeUtilsFacts.

(* ===================================================================== *)
(** * The collection loop and the store *)
(* ===================================================================== *)

Section CollectionFacts.
Import BaseScraper Collection.
Local Open Scope string_scope.

Variable md5 : string -> string.

Lemma is_duplicate_content_platform (text : string) (s : scraper) :
  platform_name (snd (is_duplicate_content md5 text s)) = platform_name s.
Proof.
  unfold is_duplicate_content. destruct (bool_decide _); reflexivity.
Qed.

Lemma add_metadata_returned (platform : string) (v : visit)
    (d r : experience_data) :
  add_metadata platform v d = TimeUtils.Returns r ->
  exists w : R,
    TimeUtils.weight_of_datetime TimeUtils.default_decay_lambda
      (at_weight v) (weighted_date v d) = TimeUtils.Returns w /\
    r = with_metadata platform v w d.
Proof.
  unfold add_metadata. intros H.
  destruct (TimeUtils.weight_of_datetime _ _ _) as [w | e];
    [| discriminate].
  injection H as <-. exists w. split; reflexivity.
Qed.

(** Every record the loop yields is what an adapter extracted at one of
    the visited URLs, with the metadata added. *)
Lemma scrape_loop_yields (max_experiences : nat) :
  forall (visits : list visit) (scraped_count : nat) (s : scraper)
         (r : experience_data),
    In r (yielded (scrape_loop md5 max_experiences visits scraped_count s)) ->
    exists (v : visit) (d : experience_data) (w : R),
      In v visits /\ extracted v = Some d /\
      TimeUtils.weight_of_datetime TimeUtils.default_decay_lambda
        (at_weight v) (weighted_date v d) = TimeUtils.Returns w /\
      r = with_metadata (platform_name s) v w d.
Proof.
  induction visits as [| v rest IH]; intros scraped_count s r Hin;
    simpl in Hin; [contradiction |].
  destruct (max_experiences <=? scraped_count)%nat; [contradiction |].
  destruct (extracted v) as [d |] eqn:Ev.
  - pose proof (is_duplicate_content_platform (content d)
                  (apply_requests (requests v) s)) as Hp.
    destruct (is_duplicate_content md5 (content d) _) as [duplicate s1].
    simpl in Hp. destruct duplicate.
    + destruct (IH _ _ _ Hin) as (v' & d' & w & Hv & Hd & Hw & ->).
      exists v', d', w. split; [now right |]. split; [exact Hd |].
      split; [exact Hw |]. simpl. now rewrite Hp.
    + destruct (add_metadata (platform_name s1) v d) as [d1 | e] eqn:Ea;
        [| contradiction].
      simpl in Hin. destruct Hin as [<- | Hin].
      * destruct (add_metadata_returned _ _ _ _ Ea) as (w & Hw & ->).
        exists v, d, w. split; [now left |]. split; [exact Ev |].
        split; [exact Hw |]. now rewrite Hp.
      * destruct (IH _ _ _ Hin) as (v' & d' & w & Hv & Hd & Hw & ->).
        exists v', d', w. split; [now right |]. split; [exact Hd |].
        split; [exact Hw |]. now rewrite Hp.
  - destruct (IH _ _ _ Hin) as (v' & d' & w & Hv & Hd & Hw & ->).
    exists v', d', w. split; [now right |]. split; [exact Hd |].
    split; [exact Hw | reflexivity].
Qed.

(** One visit at which a new content is extracted and weighed. *)
Lemma scrape_one_visit (max_experiences : nat) (discovery : request_effects)
    (v : visit) (d : experience_data) (w : R) (s : scraper) :
  extracted v = Some d ->
  md5 (content d) ∉ content_hashes s ->
  TimeUtils.weight_of_datetime TimeUtils.default_decay_lambda
    (at_weight v) (weighted_date v d) = TimeUtils.Returns w ->
  yielded (scrape_company_experiences md5 (S max_experiences) discovery
             [v] s)
  = [with_metadata (platform_name s) v w d].
Proof.
  intros Hd Hnew Hw. unfold scrape_company_experiences. cbn [scrape_loop].
  rewrite Hd. unfold is_duplicate_content.
  rewrite bool_decide_eq_false_2 by exact Hnew.
  unfold add_metadata. cbn [with_hashes platform_name apply_requests].
  rewrite Hw. reflexivity.
Qed.

End CollectionFacts.

Section StoreFacts.
Import Pipeline.
Local Open Scope string_scope.

Lemma find_experience_Some (url : string) (db : database)
    (e : InterviewExperience) :
  find_experience url db = Some e ->
  In e (experiences db) /\ source_url e = url.
Proof.
  unfold find_experience. intros H. apply find_some in H.
  destruct H as [Hin Heq]. split; [exact Hin |].
  apply String.eqb_eq, Heq.
Qed.

Lemma find_experience_None (url : string) (db : database) :
  find_experience url db = None -> ~ In url (stored_urls db).
Proof.
  unfold find_experience, stored_urls. intros H Hin.
  apply in_map_iff in Hin. destruct Hin as (e & Heq & Hin).
  pose proof (find_none _ _ H e Hin) as Hne. simpl in Hne.
  rewrite Heq, String.eqb_refl in Hne. discriminate.
Qed.

Lemma find_experience_In (url : string) (db : database) :
  In url (stored_urls db) ->
  exists e : InterviewExperience, find_experience url db = Some e.
Proof.
  intros Hin. destruct (find_experience url db) as [e |] eqn:E.
  - exists e. reflexivity.
  - exfalso. exact (find_experience_None _ _ E Hin).
Qed.

Lemma get_or_create_company_experiences (company_name : string)
    (db : database) :
  experiences (snd (get_or_create_company company_name db)) = experiences db.
Proof.
  unfold get_or_create_company. destruct (find_company _ _); reflexivity.
Qed.

(** What one call does to the table of experiences: nothing, or one new
    row at the end, for a URL that was not there. *)
Lemma store_experience_cases (now : TimeUtils.datetime)
    (d : Collection.experience_data) (db : database) :
  snd (_store_experience now d db) = db \/
  (find_experience (Collection.source_url d) db = None /\
   exists row : InterviewExperience,
     experiences (snd (_store_experience now d db)) =
       (experiences db ++ [row])%list /\
     fst (_store_experience now d db) = Some (id row) /\
     source_url row = Collection.source_url d /\
     Some (experience_date row) = Collection.experience_date d /\
     time_weight row = default 1%R (Collection.time_weight d) /\
     scraped_at row = now /\ processed_at row = None).
Proof.
  unfold _store_experience.
  destruct (find_experience _ db) as [existing |] eqn:E; [now left |].
  pose proof (get_or_create_company_experiences (Collection.company d) db)
    as Hexp.
  destruct (get_or_create_company _ db) as [company db1]. simpl in Hexp.
  destruct (Collection.source_platform d) as [platform |]; [| now left].
  destruct (Collection.experience_date d) as [date |]; [| now left].
  right. split; [reflexivity |]. eexists. simpl. rewrite Hexp.
  split; [reflexivity |]. repeat split; reflexivity.
Qed.

Lemma store_experience_existing (now : TimeUtils.datetime)
    (d : Collection.experience_data) (db : database)
    (existing : InterviewExperience) :
  find_experience (Collection.source_url d) db = Some existing ->
  _store_experience now d db = (Some (id existing), db).
Proof. intros H. unfold _store_experience. rewrite H. reflexivity. Qed.

Lemma store_experience_unique (now : TimeUtils.datetime)
    (d : Collection.experience_data) (db : database) :
  NoDup (stored_urls db) ->
  NoDup (stored_urls (snd (_store_experience now d db))).
Proof.
  intros Hnd.
  destruct (store_experience_cases now d db)
    as [-> | (Hnone & row & Hexp & _ & Hurl & _)]; [exact Hnd |].
  unfold stored_urls in *. rewrite Hexp, map_app. simpl.
  apply NoDup_app. split; [exact Hnd |]. split.
  - intros url Hin Hin'. apply list_elem_of_In in Hin, Hin'.
    destruct Hin' as [<- | []]. rewrite Hurl in Hin.
    exact (find_experience_None _ _ Hnone Hin).
  - apply NoDup_singleton.
Qed.

Lemma store_all_unique
    (records : list (TimeUtils.datetime * Collection.experience_data))
    (db : database) :
  NoDup (stored_urls db) -> NoDup (stored_urls (store_all records db)).
Proof.
  revert db. induction records as [| [now d] rest IH]; intros db Hnd; simpl;
    [exact Hnd |].
  apply IH, store_experience_unique, Hnd.
Qed.

Lemma find_app_new (url : string) (rows : list InterviewExperience)
    (row : InterviewExperience) :
  find (fun e => String.eqb (source_url e) url) rows = None ->
  source_url row = url ->
  find (fun e => String.eqb (source_url e) url) (rows ++ [row]) = Some row.
Proof.
  intros Hnone Hurl. induction rows as [| e es IH]; simpl in *.
  - rewrite Hurl, String.eqb_refl. reflexivity.
  - destruct (String.eqb (source_url e) url); [discriminate |].
    apply IH, Hnone.
Qed.

(** Storing the same record a second time. *)
Lemma store_experience_again (now now' : TimeUtils.datetime)
    (d : Collection.experience_data) (db : database) :
  let '(r, db1) := _store_experience now d db in
  _store_experience now' d db1 = (r, db1).
Proof.
  unfold _store_experience at 1.
  destruct (find_experience _ db) as [existing |] eqn:E.
  { unfold _store_experience. rewrite E. reflexivity. }
  pose proof (get_or_create_company_experiences (Collection.company d) db)
    as Hexp.
  destruct (get_or_create_company _ db) as [company db1]. simpl in Hexp.
  destruct (Collection.source_platform d) as [platform |] eqn:Ep.
  2: { unfold _store_experience. rewrite E, Ep.
       destruct (get_or_create_company _ db). reflexivity. }
  destruct (Collection.experience_date d) as [date |] eqn:Ed.
  2: { unfold _store_experience. rewrite E, Ep, Ed.
       destruct (get_or_create_company _ db). reflexivity. }
  unfold _store_experience at 1, find_experience at 1. simpl.
  rewrite Hexp.
  rewrite find_app_new; [reflexivity | exact E | reflexivity].
Qed.

End StoreFacts.

Section StoreClaim.
Import Pipeline.
Local Open Scope string_scope.

(** C4.  In every store built by [_store_experience] from the empty one,
    the source URLs of the experience rows are pairwise distinct, before
    and after one more call.  Storing a record whose source URL is already
    there returns the id of the existing row and leaves the whole store as
    it was: no second row, no field of the first one changed.  Storing any
    record a second time, at whatever later clock reading, gives the same
    answer as the first time and changes nothing. *)
Theorem store_is_idempotent_on_source_url :
  forall (history : list (TimeUtils.datetime * Collection.experience_data))
         (now now' : TimeUtils.datetime) (d : Collection.experience_data),
    let db := store_all history empty in
    NoDup (stored_urls db) /\
    NoDup (stored_urls (snd (_store_experience now d db))) /\
    (In (Collection.source_url d) (stored_urls db) ->
     exists existing : InterviewExperience,
       In existing (experiences db) /\
       source_url existing = Collection.source_url d /\
       _store_experience now d db = (Some (id existing), db)) /\
    (let '(r, db1) := _store_experience now d db in
     _store_experience now' d db1 = (r, db1)).
Proof.
  intros history now now' d db.
  assert (Hnd : NoDup (stored_urls db))
    by (apply store_all_unique; constructor).
  split; [exact Hnd |].
  split; [apply store_experience_unique, Hnd |].
  split.
  - intros Hin. destruct (find_experience_In _ _ Hin) as [existing Hfind].
    exists existing.
    destruct (find_experience_Some _ _ _ Hfind) as [He Hurl].
    split; [exact He |]. split; [exact Hurl |].
    apply store_experience_existing, Hfind.
  - apply store_experience_again.
Qed.

End StoreClaim.

Section TimeWeightClaim.
Import TimeUtils BaseScraper Collection.
Local Open Scope R_scope.

(** C2, amended.  For every naive experience date [d] that is not after
    the clock reading [t], the time-decay calculator returns
    [max(exp(-0.08 * months), 0.01)], where [months] is the number of
    whole days from [d] to [t] divided by 30.44, and this weight lies
    between 0.01 and 1.0; whenever it returns for a naive date, the
    result is this value and at least 0.01.  Every record yielded by
    [scrape_company_experiences] was weighed for a naive date (its
    experience date, or the clock reading that stands in for a missing
    one) and carries as [time_weight] the weight of that date at the
    clock reading [calculate_weight] takes during the scrape; it is at
    least 0.01, and at most 1.0 when the date is not after that reading,
    as it is when it is not after the record's own [scraped_at] stamp,
    taken just before.  [_store_experience] writes this value,
    unchanged, into the new row beside a [scraped_at] reading of its
    own; the stored weight is the weight at that reading whenever the
    age in whole days is the same at both readings. *)
Theorem time_weight_is_decay_weight_of_naive_date :
  forall (fromisoformat : string -> option datetime_object)
         (t d : datetime)
         (md5 : string -> string) (max_experiences : nat)
         (discovery : request_effects)
         (visits : list visit) (s : scraper) (r : experience_data),
    In r (yielded (scrape_company_experiences md5 max_experiences
                     discovery visits s)) ->
    ((d <= t)%Z ->
     exists w : R,
       calculate_weight fromisoformat t (Date (Naive d)) = Returns w /\
       w = Rmax (exp (- (0.08) * (IZR ((t - d) / 86400000000) / 30.44)))
                0.01 /\
       0.01 <= w <= 1) /\
    (forall w : R,
       calculate_weight fromisoformat t (Date (Naive d)) = Returns w ->
       w = Rmax (exp (- (0.08) * (IZR ((t - d) / 86400000000) / 30.44)))
                0.01 /\
       0.01 <= w) /\
    exists (v : visit) (date : datetime) (w : R),
      In v visits /\
      scraped_at r = Some (at_scraped v) /\
      weighted_date v r = Naive date /\
      date = default (at_default v) (experience_date r) /\
      time_weight r = Some w /\
      calculate_weight fromisoformat (at_weight v) (Date (Naive date))
        = Returns w /\
      w = Rmax (exp (- (0.08)
                     * (IZR ((at_weight v - date) / 86400000000) / 30.44)))
               0.01 /\
      0.01 <= w /\
      ((date <= at_weight v)%Z -> w <= 1) /\
      (clock_monotone v -> (date <= at_scraped v)%Z -> w <= 1) /\
      (forall (now : datetime) (db : Pipeline.database)
              (row : Pipeline.InterviewExperience),
          ~ In row (Pipeline.experiences db) ->
          In row (Pipeline.experiences
                    (snd (Pipeline._store_experience now r db))) ->
          Pipeline.time_weight row = w /\
          Pipeline.experience_date row = date /\
          Pipeline.scraped_at row = now /\
          (days now date = days (at_weight v) date ->
           calculate_weight fromisoformat now (Date (Naive date))
             = Returns (Pipeline.time_weight row))).
Proof.
  intros fromisoformat t d0 md5 max_experiences discovery visits s r Hin.
  split.
  { intros Hpast. eexists. rewrite calculate_weight_of_date.
    split; [apply weight_of_naive_past, days_nonneg, Hpast |].
    split; [apply weight_formula |].
    split; [apply weight_lower |].
    apply weight_upper, exponent_of_past, days_nonneg, Hpast. }
  split.
  { intros w Hw. rewrite calculate_weight_of_date in Hw.
    apply weight_of_naive_returned in Hw. subst w.
    split; [apply weight_formula | apply weight_lower]. }
  unfold scrape_company_experiences in Hin.
  destruct (scrape_loop_yields md5 max_experiences visits 0 _ r Hin)
    as (v & d & w & Hv & Hd & Hw & ->).
  assert (Hkind : exists date : datetime,
             weighted_date v d = Naive date /\
             date = default (at_default v) (experience_date d)).
  { unfold weighted_date in *.
    destruct (experience_date d) as [wall |];
      [| eexists; split; reflexivity].
    destruct (experience_tzinfo d) as [utcoffset |];
      [discriminate | eexists; split; reflexivity]. }
  destruct Hkind as (date & Hkind & Hdate).
  rewrite Hkind in Hw.
  pose proof (weight_of_naive_returned _ _ _ Hw) as Hvalue.
  exists v, date, w.
  split; [exact Hv |]. split; [reflexivity |]. split; [exact Hkind |].
  split; [exact Hdate |]. split; [reflexivity |]. split; [exact Hw |].
  split; [rewrite Hvalue; apply weight_formula |].
  split; [rewrite Hvalue; apply weight_lower |].
  assert (Hupper : (date <= at_weight v)%Z -> w <= 1).
  { intros Hpast. rewrite Hvalue.
    apply weight_upper, exponent_of_past, days_nonneg, Hpast. }
  split; [exact Hupper |].
  split; [intros [H1 H2] Hpast; apply Hupper; lia |].
  intros now db row Hold Hnew.
  destruct (store_experience_cases now
              (with_metadata (platform_name (apply_requests discovery s))
                 v w d) db)
    as [Hsame | (_ & row' & Hexp & _ & _ & Hrowdate & Hroww & Hat & _)].
  - rewrite Hsame in Hnew. contradiction.
  - rewrite Hexp in Hnew. apply in_app_or in Hnew.
    destruct Hnew as [Hnew | [<- | []]]; [contradiction |].
    simpl in Hrowdate, Hroww.
    assert (Hrow : Pipeline.experience_date row' = date)
      by (rewrite Hdate, <- Hrowdate; reflexivity).
    split; [exact Hroww |]. split; [exact Hrow |]. split; [exact Hat |].
    intros Hdays. rewrite calculate_weight_of_date, Hroww.
    rewrite (weight_of_same_day now (at_weight v) date Hdays). exact Hw.
Qed.

(** C2 at the sample visit: a post dated thirty days before the scrape. *)
Lemma time_weight_is_decay_weight_of_naive_date_witness :
  let visits := [sample_visit] in
  let s := BaseScraper.init "reddit" in
  let date := (sample_scrape_time - 30 * microseconds_per_day)%Z in
  let w :=
    Rmax (exp (- (0.08)
                 * (IZR ((at_weight sample_visit - date) / 86400000000)
                    / 30.44)))
         0.01 in
  let r := with_metadata "reddit" sample_visit w sample_data in
  In r (yielded (scrape_company_experiences (fun text => text) 5
                   no_requests visits s)) /\
  time_weight r = Some w /\ 0.01 <= w <= 1 /\
  forall (now : datetime) (db : Pipeline.database)
         (row : Pipeline.InterviewExperience),
    ~ In row (Pipeline.experiences db) ->
    In row (Pipeline.experiences
              (snd (Pipeline._store_experience now r db))) ->
    Pipeline.time_weight row = w /\ Pipeline.scraped_at row = now.
Proof.
  intros visits s date w r.
  assert (Hpast : (date <= at_weight sample_visit)%Z)
    by (unfold date, sample_visit, sample_scrape_time, microseconds_per_day;
        simpl; lia).
  assert (Hin : In r (yielded (scrape_company_experiences
                                 (fun text => text) 5 no_requests
                                 visits s))).
  { unfold visits.
    rewrite (scrape_one_visit (fun text => text) 4 no_requests
               sample_visit sample_data w s);
      [left; reflexivity | reflexivity | |].
    - intros Hold. apply elem_of_empty in Hold. exact Hold.
    - apply weight_of_naive_past, days_nonneg, Hpast. }
  destruct (time_weight_is_decay_weight_of_naive_date
              (fun _ => None) sample_scrape_time date (fun text => text) 5
              no_requests visits s r Hin)
    as (_ & _ & v & date' & w' & Hv & _ & Hkind & _ & Hw & _ & _ & Hlo
        & Hhi & _ & Hrow).
  destruct Hv as [<- | []].
  injection Hkind as <-. injection Hw as <-.
  split; [exact Hin |]. split; [reflexivity |].
  split; [split; [exact Hlo | exact (Hhi Hpast)] |].
  intros now db row Hold Hnew.
  destruct (Hrow now db row Hold Hnew) as (Hroww & _ & Hat & _).
  split; [exact Hroww | exact Hat].
Defined.

(** C2, as stated, fails.  An aware date, as the adapters get from a
    page that names a UTC offset, makes the calculator raise
    [TypeError] instead of returning a weight.  And for a naive date
    that lies one second after the clock reading of the weight, in a
    record stored a minute later, the row's date is not after the row's
    [scraped_at], yet the stored weight is above 1.0 and is not the
    weight at [scraped_at], which is 1. *)
Lemma time_weight_not_for_every_date :
  let t := sample_scrape_time in
  let date := (t + 1000000)%Z in
  let d :=
    {| title := "Amazon SDE interview";
       content := "Two coding rounds and one design round.";
       source_url := "https://www.geeksforgeeks.org/amazon-interview-1";
       company := "Amazon"; role := None;
       experience_date := Some date; experience_tzinfo := None;
       outcome := None; source_platform := None; scraped_at := None;
       time_weight := None |} in
  let v :=
    {| extracted := Some d; requests := no_requests;
       at_scraped := t; at_default := t; at_weight := t |} in
  let run :=
    scrape_company_experiences (fun text => text) 5 no_requests [v]
      (BaseScraper.init "geeksforgeeks") in
  calculate_weight (fun _ => None) t (Date (Aware (t - 1000000)%Z 0%Z))
    = Raises TypeError /\
  exists (r : experience_data) (row : Pipeline.InterviewExperience),
    yielded run = [r] /\
    Pipeline.experiences
      (snd (Pipeline._store_experience (t + 60000000)%Z r Pipeline.empty))
      = [row] /\
    (Pipeline.experience_date row <= Pipeline.scraped_at row)%Z /\
    1 < Pipeline.time_weight row /\
    calculate_weight (fun _ => None) (Pipeline.scraped_at row)
      (Date (Naive (Pipeline.experience_date row))) = Returns 1.
Proof.
  intros t date d v run.
  split; [reflexivity |].
  assert (Hdays : days t date = (-1)%Z) by reflexivity.
  assert (Hexponent : - default_decay_lambda * age_months t date
                      = 0.08 / 30.44).
  { unfold age_months, default_decay_lambda, days_per_month.
    rewrite Hdays. rlra. }
  pose (w := Rmax (exp (- default_decay_lambda * age_months t date)) 0.01).
  assert (Hw : weight_of_datetime default_decay_lambda t (Naive date)
               = Returns w).
  { unfold weight_of_datetime. rewrite math_exp_below_1; [reflexivity |].
    rewrite Hexponent. rlra. }
  assert (Hbig : 1 < w).
  { unfold w. rewrite Hexponent.
    apply Rlt_le_trans with (2 := Rmax_l _ _).
    apply Rlt_trans with (1 + 0.08 / 30.44); [rlra |].
    apply exp_ineq1. rlra. }
  exists (with_metadata "geeksforgeeks" v w d).
  eexists.
  split.
  { unfold run.
    apply (scrape_one_visit (fun text => text) 4 no_requests v d w
             (BaseScraper.init "geeksforgeeks")).
    - reflexivity.
    - intros Hold. apply elem_of_empty in Hold. exact Hold.
    - exact Hw. }
  split; [reflexivity |].
  split; [simpl; unfold date; lia |].
  split; [exact Hbig |].
  cbn [Pipeline.scraped_at Pipeline.experience_date with_metadata
       experience_date d default].
  rewrite calculate_weight_of_date.
  assert (Hday0 : days (t + 60000000)%Z date = 0%Z) by reflexivity.
  rewrite weight_of_naive_past by (rewrite Hday0; lia).
  unfold age_months. rewrite Hday0.
  unfold Rdiv. rewrite Rmult_0_l, Rmult_0_r, exp_0.
  rewrite Rmax_left by rlra. reflexivity.
Qed.

End TimeWeightClaim.

(* ===================================================================== *)
(** * Rounding *)
(* ===================================================================== *)

Section PyRoundFacts.
Import PyRound.
Local Open Scope Q_scope.

Lemma round_half_even_near (q : Q) :
  q - (1 # 2) <= inject_Z (round_half_even q) /\
  inject_Z (round_half_even q) <= q + (1 # 2).
Proof.
  unfold round_half_even.
  pose proof (Qfloor_le q) as Hlo.
  pose proof (Qlt_floor q) as Hhi.
  rewrite inject_Z_plus in Hhi. change (inject_Z 1) with 1 in Hhi.
  destruct (Qcompare (q - inject_Z (Qfloor q)) (1 # 2)) eqn:E.
  - apply Qeq_alt in E.
    destruct (Z.even (Qfloor q));
      [| rewrite inject_Z_plus; change (inject_Z 1) with 1]; split; qlra.
  - apply Qlt_alt in E. split; qlra.
  - apply Qgt_alt in E. rewrite inject_Z_plus. change (inject_Z 1) with 1.
    split; qlra.
Qed.

Lemma round_half_even_ge (q : Q) (k : Z) :
  inject_Z k <= q -> (k <= round_half_even q)%Z.
Proof.
  intros H. destruct (round_half_even_near q) as [Hlo _].
  destruct (Z_le_gt_dec k (round_half_even q)) as [Hle | Hgt]; [exact Hle |].
  exfalso.
  assert (Hk : (round_half_even q + 1 <= k)%Z) by lia.
  rewrite Zle_Qle, inject_Z_plus in Hk. change (inject_Z 1) with 1 in Hk.
  qlra.
Qed.

Lemma round_half_even_le (q : Q) (k : Z) :
  q <= inject_Z k -> (round_half_even q <= k)%Z.
Proof.
  intros H. destruct (round_half_even_near q) as [_ Hhi].
  destruct (Z_le_gt_dec (round_half_even q) k) as [Hle | Hgt]; [exact Hle |].
  exfalso.
  assert (Hk : (k + 1 <= round_half_even q)%Z) by lia.
  rewrite Zle_Qle, inject_Z_plus in Hk. change (inject_Z 1) with 1 in Hk.
  qlra.
Qed.

Lemma round2_near (q : Q) : Qabs (round2 q - q) <= 1 # 200.
Proof.
  unfold round2. destruct (round_half_even_near (q * 100)) as [Hlo Hhi].
  generalize dependent (inject_Z (round_half_even (q * 100))).
  intros z Hlo Hhi. apply Qabs_Qle_condition. split; qlra.
Qed.

Lemma round2_ge (q : Q) (k : Z) :
  inject_Z k / 100 <= q -> inject_Z k / 100 <= round2 q.
Proof.
  intros H. unfold round2.
  assert (Hk : (k <= round_half_even (q * 100))%Z)
    by (apply round_half_even_ge; qlra).
  rewrite Zle_Qle in Hk.
  generalize dependent (inject_Z (round_half_even (q * 100))).
  intros z Hz. qlra.
Qed.

Lemma round2_le (q : Q) (k : Z) :
  q <= inject_Z k / 100 -> round2 q <= inject_Z k / 100.
Proof.
  intros H. unfold round2.
  assert (Hk : (round_half_even (q * 100) <= k)%Z)
    by (apply round_half_even_le; qlra).
  rewrite Zle_Qle in Hk.
  generalize dependent (inject_Z (round_half_even (q * 100))).
  intros z Hz. qlra.
Qed.

Lemma round2_unit (q : Q) : 0 <= q -> q <= 1 -> 0 <= round2 q /\ round2 q <= 1.
Proof.
  intros H0 H1. split.
  - pose proof (round2_ge q 0) as H. simpl in H.
    assert (H' : inject_Z 0 / 100 <= q) by (unfold inject_Z; qlra).
    specialize (H H'). unfold inject_Z in H. qlra.
  - pose proof (round2_le q 100) as H.
    assert (H' : q <= inject_Z 100 / 100) by (unfold inject_Z; qlra).
    specialize (H H'). unfold inject_Z in H. qlra.
Qed.

End PyRoundFacts.

(* ===================================================================== *)
(** * The topic extractor *)
(* ===================================================================== *)

Section TopicExtractorFacts.
Import PyFloat PyRound TopicExtractor.
Local Open Scope nat_scope.

Lemma add_count_positive (key : topic_key) (n : nat) (topics : counts) :
  1 <= n -> counts_positive topics -> counts_positive (add_count key n topics).
Proof.
  intros Hn. unfold counts_positive.
  induction topics as [| [k m] rest IH]; intros Hall; simpl.
  - constructor; [exact Hn | constructor].
  - apply Forall_cons in Hall. destruct Hall as [Hm Hrest]. simpl in Hm.
    destruct (key_eqb k key).
    + constructor; [simpl; lia | exact Hrest].
    + constructor; [exact Hm | apply IH, Hrest].
Qed.

(** A loop that only ever adds positive counts keeps the dictionary
    positive. *)
Lemma fold_left_positive {A : Type} (step : counts -> A -> counts)
    (items : list A) (topics : counts) :
  (forall acc x, counts_positive acc -> counts_positive (step acc x)) ->
  counts_positive topics -> counts_positive (fold_left step items topics).
Proof.
  intros Hstep. revert topics.
  induction items as [| x rest IH]; intros topics H; simpl; [exact H |].
  apply IH, Hstep, H.
Qed.

Section WithTaxonomy.
Variable keyword_lookup : list (string * topic_key).
Variable findall_count : string -> string -> nat.
Variable captured_terms : string -> string -> list string.
Variable math_log : nat -> Q.

Lemma extract_by_keywords_positive (text : string) :
  counts_positive (_extract_by_keywords keyword_lookup text).
Proof.
  unfold _extract_by_keywords. apply fold_left_positive; [| constructor].
  intros acc [keyword key] Hacc.
  destruct (0 <? count_word_matches keyword text) eqn:E; [| exact Hacc].
  apply Nat.ltb_lt in E. apply add_count_positive; [lia | exact Hacc].
Qed.

Lemma extract_by_context_positive (text : string) :
  counts_positive (_extract_by_context keyword_lookup captured_terms text).
Proof.
  unfold _extract_by_context. apply fold_left_positive; [| constructor].
  intros acc pattern Hacc. apply fold_left_positive; [| exact Hacc].
  intros acc1 term Hacc1. apply fold_left_positive; [| exact Hacc1].
  intros acc2 [keyword key] Hacc2.
  destruct (_ || _); [| exact Hacc2].
  apply add_count_positive; [lia | exact Hacc2].
Qed.

Lemma extract_by_patterns_positive (text : string) :
  counts_positive (_extract_by_patterns findall_count text).
Proof.
  unfold _extract_by_patterns. apply fold_left_positive; [| constructor].
  intros acc [key patterns] Hacc. apply fold_left_positive; [| exact Hacc].
  intros acc1 pattern Hacc1.
  destruct (0 <? findall_count pattern text) eqn:E; [| exact Hacc1].
  apply Nat.ltb_lt in E. apply add_count_positive; [lia | exact Hacc1].
Qed.

Lemma merge_into_positive (merged extraction : counts) :
  counts_positive extraction -> counts_positive merged ->
  counts_positive (merge_into merged extraction).
Proof.
  unfold merge_into. revert merged.
  induction extraction as [| [key count] rest IH]; intros merged He Hm; simpl;
    [exact Hm |].
  apply Forall_cons in He. destruct He as [Hc Hrest]. simpl in Hc.
  apply IH; [exact Hrest |]. apply add_count_positive; assumption.
Qed.

Lemma merge_positive (extractions : list counts) :
  Forall counts_positive extractions ->
  counts_positive (_merge_topic_extractions extractions).
Proof.
  unfold _merge_topic_extractions.
  assert (H : forall merged, counts_positive merged ->
                Forall counts_positive extractions ->
                counts_positive (fold_left merge_into extractions merged)).
  { induction extractions as [| e rest IH]; intros merged Hm Hall; simpl;
      [exact Hm |].
    apply Forall_cons in Hall. destruct Hall as [He Hrest].
    apply IH; [| exact Hrest]. apply merge_into_positive; assumption. }
  intros Hall. apply H; [constructor | exact Hall].
Qed.

Lemma frequency_nonneg (count text_words : nat) :
  (0 <= frequency_of count text_words)%Q.
Proof.
  unfold frequency_of. destruct (0 <? text_words) eqn:E; [| qlra].
  apply Nat.ltb_lt in E.
  apply Qmult_le_0_compat; [| qlra].
  apply Qle_shift_div_l.
  - change 0%Q with (inject_Z 0). rewrite <- Zlt_Qlt. lia.
  - rewrite Qmult_0_l. change 0%Q with (inject_Z 0). rewrite <- Zle_Qle. lia.
Qed.

(** The body of [_calculate_topic_confidence], before rounding, lies in
    the unit interval. *)
Lemma confidence_unrounded_unit (count : nat) (frequency : Q) :
  (0 <= frequency)%Q ->
  let x := ((pymin (inject_Z (Z.of_nat count) / 5) 1
             + pymin (frequency / 2) 1) / 2)%Q in
  (0 <= x /\ x <= 1)%Q.
Proof.
  intros Hf x. subst x.
  assert (Hc : (0 <= inject_Z (Z.of_nat count))%Q)
    by (change 0%Q with (inject_Z 0); rewrite <- Zle_Qle; lia).
  pose proof (pymin_upper_right (inject_Z (Z.of_nat count) / 5) 1) as H1.
  pose proof (pymin_upper_right (frequency / 2) 1) as H2.
  assert (H3 : (0 <= pymin (inject_Z (Z.of_nat count) / 5) 1)%Q)
    by (apply pymin_lower; generalize dependent (inject_Z (Z.of_nat count));
        intros; qlra).
  assert (H4 : (0 <= pymin (frequency / 2) 1)%Q)
    by (apply pymin_lower; qlra).
  generalize dependent (pymin (inject_Z (Z.of_nat count) / 5) 1).
  generalize dependent (pymin (frequency / 2) 1).
  intros. split; qlra.
Qed.

End WithTaxonomy.

End TopicExtractorFacts.

Section TopicConfidenceClaim.
Import PyFloat PyRound TopicExtractor.
Local Open Scope Q_scope.

(** What C9 says of one scored topic of a text. *)
Lemma scored_topic_confidence (math_log : nat -> Q) (text : string)
    (decay : Q) (key : topic_key) (count : nat) :
  (1 <= count)%nat ->
  let data := score_topic math_log text decay key count in
  let f := topic_frequency text (raw_count data) in
  let exact :=
    (Qmin (inject_Z (Z.of_nat (raw_count data)) / 5) 1 + Qmin (f / 2) 1) / 2 in
  (1 <= raw_count data)%nat /\ 0 <= f /\
  confidence data = round2 ((pymin (inject_Z (Z.of_nat (raw_count data)) / 5) 1
                             + pymin (f / 2) 1) / 2) /\
  Qabs (confidence data - exact) <= 1 # 200 /\
  0 <= confidence data /\ confidence data <= 1.
Proof.
  intros Hc data f exact. subst data f exact. simpl.
  set (f := topic_frequency text count).
  assert (Hf : 0 <= f) by apply frequency_nonneg.
  split; [exact Hc |]. split; [exact Hf |]. split; [reflexivity |].
  unfold _calculate_topic_confidence.
  destruct (confidence_unrounded_unit count f Hf) as [H0 H1].
  split; [| apply round2_unit; assumption].
  set (x := (pymin (inject_Z (Z.of_nat count) / 5) 1 + pymin (f / 2) 1) / 2).
  assert (Hx : x == (Qmin (inject_Z (Z.of_nat count) / 5) 1
                     + Qmin (f / 2) 1) / 2).
  { unfold x. apply Qmult_comp; [| reflexivity].
    apply Qplus_comp; apply pymin_Qmin. }
  assert (E : round2 x - (Qmin (inject_Z (Z.of_nat count) / 5) 1
                          + Qmin (f / 2) 1) / 2
              == round2 x - x).
  { apply Qplus_comp; [reflexivity |]. apply Qopp_comp. symmetry. exact Hx. }
  rewrite (Qabs_wd _ _ E). apply round2_near.
Qed.

(** C9.  Every topic the extractor reports for a text has a raw count of
    at least one and a frequency percentage [f >= 0]; its confidence is
    [(min(raw_count/5, 1) + min(f/2, 1)) / 2] rounded to two decimals, so
    it differs from that value by at most 0.005 and lies in [0, 1].  The
    topic-mention rows written from the report carry the same raw count
    and confidence. *)
Theorem topic_confidence_is_bounded :
  forall (keyword_lookup : list (string * topic_key))
         (findall_count : string -> string -> nat)
         (captured_terms : string -> string -> list string)
         (math_log : nat -> Q)
         (title content : string) (decay : Q) (experience : nat),
    let text := _preprocess_text (title ++ " " ++ content) in
    let topics :=
      extract_topics_from_experience keyword_lookup findall_count
        captured_terms math_log title content decay in
    Forall
      (fun kd : topic_key * topic_data =>
         let data := snd kd in
         let f := topic_frequency text (raw_count data) in
         let exact :=
           (Qmin (inject_Z (Z.of_nat (raw_count data)) / 5) 1
            + Qmin (f / 2) 1) / 2 in
         (1 <= raw_count data)%nat /\ 0 <= f /\
         confidence data =
           round2 ((pymin (inject_Z (Z.of_nat (raw_count data)) / 5) 1
                    + pymin (f / 2) 1) / 2) /\
         Qabs (confidence data - exact) <= 1 # 200 /\
         0 <= confidence data /\ confidence data <= 1)
      topics /\
    Forall
      (fun m : TopicMention =>
         (1 <= frequency m)%nat /\
         0 <= mention_confidence m /\ mention_confidence m <= 1)
      (_store_topic_mentions experience topics).
Proof.
  intros keyword_lookup findall_count captured_terms math_log title content
    decay experience text topics.
  assert (Htopics :
    Forall
      (fun kd : topic_key * topic_data =>
         let data := snd kd in
         let f := topic_frequency text (raw_count data) in
         let exact :=
           (Qmin (inject_Z (Z.of_nat (raw_count data)) / 5) 1
            + Qmin (f / 2) 1) / 2 in
         (1 <= raw_count data)%nat /\ 0 <= f /\
         confidence data =
           round2 ((pymin (inject_Z (Z.of_nat (raw_count data)) / 5) 1
                    + pymin (f / 2) 1) / 2) /\
         Qabs (confidence data - exact) <= 1 # 200 /\
         0 <= confidence data /\ confidence data <= 1)
      topics).
  { subst topics. unfold extract_topics_from_experience. fold text.
    destruct (String.eqb content EmptyString); [constructor |].
    unfold _calculate_topic_scores.
    apply sorted_desc_Forall, List.Forall_map.
    assert (Hpos : counts_positive
                     (_merge_topic_extractions
                        [_extract_by_keywords keyword_lookup text;
                         _extract_by_context keyword_lookup captured_terms text;
                         _extract_by_patterns findall_count text])).
    { apply merge_positive. repeat constructor.
      - apply extract_by_keywords_positive.
      - apply extract_by_context_positive.
      - apply extract_by_patterns_positive. }
    unfold counts_positive in Hpos.
    eapply Forall_impl; [exact Hpos |].
    intros [key count] Hc. simpl in Hc.
    apply (scored_topic_confidence math_log text decay key count Hc). }
  split; [exact Htopics |].
  unfold _store_topic_mentions. apply List.Forall_map.
  eapply Forall_impl; [exact Htopics |].
  intros [key data] (Hc & _ & _ & _ & H0 & H1). simpl in *.
  repeat split; assumption.
Qed.

(** The report for the sample text is not empty: C9 speaks of its two
    topics. *)
Example sample_topics_reported :
  map (fun kd => (fst kd, raw_count (snd kd))) sample_topics =
  [(("algorithms", "dynamic_programming"), 2%nat);
   (("data_structures", "tree"), 1%nat)].
Proof. vm_compute. reflexivity. Qed.

End TopicConfidenceClaim.

(* ===================================================================== *)
(** * The insight aggregator *)
(* ===================================================================== *)

Section InsightsFacts.
Import PyFloat PyRound Insights.
Local Open Scope Q_scope.

(** The combined score of [_determine_priority_level]. *)
Lemma priority_cases (f i c : Q) :
  let score := f * (4 # 10) + i * (4 # 10) + c * 20 * (2 # 10) in
  (_determine_priority_level f i c = HIGH <-> 15 <= score /\ (7 # 10) <= c) /\
  (_determine_priority_level f i c = MEDIUM <->
     ~ (15 <= score /\ (7 # 10) <= c) /\ 8 <= score /\ (5 # 10) <= c) /\
  (_determine_priority_level f i c = LOW <->
     ~ (15 <= score /\ (7 # 10) <= c) /\ ~ (8 <= score /\ (5 # 10) <= c)).
Proof.
  intros score. unfold _determine_priority_level. fold score.
  assert (Hhigh : Qle_bool 15 score && Qle_bool (7 # 10) c = true <->
                  15 <= score /\ (7 # 10) <= c)
    by (rewrite andb_true_iff, !Qle_bool_iff; reflexivity).
  assert (Hmed : Qle_bool 8 score && Qle_bool (5 # 10) c = true <->
                 8 <= score /\ (5 # 10) <= c)
    by (rewrite andb_true_iff, !Qle_bool_iff; reflexivity).
  destruct (Qle_bool 15 score && Qle_bool (7 # 10) c).
  - assert (H : 15 <= score /\ (7 # 10) <= c) by (apply Hhigh; reflexivity).
    repeat split; try discriminate; try tauto.
  - assert (H : ~ (15 <= score /\ (7 # 10) <= c))
      by (intros H; apply Hhigh in H; discriminate).
    destruct (Qle_bool 8 score && Qle_bool (5 # 10) c).
    + assert (H' : 8 <= score /\ (5 # 10) <= c) by (apply Hmed; reflexivity).
      repeat split; try discriminate; try tauto.
    + assert (H' : ~ (8 <= score /\ (5 # 10) <= c))
        by (intros H'; apply Hmed in H'; discriminate).
      repeat split; try discriminate; try tauto.
Qed.





End InsightsFacts.

Section PriorityClaim.
Import PyFloat PyRound Insights.
Local Open Scope Q_scope.




(** The sample result has a HIGH entry: dynamic programming, reported
    with confidence 0.8. *)
Example sample_high_priority :
  match generate_comprehensive_insights sample_extractor "Amazon"
          sample_experiences with
  | Returned (Insights found) =>
      map (fun ki => (fst ki, priority_level (snd ki)))
        (detailed_topics (topic_insights_of found))
  | _ => []
  end =
  [(("algorithms", "dynamic_programming"), HIGH);
   (("data_structures", "tree"), MEDIUM)].
Proof. vm_compute. reflexivity. Qed.

End PriorityClaim.

Section SampleSizeFacts.
Import PyFloat PyRound Insights.
Local Open Scope Q_scope.

Lemma collect_analysis_weight (acc : Q * groups) (a : analysis) :
  fst (collect_analysis acc a) = fst acc + exp_weight a.
Proof. reflexivity. Qed.

Lemma collect_weight_ge (analyses : list analysis) :
  Forall (fun a => 0 < exp_weight a) analyses ->
  forall acc : Q * groups,
    fst acc <= fst (fold_left collect_analysis analyses acc) /\
    (analyses <> [] -> fst acc < fst (fold_left collect_analysis analyses acc)).
Proof.
  induction analyses as [| a rest IH]; intros Hall acc; simpl.
  - split; [qlra | intros H; contradiction].
  - apply Forall_cons in Hall. destruct Hall as [Ha Hrest].
    destruct (IH Hrest (collect_analysis acc a)) as [Hle _].
    rewrite collect_analysis_weight in Hle.
    generalize dependent (fst (fold_left collect_analysis rest
                                 (collect_analysis acc a))).
    intros total Hle. split; [qlra | intros _; qlra].
Qed.

Lemma forallb_firstn {A : Type} (p : A -> bool) (n : nat) (l : list A) :
  forallb p l = true -> forallb p (firstn n l) = true.
Proof.
  revert n. induction l as [| x rest IH]; intros n H; destruct n; simpl;
    try reflexivity.
  simpl in H. apply andb_true_iff in H. destruct H as [Hx Hrest].
  rewrite Hx. simpl. apply IH, Hrest.
Qed.

Lemma rollup_all_returns (analyses : list analysis) (total_weight : Q) :
  ~ total_weight == 0 ->
  Forall (fun a => 0 < exp_weight a) analyses ->
  forall g : groups,
    exists insights : list (topic_key * topic_insight),
      rollup_all analyses total_weight g = Returned insights.
Proof.
  intros Htotal Hall.
  assert (Hz : Qeq_bool total_weight 0 = false).
  { destruct (Qeq_bool total_weight 0) eqn:E; [| reflexivity].
    apply Qeq_bool_iff in E. contradiction. }
  assert (Hdiv : forall s, std_divisors_nonzero analyses s = true).
  { intros s. unfold std_divisors_nonzero. apply forallb_firstn.
    apply forallb_forall. intros a Ha.
    rewrite Forall_forall in Hall.
    specialize (Hall a (proj2 (list_elem_of_In _ _) Ha)).
    destruct (Qeq_bool (exp_weight a) 0) eqn:E; [| reflexivity].
    apply Qeq_bool_iff in E. rewrite E in Hall.
    exfalso. exact (Qlt_irrefl 0 Hall). }
  induction g as [| [key s] rest [insights IH]]; simpl.
  - exists []. reflexivity.
  - unfold rollup. rewrite Hz, Hdiv. simpl. rewrite IH.
    eexists. reflexivity.
Qed.

Lemma generate_topic_insights_returns (analyses : list analysis) :
  analyses <> [] ->
  Forall (fun a => 0 < exp_weight a) analyses ->
  exists ti : topic_insights, _generate_topic_insights analyses = Returned ti.
Proof.
  intros Hne Hall. unfold _generate_topic_insights.
  destruct (collect analyses) as [total_weight g] eqn:E.
  assert (Hpos : 0 < total_weight).
  { destruct (collect_weight_ge analyses Hall (0, [])) as [_ Hlt].
    specialize (Hlt Hne). unfold collect in E. rewrite E in Hlt.
    exact Hlt. }
  assert (Hnz : ~ total_weight == 0)
    by (intros Hz; rewrite Hz in Hpos; exact (Qlt_irrefl 0 Hpos)).
  destruct (rollup_all_returns analyses total_weight Hnz Hall g)
    as [insights ->].
  eexists. reflexivity.
Qed.

End SampleSizeFacts.

Section SampleSizeClaim.
Import PyFloat PyRound Insights.
Local Open Scope Q_scope.

(** C3.  With fewer than [min_sample_size] (3) experiences the aggregator
    returns the structured response whose status is "insufficient_data"
    and whose sample size is the number of experiences given.  With
    [min_sample_size] experiences or more it never returns that response;
    and when the experiences carry positive time weights, as every stored
    experience does, it returns a normal insight result for the company,
    over all of them: in particular for exactly [min_sample_size]. *)
Theorem insufficient_data_below_min_sample_size :
  forall (extract : experience -> list (topic_key * topic_data))
         (company_name : string) (experiences : list experience),
    ((length experiences < min_sample_size)%nat ->
     exists response : insufficient_data_response,
       generate_comprehensive_insights extract company_name experiences
         = Returned (InsufficientData response) /\
       response = _insufficient_data_response company_name (length experiences) /\
       status response = "insufficient_data"%string /\
       response_company response = company_name /\
       response_sample_size response = length experiences) /\
    ((min_sample_size <= length experiences)%nat ->
     forall response : insufficient_data_response,
       generate_comprehensive_insights extract company_name experiences
         <> Returned (InsufficientData response)) /\
    ((min_sample_size <= length experiences)%nat ->
     weights_positive experiences ->
     exists found : insights,
       generate_comprehensive_insights extract company_name experiences
         = Returned (Insights found) /\
       company found = company_name /\
       sample_size found = length experiences) /\
    ((length experiences = min_sample_size)%nat ->
     weights_positive experiences ->
     exists found : insights,
       generate_comprehensive_insights extract company_name experiences
         = Returned (Insights found) /\
       company found = company_name /\
       sample_size found = min_sample_size).
Proof.
  intros extract company_name experiences.
  assert (Hnormal :
    (min_sample_size <= length experiences)%nat ->
    weights_positive experiences ->
    exists found : insights,
      generate_comprehensive_insights extract company_name experiences
        = Returned (Insights found) /\
      company found = company_name /\
      sample_size found = length experiences).
  { intros Hlen Hpos. unfold generate_comprehensive_insights.
    apply Nat.ltb_ge in Hlen. rewrite Hlen. apply Nat.ltb_ge in Hlen.
    destruct (generate_topic_insights_returns (map (analyse extract) experiences))
      as [ti ->].
    - destruct experiences; [simpl in Hlen; unfold min_sample_size in Hlen; lia |].
      discriminate.
    - unfold weights_positive in Hpos. apply List.Forall_map.
      eapply Forall_impl; [exact Hpos |]. intros e He. exact He.
    - eexists. split; [reflexivity |]. split; reflexivity. }
  split; [| split; [| split]].
  - intros Hlen. apply Nat.ltb_lt in Hlen.
    unfold generate_comprehensive_insights. rewrite Hlen.
    eexists. split; [reflexivity |]. repeat split; reflexivity.
  - intros Hlen response. apply Nat.ltb_ge in Hlen.
    unfold generate_comprehensive_insights. rewrite Hlen.
    destruct (_generate_topic_insights _); discriminate.
  - exact Hnormal.
  - intros Hlen Hpos. rewrite <- Hlen. apply Hnormal; [lia | exact Hpos].
Qed.

(** Two of the sample experiences are too few; the three of them are
    enough. *)
Example sample_sizes_two_and_three :
  (exists response : insufficient_data_response,
      generate_comprehensive_insights sample_extractor "Amazon"
        (firstn 2 sample_experiences) = Returned (InsufficientData response)) /\
  (exists found : insights,
      generate_comprehensive_insights sample_extractor "Amazon"
        sample_experiences = Returned (Insights found)).
Proof. split; eexists; vm_compute; reflexivity. Qed.

End SampleSizeClaim.

(* ===================================================================== *)
(** * Worked examples *)
(* ===================================================================== *)

Section WorkedExamples.
Import PyFloat PyStr PyRound.
Local Open Scope string_scope.

(** Five successes in a row bring the multiplier of a host from 1.0 to
    0.9; fifteen bring it to the floor 0.8 (0.729 is not reached). *)
Example five_successes_lower_the_multiplier :
  let s5 := RateLimiter.record_all
              (repeat (RateLimiter.Success "h") 5) RateLimiter.init in
  let s15 := RateLimiter.record_all
               (repeat (RateLimiter.Success "h") 15) RateLimiter.init in
  (RateLimiter.multiplier_of s5 "h" == 9 # 10)%Q /\
  RateLimiter.streak_of s5 "h" = 0%nat /\
  (RateLimiter.multiplier_of s15 "h" == 8 # 10)%Q.
Proof. vm_compute. repeat split. Qed.

(** Two failures raise it to 1.44 and count two failures; ten raise it to
    the ceiling 3.0; other hosts keep the default. *)
Example failures_raise_the_multiplier :
  let s2 := RateLimiter.record_all
              (repeat (RateLimiter.Failure "h") 2) RateLimiter.init in
  let s10 := RateLimiter.record_all
               (repeat (RateLimiter.Failure "h") 10) RateLimiter.init in
  (RateLimiter.multiplier_of s2 "h" == 144 # 100)%Q /\
  RateLimiter.failures_of s2 "h" = 2%nat /\
  (RateLimiter.multiplier_of s10 "h" == 3)%Q /\
  (RateLimiter.multiplier_of s10 "other" == 1)%Q.
Proof. vm_compute. repeat split. Qed.

(** Word boundaries: ["ola"] is not a word of ["cola drinks"], though it
    is a substring of it. *)
Example ola_is_not_a_word_of_cola :
  re_search_word "ola" "cola drinks" = false /\
  contains "ola" "cola drinks" = true /\
  re_search_word "ola" "i joined ola cabs" = true /\
  re_search_word "ola cabs" "i joined ola cabs" = true /\
  re_search_word "myntra.com" "see myntra.com now" = true /\
  re_search_word "ms" "the teams were small" = false.
Proof. vm_compute. repeat split. Qed.

Example netloc_of_some_urls :
  BaseScraper.netloc "https://www.reddit.com/r/leetcode/search.json?q=x"
    = "www.reddit.com" /\
  BaseScraper.netloc "https://leetcode.com" = "leetcode.com" /\
  BaseScraper.netloc "leetcode.com/discuss" = EmptyString.
Proof. vm_compute. repeat split. Qed.

(** A 200 after a 429: the body comes back, the URL is remembered, and
    the limiter has seen one failure and then one success. *)
Example retry_after_429 :
  let w := {| BaseScraper.clock := 1000;
              BaseScraper.answers :=
                [BaseScraper.Response 429 EmptyString; BaseScraper.Response 200 "ok"];
              BaseScraper.jitters := [];
              BaseScraper.robots := fun _ => (true, 1%nat);
              BaseScraper.trace := [] |} in
  let '(r, s, w') :=
    BaseScraper.safe_request Config.defaults "https://leetcode.com/a"
      (BaseScraper.init "leetcode") w in
  r = Some (BaseScraper.Response 200 "ok") /\
  BaseScraper.trace w' =
    [BaseScraper.Get "https://leetcode.com/a"; BaseScraper.Sleep 1;
     BaseScraper.Get "https://leetcode.com/a"] /\
  RateLimiter.failures_of (BaseScraper.rate_limiter s) "leetcode.com" = 0%nat /\
  RateLimiter.streak_of (BaseScraper.rate_limiter s) "leetcode.com" = 1%nat /\
  bool_decide ("https://leetcode.com/a" ∈ BaseScraper.seen_urls s) = true.
Proof. vm_compute. repeat split. Qed.

(** Rounding goes to the nearest hundredth, ties to the even one. *)
Example round2_ties_to_even :
  (round2 (1 # 8) == 12 # 100)%Q /\
  (round2 (135 # 1000) == 14 # 100)%Q /\
  (round2 (2 # 3) == 67 # 100)%Q /\
  (round2 (7 # 10) == 7 # 10)%Q.
Proof. vm_compute. repeat split. Qed.

Example counting_words_and_matches :
  TopicExtractor.count_word_matches "dp" "dp dp xdp dp." = 3%nat /\
  TopicExtractor.count_word_matches "binary tree" "a binary tree, binary trees"
    = 1%nat /\
  TopicExtractor.word_count "  two  pointers and a heap " = 5%nat.
Proof. vm_compute. repeat split. Qed.

(** Five mentions at a frequency of 2% or more give full confidence; one
    mention in a long text gives little. *)
Example confidence_of_some_counts :
  (TopicExtractor._calculate_topic_confidence 5 2 == 1)%Q /\
  (TopicExtractor._calculate_topic_confidence 9 50 == 1)%Q /\
  (TopicExtractor._calculate_topic_confidence 1 (1 # 10) == 12 # 100)%Q.
Proof. vm_compute. repeat split. Qed.

(** The sample record stored twice: one row, the same id both times. *)
Example sample_record_stored_twice :
  let r := Collection.with_metadata "reddit" Collection.sample_visit
             (Rmax (exp (- (0.08) * (30 / 30.44))) 0.01)%R
             Collection.sample_data in
  let '(id1, db1) := Pipeline._store_experience 5 r Pipeline.empty in
  let '(id2, db2) := Pipeline._store_experience 9 r db1 in
  id1 = Some 1%nat /\ id2 = Some 1%nat /\ db2 = db1 /\
  length (Pipeline.experiences db2) = 1%nat /\
  map Pipeline.name (Pipeline.companies db2) = ["Amazon"].
Proof.
  cbv [Pipeline._store_experience Pipeline.find_experience Pipeline.empty
       Pipeline.experiences find Collection.with_metadata Collection.source_url
       Collection.sample_data Pipeline.source_url Pipeline.get_or_create_company
       Pipeline.find_company Pipeline.companies Collection.company
       Collection.source_platform Collection.experience_date
       app Pipeline.next_experience_id Pipeline.next_company_id].
  repeat split.
Qed.

End WorkedExamples.
(* ===================================================================== *)
(** * The rate limiter over a run of requests *)
(* ===================================================================== *)

Section LimiterRunsFacts.
Import PyFloat RateLimiter LimiterRuns.
Local Open Scope Q_scope.

Lemma prune_split (now : Q) (l : list Q) :
  exists dropped,
    l = dropped ++ prune now l /\
    Forall (fun r => 60 < now - r) dropped.
Proof.
  induction l as [| r rest IH]; simpl.
  - exists []. split; [reflexivity | constructor].
  - destruct (Qltb 60 (now - r)) eqn:E.
    + destruct IH as (dropped & Heq & Hall).
      exists (r :: dropped). split.
      * simpl. rewrite <- Heq. reflexivity.
      * constructor; [apply Qltb_true, E | exact Hall].
    + exists []. split; [reflexivity | constructor].
Qed.

Lemma prune_sorted_filter (now : Q) (l : list Q) :
  StronglySorted Qle l ->
  prune now l = List.filter (within_minute now) l.
Proof.
  induction 1 as [| r rest Hsorted IH Hall]; simpl; [reflexivity |].
  unfold within_minute at 1. unfold Qltb.
  destruct (Qle_bool (now - r) 60) eqn:E; simpl; [| exact IH].
  f_equal. symmetry. apply forallb_filter_id.
  apply forallb_forall. intros r' Hin.
  rewrite List.Forall_forall in Hall. specialize (Hall r' Hin).
  unfold within_minute. apply Qle_bool_iff. apply Qle_bool_iff in E. qlra.
Qed.

Lemma requests_of_wait_if_needed (d d' : string) (base now jitter : Q)
    (s : SmartRateLimiter) :
  requests_of (snd (wait_if_needed d base now jitter s)) d' =
  if decide (d = d') then prune now (requests_of s d) ++ [now]
  else requests_of s d'.
Proof.
  unfold wait_if_needed, _calculate_wait_time, _record_request, requests_of.
  pose proof (dd_get_fst [] d (domain_requests s)) as Hfst.
  pose proof (dd_get_snd_ne [] d d' (domain_requests s)) as Hsnd.
  destruct (dd_get [] d (domain_requests s)) as [requests0 reqs].
  destruct (dd_get 0%nat d (domain_failures s)) as [failure_count fails].
  destruct (dd_get default_multiplier d (adaptive_multiplier s))
    as [adaptive_mult mults].
  simpl in Hfst, Hsnd. subst requests0. simpl.
  unfold dd_get. simpl. rewrite lookup_insert_eq. simpl.
  destruct (decide (d = d')) as [-> | Hne].
  - rewrite lookup_insert_eq. reflexivity.
  - rewrite !lookup_insert_ne by exact Hne. rewrite Hsnd by exact Hne.
    reflexivity.
Qed.

Lemma run_snoc (calls : list call) (c : call) (s : SmartRateLimiter) :
  run (calls ++ [c]) s = step c (run calls s).
Proof. unfold run. rewrite fold_left_app. reflexivity. Qed.

Lemma times_to_snoc (d : string) (calls : list call) (c : call) :
  times_to d (calls ++ [c]) =
  if decide (call_domain c = d) then times_to d calls ++ [call_now c]
  else times_to d calls.
Proof.
  unfold times_to. rewrite List.filter_app, List.map_app. simpl.
  destruct (decide (call_domain c = d)) as [E | E].
  - rewrite bool_decide_eq_true_2 by exact E. reflexivity.
  - rewrite bool_decide_eq_false_2 by exact E. simpl.
    rewrite app_nil_r. reflexivity.
Qed.

Lemma times_to_upper (d : string) (calls : list call) (t : Q) :
  Forall (fun t' => t' <= t) (List.map call_now calls) ->
  Forall (fun t' => t' <= t) (times_to d calls).
Proof.
  unfold times_to. induction calls as [| c calls IH]; simpl; intros Hall;
    [constructor |].
  apply Forall_cons in Hall. destruct Hall as [Hc Hrest].
  destruct (bool_decide (call_domain c = d)); simpl;
    [constructor; [exact Hc | apply IH, Hrest] | apply IH, Hrest].
Qed.

Lemma sorted_snoc (l : list Q) (t : Q) :
  StronglySorted Qle (l ++ [t]) ->
  StronglySorted Qle l /\ Forall (fun t' => t' <= t) l.
Proof.
  induction l as [| x l IH]; simpl; intros Hs.
  - split; constructor.
  - apply StronglySorted_inv in Hs. destruct Hs as [Hs Hall].
    destruct (IH Hs) as [Hl Hle]. split.
    + constructor; [exact Hl |].
      apply Forall_app in Hall. apply Hall.
    + constructor; [| exact Hle].
      apply Forall_app in Hall. destruct Hall as [_ Ht].
      apply Forall_cons in Ht. apply Ht.
Qed.

Lemma snoc_sorted (l : list Q) (t : Q) :
  StronglySorted Qle l -> Forall (fun t' => t' <= t) l ->
  StronglySorted Qle (l ++ [t]).
Proof.
  induction 1 as [| x l Hs IH Hall]; simpl; intros Hle.
  - constructor; constructor.
  - apply Forall_cons in Hle. destruct Hle as [Hx Hle].
    constructor; [apply IH, Hle |].
    apply Forall_app. split; [exact Hall |].
    constructor; [exact Hx | constructor].
Qed.

Lemma times_to_sorted (d : string) (calls : list call) :
  StronglySorted Qle (List.map call_now calls) ->
  StronglySorted Qle (times_to d calls).
Proof.
  induction calls as [| c calls IH] using rev_ind; intros Hs;
    [constructor |].
  rewrite List.map_app in Hs. simpl in Hs.
  apply sorted_snoc in Hs. destruct Hs as [Hs Hle].
  rewrite times_to_snoc. destruct (decide (call_domain c = d));
    [| apply IH, Hs].
  apply snoc_sorted; [apply IH, Hs | apply times_to_upper, Hle].
Qed.

Lemma filter_sorted (f : Q -> bool) (l : list Q) :
  StronglySorted Qle l -> StronglySorted Qle (List.filter f l).
Proof.
  induction 1 as [| x l Hs IH Hall]; simpl; [constructor |].
  destruct (f x); [| exact IH].
  constructor; [exact IH |].
  rewrite List.Forall_forall in *. intros y Hy.
  apply List.filter_In in Hy. apply Hall, Hy.
Qed.

Lemma last_upper (l : list Q) (t t' : Q) :
  In t' l -> Forall (fun x => x <= t) l -> List.last l 0 <= t.
Proof.
  intros Hin Hall. destruct l as [| x l' _] using rev_ind; [destruct Hin |].
  rewrite List.last_last. apply Forall_app in Hall.
  destruct Hall as [_ Hx]. apply Forall_cons in Hx. apply Hx.
Qed.

Lemma filter_filter_minute (now : Q) (l : list Q) :
  Forall (fun x => x <= now) l ->
  List.filter (within_minute now) (List.filter (within_minute (List.last l 0)) l)
  = List.filter (within_minute now) l.
Proof.
  intros Hall.
  assert (Hlast : forall t', In t' l -> List.last l 0 <= now)
    by (intros t' Hin; apply (last_upper l now t' Hin Hall)).
  revert Hlast. generalize (List.last l 0). intros last Hlast.
  induction l as [| x l IH]; simpl; [reflexivity |].
  apply Forall_cons in Hall. destruct Hall as [Hx Hall].
  assert (IH' := IH Hall (fun t' Hin => Hlast t' (or_intror Hin))).
  destruct (within_minute last x) eqn:E1; simpl.
  - rewrite IH'. reflexivity.
  - destruct (within_minute now x) eqn:E2; [| exact IH'].
    exfalso. unfold within_minute in E1, E2.
    apply Qle_bool_iff in E2.
    apply not_true_iff_false in E1. apply E1. apply Qle_bool_iff.
    specialize (Hlast x (or_introl eq_refl)). qlra.
Qed.




End LimiterRunsFacts.

Section LimiterRunsProperties.
Import PyFloat RateLimiter LimiterRuns.
Local Open Scope Q_scope.

(** X1.  Sliding window.  When the clock never runs backwards, after any
    run of [wait_if_needed] calls on a fresh limiter the deque kept for
    a host holds exactly the times of the requests made to that host at
    most 60 seconds before the last request to it, in the order they
    were made. *)
Theorem deque_holds_the_last_minute :
  forall (calls : list call) (d : string),
    StronglySorted Qle (List.map call_now calls) ->
    requests_of (run calls init) d =
    List.filter (within_minute (last_time d calls)) (times_to d calls).
Proof.
  intros calls d. induction calls as [| c calls IH] using rev_ind;
    intros Hsorted.
  - unfold requests_of. simpl. rewrite lookup_empty. reflexivity.
  - rewrite List.map_app in Hsorted. simpl in Hsorted.
    apply sorted_snoc in Hsorted. destruct Hsorted as [Hsorted Hle].
    specialize (IH Hsorted).
    rewrite run_snoc. unfold step. rewrite requests_of_wait_if_needed.
    unfold last_time. rewrite times_to_snoc.
    destruct (decide (call_domain c = d)) as [E | E]; [| exact IH].
    subst d. rewrite IH. rewrite List.last_last.
    rewrite List.filter_app. simpl.
    assert (Hself : within_minute (call_now c) (call_now c) = true)
      by (unfold within_minute; apply Qle_bool_iff; qlra).
    rewrite Hself. f_equal.
    rewrite prune_sorted_filter
      by (apply filter_sorted, times_to_sorted, Hsorted).
    apply filter_filter_minute, times_to_upper, Hle.
Qed.

Lemma deque_holds_the_last_minute_witness :
  let calls := [mkCall "a.org" 1 0 1; mkCall "b.org" 1 5 1;
                mkCall "a.org" 1 30 1; mkCall "a.org" 1 70 1] in
  requests_of (run calls init) "a.org" = [30; 70].
Proof.
  intros calls. rewrite (deque_holds_the_last_minute calls "a.org").
  - reflexivity.
  - repeat constructor; apply Qle_bool_iff; reflexivity.
Defined.




End LimiterRunsProperties.
(* ===================================================================== *)
(** * The decay weight over age, and the weighted average *)
(* ===================================================================== *)

Section DecayFacts.
Import TimeUtils DecayCalculator.
Local Open Scope R_scope.

Variable fromisoformat : string -> option datetime_object.

Lemma days_monotone (now now' date date' : datetime) :
  (now <= now')%Z -> (date' <= date)%Z ->
  (days now date <= days now' date')%Z.
Proof.
  intros Hn Hd. unfold days, microseconds_per_day.
  apply Z.div_le_mono; lia.
Qed.

Lemma days_negative_future (now date : datetime) :
  (days now date < 0)%Z -> (now < date)%Z.
Proof.
  intros H. destruct (Z_lt_le_dec now date) as [Hlt | Hle]; [exact Hlt |].
  pose proof (days_nonneg now date Hle). lia.
Qed.

Lemma exponent_monotone (d d' : Z) :
  (d <= d')%Z ->
  - default_decay_lambda * (IZR d' / days_per_month)
  <= - default_decay_lambda * (IZR d / days_per_month).
Proof.
  intros H. apply IZR_le in H.
  unfold default_decay_lambda, days_per_month. rlra.
Qed.

(** [math.exp] on a smaller argument returns when it does on a larger
    one. *)
Lemma math_exp_monotone (x y v : R) :
  x <= y -> math_exp y = Returns v ->
  math_exp x = Returns (exp x) /\ exp x <= v.
Proof.
  intros Hxy Hy. pose proof (exp_le x y Hxy) as Hexp.
  unfold math_exp in *.
  destruct (Rle_dec float_overflow (exp y)) as [_ | Hsmall];
    [discriminate |].
  injection Hy as <-.
  destruct (Rle_dec float_overflow (exp x)) as [Hbig | _]; [rlra |].
  split; [reflexivity | exact Hexp].
Qed.

(** From [exp 1 > 2]: [exp] is out of the range of a double from 1024
    on. *)
Lemma exp_above_power (n : nat) : 2 ^ n <= exp (INR n).
Proof.
  induction n as [| n IH].
  - simpl. rewrite exp_0. rlra.
  - rewrite S_INR, exp_plus. cbn [pow]. rewrite Rmult_comm.
    assert (H2 : 2 <= exp 1).
    { left. replace 2 with (1 + 1) by rlra. apply exp_ineq1. rlra. }
    apply Rmult_le_compat; [apply pow_le; rlra | rlra | exact IH | exact H2].
Qed.

Lemma exp_overflows (x : R) : 1024 <= x -> float_overflow <= exp x.
Proof.
  intros H. apply Rle_trans with (exp 1024); [| apply exp_le, H].
  apply Rle_trans with (2 ^ 1024).
  - unfold float_overflow. rewrite pow_IZR. apply IZR_le.
    vm_compute. discriminate.
  - replace 1024 with (INR 1024) by (rewrite INR_IZR_INZ; reflexivity).
    apply exp_above_power.
Qed.

Lemma exp_square_lower (y c : R) :
  0 <= c -> c <= exp y -> c * c <= exp (2 * y).
Proof.
  intros Hc H. replace (2 * y) with (y + y) by rlra. rewrite exp_plus.
  apply Rmult_le_compat; assumption.
Qed.

(** From [c <= exp z] to [c' <= exp (2 * z)], for a [c'] below [c * c]. *)
Ltac exp_square c' :=
  match goal with
  | H : (?c <= exp ?z)%R |- _ =>
      let H' := fresh "H" in
      assert (H' : (c' <= exp (2 * z))%R)
        by (apply Rle_trans with (c * c)%R;
            [rlra | apply exp_square_lower; [rlra | exact H]]);
      clear H
  end.

(** [exp] at the two ages around the point where the weight reaches its
    floor, bounded through [(1 + x / 2^k) ^ (2^k) <= exp x]. *)
Lemma exp_at_1753_days : 100 <= exp (0.08 * (1753 / 30.44)).
Proof.
  pose (y := 0.08 * (1753 / 30.44) / 32768).
  assert (H : 1.00014059740986 <= exp y).
  { left. apply Rle_lt_trans with (1 + y); [unfold y; rlra |].
    apply exp_ineq1. unfold y. rlra. }
  exp_square 1.00028121458735. exp_square 1.00056250825634.
  exp_square 1.00112533292821. exp_square 1.00225193223061.
  exp_square 1.00450893565999. exp_square 1.00903820182076.
  exp_square 1.01815809273367. exp_square 1.03664590179906.
  exp_square 1.07463472571678. exp_square 1.15483979371637.
  exp_square 1.33365494915086. exp_square 1.77863552339458.
  exp_square 3.16354432508111. exp_square 10.00801269675289.
  exp_square 100.16031813836705.
  replace (0.08 * (1753 / 30.44)) with (2 * (2 * (2 * (2 * (2 * (2 * (2 * (2 * (2 * (2 * (2 * (2 * (2 * (2 * (2 * y))))))))))))))) by (unfold y; rlra).
  rlra.
Qed.

Lemma exp_at_1752_days : 0.01 < exp (- (0.08 * (1752 / 30.44))).
Proof.
  pose (y := - (0.08 * (1752 / 30.44)) / 65536).
  assert (H : 0.99992974139701 <= exp y).
  { left. apply Rle_lt_trans with (1 + y); [unfold y; rlra |].
    apply exp_ineq1. unfold y. rlra. }
  exp_square 0.99985948773029. exp_square 0.99971899520427.
  exp_square 0.99943806937223. exp_square 0.99887645451049.
  exp_square 0.99775417137544. exp_square 0.99551338649709.
  exp_square 0.99104690269490. exp_square 0.98217396334115.
  exp_square 0.96466569426526. exp_square 0.93057990169227.
  exp_square 0.86597895343359. exp_square 0.74991954778993.
  exp_square 0.56237932815745. exp_square 0.31627050873882.
  exp_square 0.10002703469791. exp_square 0.01000540767045.
  replace (- (0.08 * (1752 / 30.44))) with (2 * (2 * (2 * (2 * (2 * (2 * (2 * (2 * (2 * (2 * (2 * (2 * (2 * (2 * (2 * (2 * y)))))))))))))))) by (unfold y; rlra).
  rlra.
Qed.

Lemma rsum_acc (l : list R) (a : R) : fold_left Rplus l a = a + rsum l.
Proof.
  unfold rsum. revert a. induction l as [| x l IH]; intros a; simpl;
    [rlra |].
  rewrite IH, (IH (0 + x)). rlra.
Qed.

Lemma rsum_cons (x : R) (l : list R) : rsum (x :: l) = x + rsum l.
Proof. unfold rsum at 1. simpl. rewrite rsum_acc. rlra. Qed.

Lemma rsum_lower (weights : list R) :
  Forall (fun w => 0.01 <= w <= 1) weights ->
  0.01 * INR (length weights) <= rsum weights.
Proof.
  induction weights as [| w weights IH]; intros H.
  - unfold rsum. simpl. rlra.
  - apply Forall_cons in H. destruct H as [Hw Hws].
    change (length (w :: weights)) with (S (length weights)).
    rewrite rsum_cons, S_INR. specialize (IH Hws). rlra.
Qed.

(** Naive dates that are not after the clock readings all get a weight
    between 0.01 and 1. *)
Lemma batch_weights_from_past (clock : nat -> datetime)
    (dates : list date_argument) :
  Forall (naive_past clock) dates ->
  forall i : nat,
    exists weights : list R,
      batch_weights_from fromisoformat clock i dates = Returns weights /\
      length weights = length dates /\
      Forall (fun w => 0.01 <= w <= 1) weights.
Proof.
  induction dates as [| a rest IH]; intros Hpast i.
  - exists []. split; [reflexivity |]. split; [reflexivity | constructor].
  - apply Forall_cons in Hpast. destruct Hpast as [Ha Hrest].
    destruct a as [[date | wall utcoffset] | s]; try contradiction.
    simpl in Ha.
    destruct (IH Hrest (S i)) as (weights & Hbatch & Hlen & Hbounds).
    cbn [batch_weights_from].
    rewrite calculate_weight_of_date.
    rewrite weight_of_naive_past by (apply days_nonneg, Ha).
    rewrite Hbatch. eexists. split; [reflexivity |].
    split; [simpl; rewrite Hlen; reflexivity |].
    constructor; [| exact Hbounds].
    split; [apply weight_lower |].
    apply weight_upper, exponent_of_past, days_nonneg, Ha.
Qed.

End DecayFacts.

Section DecayProperties.
Import TimeUtils DecayCalculator.
Local Open Scope R_scope.

(** X4.  The decay weight never grows with age.  Take two naive dates
    weighed at clock readings [now <= now'], the second one dated no
    later than the first.  If the call for the first returns, so does
    the call for the second, with a smaller or equal weight; the call
    for the first can only fail with [OverflowError], and only for a
    date in the future. *)
Theorem weight_decreases_with_age :
  forall (fromisoformat : string -> option datetime_object)
         (now now' date date' : datetime),
    (now <= now')%Z -> (date' <= date)%Z ->
    match calculate_weight fromisoformat now (Date (Naive date)) with
    | Returns w =>
        exists w' : R,
          calculate_weight fromisoformat now' (Date (Naive date'))
            = Returns w' /\
          w' <= w
    | Raises e => e = OverflowError /\ (now < date)%Z
    end.
Proof.
  intros fromisoformat now now' date date' Hn Hd.
  rewrite !calculate_weight_of_date. unfold weight_of_datetime.
  pose proof (exponent_monotone _ _ (days_monotone now now' date date' Hn Hd))
    as Hexponent.
  fold (age_months now' date') in Hexponent.
  fold (age_months now date) in Hexponent.
  destruct (math_exp (- default_decay_lambda * age_months now date))
    as [v | e] eqn:E.
  - destruct (math_exp_monotone _ _ v Hexponent E) as [-> Hle].
    eexists. split; [reflexivity |].
    apply Rle_max_compat_r, Hle.
  - destruct (weight_of_naive_cases now date) as [Hret | [Hraise Hneg]];
      unfold weight_of_datetime in *; rewrite E in *; [discriminate |].
    injection Hraise as ->.
    split; [reflexivity | apply days_negative_future, Hneg].
Qed.

Lemma weight_decreases_with_age_witness :
  match calculate_weight (fun _ => None) 1900000000000000%Z
          (Date (Naive 1500000000000000%Z)) with
  | Returns w =>
      exists w' : R,
        calculate_weight (fun _ => None) 2000000000000000%Z
          (Date (Naive 1000000000000000%Z)) = Returns w' /\
        w' <= w
  | Raises e => e = OverflowError /\ (1900000000000000 < 1500000000000000)%Z
  end.
Proof.
  apply weight_decreases_with_age; lia.
Defined.

(** X5.  Where the weight of a naive date sits on its bounds, by the
    age in whole days.  An experience less than one whole day old
    weighs exactly 1.  The floor 0.01 is reached at an age of 1753
    days: from 0 to 1752 days the weight is above 0.01 (and at most 1),
    from 1753 days on it is exactly 0.01.  A date in the future either
    weighs more than 1 or makes [math.exp] raise [OverflowError], which
    it does for every date 400000 days or more ahead. *)
Theorem weight_reaches_floor_at_1753_days :
  forall (fromisoformat : string -> option datetime_object)
         (now date : datetime),
    let weight := calculate_weight fromisoformat now (Date (Naive date)) in
    (days now date = 0%Z -> weight = Returns 1) /\
    ((0 <= days now date <= 1752)%Z ->
     exists w : R, weight = Returns w /\ 0.01 < w <= 1) /\
    ((1753 <= days now date)%Z -> weight = Returns 0.01) /\
    ((days now date < 0)%Z ->
     weight = Raises OverflowError \/
     exists w : R, weight = Returns w /\ 1 < w) /\
    ((days now date <= -400000)%Z -> weight = Raises OverflowError).
Proof.
  intros fromisoformat now date weight. unfold weight.
  rewrite calculate_weight_of_date.
  split; [| split; [| split; [| split]]].
  - intros H0. rewrite weight_of_naive_past by lia.
    unfold age_months. rewrite H0.
    unfold Rdiv. rewrite Rmult_0_l, Rmult_0_r, exp_0.
    rewrite Rmax_left by rlra. reflexivity.
  - intros [Hlo Hhi]. rewrite weight_of_naive_past by exact Hlo.
    eexists. split; [reflexivity |]. split.
    + apply Rlt_le_trans with (2 := Rmax_l _ _).
      apply Rlt_le_trans with (1 := exp_at_1752_days).
      apply exp_le.
      replace (- (0.08 * (1752 / 30.44)))
        with (- default_decay_lambda * (IZR 1752 / days_per_month))
        by (unfold default_decay_lambda, days_per_month; rlra).
      apply exponent_monotone, Hhi.
    + apply weight_upper, exponent_of_past, Hlo.
  - intros H. rewrite weight_of_naive_past by lia. f_equal.
    apply Rmax_right.
    apply Rle_trans with (exp (- (0.08 * (1753 / 30.44)))).
    + apply exp_le.
      replace (- (0.08 * (1753 / 30.44)))
        with (- default_decay_lambda * (IZR 1753 / days_per_month))
        by (unfold default_decay_lambda, days_per_month; rlra).
      apply exponent_monotone, H.
    + rewrite exp_Ropp.
      pose proof exp_at_1753_days as Hexp.
      replace 0.01 with (/ 100) by rlra.
      apply Rinv_le_contravar; [rlra | exact Hexp].
  - intros Hneg.
    destruct (weight_of_naive_cases now date) as [-> | [-> _]];
      [right | left; reflexivity].
    eexists. split; [reflexivity |].
    apply Rlt_le_trans with (2 := Rmax_l _ _).
    rewrite <- exp_0. apply exp_increasing, exponent_of_future, Hneg.
  - intros Hfar. unfold weight_of_datetime.
    destruct (math_exp_cases (- default_decay_lambda * age_months now date))
      as [Hret | [-> _]]; [| reflexivity].
    exfalso.
    assert (Hbig : float_overflow
                   <= exp (- default_decay_lambda * age_months now date)).
    { apply exp_overflows. apply IZR_le in Hfar.
      unfold age_months, default_decay_lambda, days_per_month. rlra. }
    unfold math_exp in Hret.
    destruct (Rle_dec float_overflow
                (exp (- default_decay_lambda * age_months now date)))
      as [_ | Hsmall]; [discriminate | contradiction].
Qed.

(** X6.  The failures and the fallback of [calculate_weighted_average].
    Lists of different lengths raise [ValueError].  On lists of equal
    length whose dates are naive and not after the clock readings, the
    batch of weights is returned, one weight between 0.01 and 1 for
    each date; for empty lists the result is the fallback 0, and
    otherwise the total weight is positive, so the result is the
    quotient of the weighted sum by the total weight and never the
    fallback.  An aware date at the head of the list makes the call
    raise [TypeError]. *)
Theorem weighted_average_fails_or_divides :
  forall (fromisoformat : string -> option datetime_object)
         (clock : nat -> datetime) (values : list R)
         (dates : list date_argument),
    (length values <> length dates ->
     calculate_weighted_average fromisoformat clock values dates
       = Raises ValueError) /\
    (length values = length dates ->
     Forall (naive_past clock) dates ->
     exists weights : list R,
       calculate_batch_weights fromisoformat clock dates = Returns weights /\
       length weights = length dates /\
       Forall (fun w => 0.01 <= w <= 1) weights /\
       (dates = [] ->
        calculate_weighted_average fromisoformat clock values dates
          = Returns 0) /\
       (dates <> [] ->
        0 < rsum weights /\
        calculate_weighted_average fromisoformat clock values dates
          = Returns (weighted_sum values weights / rsum weights))) /\
    (forall (wall : datetime) (utcoffset : Z) (rest : list date_argument),
       length values = S (length rest) ->
       calculate_weighted_average fromisoformat clock values
         (Date (Aware wall utcoffset) :: rest) = Raises TypeError).
Proof.
  intros fromisoformat clock values dates.
  split; [| split].
  - intros Hlen. unfold calculate_weighted_average.
    apply Nat.eqb_neq in Hlen. rewrite Hlen. reflexivity.
  - intros Hlen Hpast.
    destruct (batch_weights_from_past fromisoformat clock dates Hpast 0%nat)
      as (weights & Hbatch & Hwlen & Hbounds).
    exists weights. fold (calculate_batch_weights fromisoformat clock dates)
      in Hbatch.
    split; [exact Hbatch |]. split; [exact Hwlen |].
    split; [exact Hbounds |].
    unfold calculate_weighted_average.
    rewrite Hlen, Nat.eqb_refl, Hbatch. cbn [negb].
    split.
    + intros ->. destruct weights; [| discriminate].
      unfold rsum. simpl.
      destruct (Rlt_dec 0 0) as [H | _]; [rlra | reflexivity].
    + intros Hne.
      assert (Hpos : 0 < rsum weights).
      { apply Rlt_le_trans with (2 := rsum_lower weights Hbounds).
        rewrite Hwlen. destruct dates as [| a rest]; [contradiction |].
        change (length (a :: rest)) with (S (length rest)).
        rewrite S_INR. pose proof (pos_INR (length rest)). rlra. }
      split; [exact Hpos |].
      destruct (Rlt_dec 0 (rsum weights)) as [_ | Hn];
        [reflexivity | contradiction].
  - intros wall utcoffset rest Hlen. unfold calculate_weighted_average.
    cbn [length]. rewrite Hlen, Nat.eqb_refl. reflexivity.
Qed.

End DecayProperties.
(* ===================================================================== *)
(** * The robots.txt checker *)
(* ===================================================================== *)

Section RobotsProperties.
Import PyFloat BaseScraper RobotsChecker.
Local Open Scope Q_scope.

(** X7.  [can_fetch] never answers with a crawl delay below 2 seconds,
    and it refuses a URL only on the word of a robots.txt it holds for
    the URL's host: without one (never found, or not loadable) the
    answer is "allowed, 5 seconds". *)
Theorem can_fetch_answers :
  forall (load : loader) (now stamp : Q) (url user_agent : string)
         (c : RobotsTxtChecker),
    let '(answer, c', _) := can_fetch load now stamp url user_agent c in
    (2 <= snd answer)%nat /\
    match cache c' !! netloc url with
    | Some (Some rp) =>
        fst answer = rp_can_fetch rp user_agent url /\
        snd answer = Nat.max (default 0%nat (rp_crawl_delay rp user_agent)) 2
    | _ => answer = (true, 5%nat)
    end.
Proof.
  intros load now stamp url user_agent c. unfold can_fetch.
  assert (Hrp : forall rp c0 (loads : list string),
             cache c0 !! netloc url = Some rp ->
             let '(answer, c', _) :=
               match rp with
               | None => ((true, 5%nat), c0, loads)
               | Some rp =>
                   ((rp_can_fetch rp user_agent url,
                     Nat.max match rp_crawl_delay rp user_agent with
                             | Some (S n) => S n
                             | _ => 2%nat
                             end 2), c0, loads)
               end in
             (2 <= snd answer)%nat /\
             match cache c' !! netloc url with
             | Some (Some rp) =>
                 fst answer = rp_can_fetch rp user_agent url /\
                 snd answer =
                   Nat.max (default 0%nat (rp_crawl_delay rp user_agent)) 2
             | _ => answer = (true, 5%nat)
             end).
  { intros [rp |] c0 loads Hc; rewrite Hc; simpl.
    - split; [lia |]. split; [reflexivity |].
      destruct (rp_crawl_delay rp user_agent) as [[| n] |]; simpl; lia.
    - split; [lia | reflexivity]. }
  destruct (cache c !! netloc url) as [cached |] eqn:E.
  - destruct (Qltb _ cache_duration).
    + apply Hrp, E.
    + simpl. rewrite lookup_insert_eq. simpl.
      apply (Hrp (load (netloc url) stamp)). simpl.
      apply lookup_insert_eq.
  - simpl. rewrite lookup_insert_eq. simpl.
    apply (Hrp (load (netloc url) stamp)). simpl.
    apply lookup_insert_eq.
Qed.

(** X8.  The robots.txt cache.  After a call of [can_fetch] that loaded
    the robots.txt of a host and stamped it at time [stamp], every call
    for a URL of that host made less than 3600 seconds after [stamp]
    loads nothing and leaves the checker as it is, also when the load
    had failed; a call made 3600 seconds after [stamp] or later loads
    the file again. *)
Theorem robots_txt_is_cached_for_an_hour :
  forall (load load' : loader) (now stamp now' stamp' : Q)
         (url url' user_agent user_agent' : string) (c : RobotsTxtChecker),
    netloc url' = netloc url ->
    cache c !! netloc url = None ->
    let '(_, c1, loads1) := can_fetch load now stamp url user_agent c in
    let '(_, c2, loads2) :=
      can_fetch load' now' stamp' url' user_agent' c1 in
    loads1 = [netloc url] /\
    (now' - stamp < 3600 -> loads2 = [] /\ c2 = c1) /\
    (3600 <= now' - stamp -> loads2 = [netloc url]).
Proof.
  intros load load' now stamp now' stamp' url url' user_agent user_agent' c
    Hhost Hmiss.
  unfold can_fetch. rewrite Hhost, Hmiss. simpl.
  rewrite lookup_insert_eq. simpl.
  set (c1 := _load_robots_txt load stamp (netloc url) c).
  assert (Hc1 : cache c1 !! netloc url = Some (load (netloc url) stamp))
    by apply lookup_insert_eq.
  assert (Ht1 : cache_ttl c1 !! netloc url = Some stamp)
    by apply lookup_insert_eq.
  destruct (load (netloc url) stamp) as [rp |]; rewrite Hc1, Ht1; simpl;
    (destruct (Qltb (now' - stamp) cache_duration) eqn:E;
     [apply Qltb_true in E | apply Qltb_false in E];
     unfold cache_duration in E; simpl;
     rewrite ?lookup_insert_eq; simpl;
     repeat match goal with
            | |- context [match ?x with Some _ => _ | None => _ end] =>
                destruct x
            end;
     (split; [reflexivity |]); split; intros H;
     try (exfalso; qlra); try reflexivity; split; reflexivity).
Qed.

Lemma robots_txt_is_cached_for_an_hour_witness :
  let load : loader := fun _ _ => None in
  let '(_, c1, loads1) :=
    can_fetch load 0 1 "https://a.org/x" "bot" init in
  let '(_, c2, loads2) := can_fetch load 100 101 "https://a.org/y" "bot" c1 in
  loads1 = [netloc "https://a.org/x"] /\
  (100 - 1 < 3600 -> loads2 = [] /\ c2 = c1) /\
  (3600 <= 100 - 1 -> loads2 = [netloc "https://a.org/x"]).
Proof.
  intros load.
  apply (robots_txt_is_cached_for_an_hour load load 0 1 100 101
           "https://a.org/x" "https://a.org/y" "bot" "bot" init).
  - reflexivity.
  - reflexivity.
Defined.

End RobotsProperties.
(* ===================================================================== *)
(** * Adding a company to the table of patterns *)
(* ===================================================================== *)

Section ExtractorTableFacts.
Import PyStr CompanyExtractor ExtractorTable.
Local Open Scope string_scope.

Lemma table_get_dict_set (table : list (string * list string))
    (key key' : string) (value dflt : list string) :
  table_get (dict_set table key value) key' dflt =
  if String.eqb key key' then value else table_get table key' dflt.
Proof.
  induction table as [| [name patterns] rest IH]; simpl.
  - destruct (String.eqb key key'); reflexivity.
  - destruct (String.eqb_spec name key) as [-> | Hne]; simpl.
    + destruct (String.eqb key key'); reflexivity.
    + rewrite IH. destruct (String.eqb_spec key key') as [<- | Hne'];
        [| reflexivity].
      apply String.eqb_neq in Hne. rewrite Hne. reflexivity.
Qed.

Lemma dict_set_new (table : list (string * list string)) (key : string)
    (value : list string) :
  has_key table key = false ->
  dict_set table key value = (table ++ [(key, value)])%list.
Proof.
  unfold has_key, get_all_companies.
  induction table as [| [name patterns] rest IH]; simpl; [reflexivity |].
  destruct (String.eqb name key); simpl; [discriminate |].
  intros H. rewrite IH by exact H. reflexivity.
Qed.

Lemma dict_set_keys (table : list (string * list string)) (key : string)
    (value : list string) :
  get_all_companies (dict_set table key value) =
  if has_key table key then get_all_companies table
  else (get_all_companies table ++ [key])%list.
Proof.
  unfold has_key, get_all_companies.
  induction table as [| [name patterns] rest IH]; simpl; [reflexivity |].
  destruct (String.eqb name key); simpl; [reflexivity |].
  rewrite IH. destruct (existsb _ _); reflexivity.
Qed.

Lemma scan_app (text : string) (l1 l2 : list (string * list string)) :
  scan text (l1 ++ l2) =
  match scan text l1 with
  | Some name => Some name
  | None => scan text l2
  end.
Proof.
  induction l1 as [| [name patterns] rest IH]; simpl; [reflexivity |].
  destruct (_matches_company_patterns text patterns); [reflexivity | exact IH].
Qed.

End ExtractorTableFacts.

Section ExtractorTableProperties.
Import PyStr CompanyExtractor ExtractorTable.
Local Open Scope string_scope.

(** X9.  [add_company_patterns] followed by [get_patterns_for_company]
    gives the patterns back and leaves the patterns of every other
    company alone; [get_all_companies] keeps its order, with a new
    company at the end and no company listed twice. *)
Theorem added_patterns_are_read_back :
  forall (table : list (string * list string)) (company other : string)
         (patterns : list string),
    let table' := add_company_patterns company patterns table in
    get_patterns_for_company table' company = patterns /\
    (other <> company ->
       get_patterns_for_company table' other =
       get_patterns_for_company table other) /\
    get_all_companies table' =
      (if has_key table company then get_all_companies table
       else (get_all_companies table ++ [company])%list) /\
    (NoDup (get_all_companies table) -> NoDup (get_all_companies table')).
Proof.
  intros table company other patterns table'.
  unfold table', add_company_patterns, get_patterns_for_company.
  split; [| split; [| split]].
  - rewrite table_get_dict_set, String.eqb_refl. reflexivity.
  - intros Hne. rewrite table_get_dict_set.
    destruct (String.eqb_spec company other) as [E | _];
      [congruence | reflexivity].
  - apply dict_set_keys.
  - intros Hnd. rewrite dict_set_keys.
    destruct (has_key table company) eqn:E; [exact Hnd |].
    apply NoDup_app. split; [exact Hnd |]. split.
    + intros x Hx Hin. apply list_elem_of_In in Hx.
      apply list_elem_of_In in Hin. destruct Hin as [<- | []].
      unfold has_key in E.
      assert (Hex : existsb (fun name => name =? company)
                      (get_all_companies table) = true).
      { apply existsb_exists. exists company.
        split; [exact Hx | apply String.eqb_refl]. }
      congruence.
    + apply NoDup_singleton.
Qed.

(** X10.  Adding a company that the table does not have yet gives it the
    lowest priority: the answer of [extract_company_from_content] for
    any other target stays what it was, except that a text nothing in
    the old table matched (answer "Unknown") is now attributed to the
    new company when one of its patterns occurs in it as a whole
    word. *)
Theorem added_company_has_lowest_priority :
  forall (table : list (string * list string)) (company : string)
         (patterns : list string) (title content : string)
         (target : option string),
    has_key table company = false ->
    target <> Some company ->
    let text := lower (title ++ " " ++ content) in
    let old := extract_company_from_content table title content target in
    let new :=
      extract_company_from_content
        (add_company_patterns company patterns table) title content target in
    (scan text table <> None -> new = old) /\
    (new <> old ->
       old = "Unknown" /\ new = company /\
       _matches_company_patterns text patterns = true).
Proof.
  intros table company patterns title content target Hnew Htarget
    text old new.
  assert (Hwithout :
    forall name,
      scan text table = name ->
      extract_without_target
        (add_company_patterns company patterns table) title content =
      match name with
      | Some c => c
      | None => if _matches_company_patterns text patterns then company
                else "Unknown"
      end /\
      extract_without_target table title content =
      match name with Some c => c | None => "Unknown" end).
  { intros name Hscan. unfold extract_without_target, add_company_patterns.
    rewrite dict_set_new by exact Hnew. fold text.
    rewrite scan_app, Hscan, url_patterns_never_answer. simpl.
    destruct name as [c |]; [split; reflexivity |].
    destruct (_matches_company_patterns text patterns); split; reflexivity. }
  destruct (Hwithout _ eq_refl) as [Hw' Hw].
  assert (Hcheck :
    forall t, t <> company ->
      _check_target_company_first
        (add_company_patterns company patterns table) title content t =
      _check_target_company_first table title content t).
  { intros t Ht. unfold _check_target_company_first, add_company_patterns.
    rewrite table_get_dict_set.
    destruct (String.eqb_spec company t) as [E | _];
      [congruence | reflexivity]. }
  assert (Hcases :
    new = old \/
    (scan text table = None /\ old = "Unknown" /\ new = company /\
     _matches_company_patterns text patterns = true)).
  { unfold new, old, extract_company_from_content.
    destruct target as [t |].
    - destruct (String.eqb t EmptyString).
      + rewrite Hw', Hw. destruct (scan text table); [left; reflexivity |].
        destruct (_matches_company_patterns text patterns);
          [right; repeat split; reflexivity | left; reflexivity].
      + rewrite Hcheck by congruence.
        destruct (negb _); [left; reflexivity |].
        rewrite Hw', Hw. destruct (scan text table); [left; reflexivity |].
        destruct (_matches_company_patterns text patterns);
          [right; repeat split; reflexivity | left; reflexivity].
    - rewrite Hw', Hw. destruct (scan text table); [left; reflexivity |].
      destruct (_matches_company_patterns text patterns);
        [right; repeat split; reflexivity | left; reflexivity]. }
  split.
  - intros Hsome. destruct Hcases as [H | (Hnone & _)];
      [exact H | contradiction].
  - intros Hne. destruct Hcases as [H | (_ & H)];
      [contradiction | exact H].
Qed.

Lemma added_company_has_lowest_priority_witness :
  let table' := add_company_patterns "Acme" ["acme"] company_patterns in
  extract_company_from_content table'
    "Amazon and Acme interview" "two offers" None
  = extract_company_from_content company_patterns
      "Amazon and Acme interview" "two offers" None.
Proof.
  intros table'.
  apply (added_company_has_lowest_priority company_patterns "Acme" ["acme"]
           "Amazon and Acme interview" "two offers" None).
  - reflexivity.
  - discriminate.
  - discriminate.
Defined.

End ExtractorTableProperties.
(* ===================================================================== *)
(** * What a call of [safe_request] costs and leaves behind *)
(* ===================================================================== *)

Section SafeRequestEffects.
Import PyFloat BaseScraper ScraperEffects.
Local Open Scope string_scope.
Local Open Scope nat_scope.

Variable cfg : Config.t.

Lemma count_gets_app (evs1 evs2 : list event) :
  count_gets (evs1 ++ evs2) = count_gets evs1 + count_gets evs2.
Proof.
  induction evs1 as [| [d | u] evs1 IH]; simpl; [reflexivity | exact IH |].
  rewrite IH. reflexivity.
Qed.

Lemma only_short_sleeps_no_gets (evs : list event) :
  only_short_sleeps evs -> count_gets evs = 0.
Proof.
  induction 1 as [| [d | u] evs Hx _ IH]; simpl;
    [reflexivity | exact IH | contradiction].
Qed.

Lemma skipn_tl {A : Type} (n : nat) (l : list A) :
  List.skipn n (List.tl l) = List.skipn (S n) l.
Proof. destruct l; simpl; [apply List.skipn_nil | reflexivity]. Qed.

(** One more [session.get], possibly followed by a sleep, in front of
    what the rest of the loop does. *)
Lemma attempts_post_step (url domain : string) (budget : nat)
    (s s1 : scraper) (w w1 : world) (r : option response) (s' : scraper)
    (w' : world) (pause : list event) :
  trace w1 = (trace w ++ Get url :: pause)%list ->
  count_gets pause = 0 ->
  answers w1 = List.tl (answers w) ->
  requests_made (stats s1) = S (requests_made (stats s)) ->
  seen_urls s1 = seen_urls s ->
  successful_scrapes (stats s1) = successful_scrapes (stats s) ->
  attempts_post url domain budget s1 w1 r s' w' ->
  attempts_post url domain (S budget) s w r s' w'.
Proof.
  intros Ht Hp Ha Hr Hs Hok (evs & Ht' & Hc & Hr' & Ha' & Hres).
  exists (Get url :: pause ++ evs)%list.
  assert (Hcount : count_gets (Get url :: pause ++ evs) = S (count_gets evs))
    by (simpl; rewrite count_gets_app, Hp; reflexivity).
  rewrite Hcount.
  split; [rewrite Ht', Ht, <- app_assoc; reflexivity |].
  split; [lia |]. split; [lia |].
  split; [rewrite Ha', Ha; apply skipn_tl |].
  destruct r; [rewrite <- Hs, <- Hok | rewrite <- Hs, <- Hok]; exact Hres.
Qed.

Lemma attempts_effects (url domain : string) :
  forall (remaining attempt : nat) (s : scraper) (w : world)
         (r : option response) (s' : scraper) (w' : world),
    attempts cfg url domain remaining attempt s w = (r, s', w') ->
    attempts_post url domain remaining s w r s' w'.
Proof.
  induction remaining as [| remaining IH]; intros attempt s w r s' w' H.
  - simpl in H. injection H as <- <- <-.
    exists []. simpl. rewrite app_nil_r, Nat.add_0_r.
    repeat split; reflexivity.
  - cbn [attempts get] in H.
    destruct (hd RequestException (answers w)) as [status_code body |].
    + destruct (status_code =? 200) eqn:E200.
      { injection H as <- <- <-. exists [Get url]. simpl.
        split; [reflexivity |]. split; [lia |]. split; [lia |].
        split; [destruct (answers w); reflexivity |].
        apply Nat.eqb_eq in E200. subst status_code.
        split; [exists body; reflexivity |].
        split; [reflexivity |].
        split; [unfold failures_of; simpl; rewrite lookup_insert_eq;
                reflexivity |].
        split; [| reflexivity].
        rewrite record_success_failures, decide_True by reflexivity.
        reflexivity. }
      destruct (status_code =? 403).
      { match type of H with
        | (if ?b then _ else _) = _ => destruct b
        end.
        - injection H as <- <- <-. exists [Get url]. simpl.
          split; [reflexivity |]. split; [lia |]. split; [lia |].
          split; [destruct (answers w); reflexivity |].
          split; reflexivity.
        - apply IH in H.
          eapply (attempts_post_step _ _ _ _ _ _ _ _ _ _ [Sleep _]);
            [| | | | | | exact H]; simpl;
            rewrite <- ?app_assoc; reflexivity. }
      destruct (status_code =? 429).
      { apply IH in H.
        eapply (attempts_post_step _ _ _ _ _ _ _ _ _ _ [Sleep _]);
          [| | | | | | exact H]; simpl;
          rewrite <- ?app_assoc; reflexivity. }
      apply IH in H.
      eapply (attempts_post_step _ _ _ _ _ _ _ _ _ _ []);
        [| | | | | | exact H]; simpl; reflexivity.
    + apply IH in H.
      eapply (attempts_post_step _ _ _ _ _ _ _ _ _ _ []);
        [| | | | | | exact H]; simpl;
        destruct (attempt =? _); reflexivity.
Qed.

Lemma safe_request_effects (url : string) (s s' : scraper) (w w' : world)
    (r : option response) :
  safe_request cfg url s w = (r, s', w') ->
  attempts_post url (netloc url) (Config.MAX_RETRIES cfg) s w r s' w' /\
  (r <> None -> url ∉ seen_urls s).
Proof.
  unfold safe_request.
  assert (Hnil : forall st : scraper,
             seen_urls st = seen_urls s ->
             requests_made (stats st) = requests_made (stats s) ->
             successful_scrapes (stats st) = successful_scrapes (stats s) ->
             attempts_post url (netloc url) (Config.MAX_RETRIES cfg)
               s w None st w).
  { intros st H1 H2 H3. exists []. simpl. rewrite app_nil_r, Nat.add_0_r.
    split; [reflexivity |]. split; [lia |]. split; [exact H2 |].
    split; [reflexivity |]. split; assumption. }
  destruct (bool_decide (url ∈ seen_urls s)) eqn:Eseen.
  { intros H. injection H as <- <- <-.
    split; [apply Hnil; reflexivity | congruence]. }
  apply bool_decide_eq_false in Eseen.
  destruct (match Config.RESPECT_ROBOTS_TXT cfg with
            | true => _ | false => _ end) as [crawl_delay |].
  2: { intros H. injection H as <- <- <-.
       split; [apply Hnil; reflexivity | congruence]. }
  destruct (rate_limit (netloc url) crawl_delay s w) as [s1 w1] eqn:Er.
  apply rate_limit_spec in Er.
  destruct Er as (Hf & Hst & Hseen & Ha & evs1 & Ht1 & He1).
  apply only_short_sleeps_no_gets in He1.
  destruct (_ <=? failures_of s1 (netloc url)).
  { intros H. injection H as <- <- <-. split; [| congruence].
    exists evs1. rewrite He1, Hst, Nat.add_0_r. simpl.
    split; [exact Ht1 |]. split; [lia |]. split; [reflexivity |].
    split; [exact Ha |]. split; [exact Hseen | reflexivity]. }
  intros H. apply attempts_effects in H.
  destruct H as (evs2 & Ht2 & Hc & Hr & Ha2 & Hres).
  split; [| intros _; exact Eseen].
  exists (evs1 ++ evs2)%list.
  rewrite count_gets_app, He1. simpl.
  split; [rewrite Ht2, Ht1, app_assoc; reflexivity |].
  split; [exact Hc |]. split; [rewrite Hr, Hst; reflexivity |].
  split; [rewrite Ha2, Ha; reflexivity |].
  rewrite <- Hseen, <- Hst. exact Hres.
Qed.

End SafeRequestEffects.

Section SafeRequestProperties.
Import PyFloat BaseScraper ScraperEffects.
Local Open Scope string_scope.
Local Open Scope nat_scope.

(** X11.  The effort of one [safe_request] is bounded and accounted for:
    it calls [session.get] at most [MAX_RETRIES] times, [requests_made]
    grows by exactly the number of those calls, and as many answers of
    the server are consumed.  When it returns nothing, the URL is not
    added to [seen_urls] (so it can be asked for again) and
    [successful_scrapes] stays as it is. *)
Theorem safe_request_effort_is_bounded :
  forall (cfg : Config.t) (url : string) (s : scraper) (w : world),
    let '(r, s', w') := safe_request cfg url s w in
    exists evs : list event,
      trace w' = (trace w ++ evs)%list /\
      count_gets evs <= Config.MAX_RETRIES cfg /\
      requests_made (stats s') = requests_made (stats s) + count_gets evs /\
      answers w' = List.skipn (count_gets evs) (answers w) /\
      (r = None ->
         seen_urls s' = seen_urls s /\
         successful_scrapes (stats s') = successful_scrapes (stats s)).
Proof.
  intros cfg url s w.
  destruct (safe_request cfg url s w) as [[r s'] w'] eqn:E.
  apply safe_request_effects in E.
  destruct E as [(evs & Ht & Hc & Hr & Ha & Hres) _].
  exists evs. do 4 (split; [assumption |]).
  intros ->. exact Hres.
Qed.

(** X12.  A request that returns a response returns a 200.  The URL was
    not in [seen_urls] before and is afterwards, the failure counters of
    its host (the scraper's and the rate limiter's) are back at zero,
    [successful_scrapes] has grown by one, and asking for the same URL
    again returns nothing without any effect on the world: it only
    counts a duplicate. *)
Theorem successful_request_is_remembered :
  forall (cfg : Config.t) (url : string) (s s' : scraper) (w w' : world)
         (answer : response),
    safe_request cfg url s w = (Some answer, s', w') ->
    (exists body, answer = Response 200 body) /\
    (url ∉ seen_urls s) /\
    seen_urls s' = {[url]} ∪ seen_urls s /\
    failures_of s' (netloc url) = 0 /\
    RateLimiter.failures_of (rate_limiter s') (netloc url) = 0 /\
    successful_scrapes (stats s') = S (successful_scrapes (stats s)) /\
    forall w2 : world,
      safe_request cfg url s' w2 =
      (None, with_stats incr_duplicates_found s', w2).
Proof.
  intros cfg url s s' w w' answer E.
  apply safe_request_effects in E.
  destruct E as [(evs & _ & _ & _ & _ & Hbody & Hseen & Hf & Hlf & Hok) Hnew].
  split; [exact Hbody |]. split; [apply Hnew; discriminate |].
  split; [exact Hseen |]. split; [exact Hf |]. split; [exact Hlf |].
  split; [exact Hok |].
  intros w2. unfold safe_request.
  rewrite bool_decide_eq_true_2; [reflexivity |].
  rewrite Hseen. apply elem_of_union_l, elem_of_singleton. reflexivity.
Qed.

Lemma successful_request_is_remembered_witness :
  let url := "https://leetcode.com/a" in
  let w := {| clock := 1000;
              answers := [Response 429 EmptyString; Response 200 "ok"];
              jitters := [];
              robots := fun _ => (true, 1);
              trace := [] |} in
  let '(r, s', _) := safe_request Config.defaults url (init "leetcode") w in
  r = Some (Response 200 "ok") /\
  failures_of s' (netloc url) = 0 /\
  forall w2 : world,
    safe_request Config.defaults url s' w2 =
    (None, with_stats incr_duplicates_found s', w2).
Proof.
  intros url w.
  destruct (safe_request Config.defaults url (init "leetcode") w)
    as [[r s'] w'] eqn:E.
  assert (Hr : r = Some (Response 200 "ok")).
  { apply (f_equal (fun t => fst (fst t))) in E. simpl in E.
    rewrite <- E. vm_compute. reflexivity. }
  subst r. split; [reflexivity |].
  destruct (successful_request_is_remembered _ _ _ _ _ _ _ E)
    as (_ & _ & _ & Hf & _ & _ & Hdup).
  split; [exact Hf | exact Hdup].
Defined.

End SafeRequestProperties.
(* ===================================================================== *)
(** * What the collection loop yields *)
(* ===================================================================== *)

Section CollectionEffectsFacts.
Import BaseScraper Collection CollectionEffects.
Local Open Scope string_scope.
Local Open Scope nat_scope.

Variable md5 : string -> string.

Lemma add_metadata_content (platform : string) (v : visit)
    (d r : experience_data) :
  add_metadata platform v d = TimeUtils.Returns r -> content r = content d.
Proof.
  intros H. destruct (add_metadata_returned _ _ _ _ H) as (w & _ & ->).
  reflexivity.
Qed.

Lemma scrape_loop_effects (max_experiences : nat) :
  forall (visits : list visit) (scraped_count : nat) (s : scraper),
    let run := scrape_loop md5 max_experiences visits scraped_count s in
    (scraped_count <= max_experiences ->
       length (yielded run) + scraped_count <= max_experiences) /\
    length (yielded run) <= length (extractions visits) /\
    NoDup (hashes_of md5 (yielded run)) /\
    (forall h, h ∈ hashes_of md5 (yielded run) -> h ∉ content_hashes s) /\
    (forall h, h ∈ content_hashes s \/ h ∈ hashes_of md5 (yielded run) ->
               h ∈ content_hashes (scraper_after run)) /\
    (raised run = None ->
       content_hashes (scraper_after run) =
         content_hashes s ∪ list_to_set (hashes_of md5 (yielded run))).
Proof.
  induction visits as [| v rest IH]; intros scraped_count s.
  - simpl. split; [lia |]. split; [lia |]. split; [constructor |].
    split; [intros h Hh; apply elem_of_nil in Hh; destruct Hh |].
    split.
    { intros h [Hh | Hh]; [exact Hh | apply elem_of_nil in Hh; destruct Hh]. }
    intros _. symmetry. apply (right_id_L ∅ (∪)).
  - cbn [scrape_loop].
    destruct (max_experiences <=? scraped_count) eqn:Efull.
    { simpl. split; [lia |]. split; [lia |]. split; [constructor |].
      split; [intros h Hh; apply elem_of_nil in Hh; destruct Hh |].
      split.
      { intros h [Hh | Hh];
          [exact Hh | apply elem_of_nil in Hh; destruct Hh]. }
      intros _. symmetry. apply (right_id_L ∅ (∪)). }
    apply Nat.leb_gt in Efull.
    cbn [extractions].
    set (s0 := apply_requests (requests v) s).
    assert (Hs0 : content_hashes s0 = content_hashes s) by reflexivity.
    destruct (extracted v) as [d |].
    2: { specialize (IH scraped_count s0). rewrite Hs0 in IH. exact IH. }
    unfold is_duplicate_content.
    destruct (bool_decide (md5 (content d) ∈ content_hashes s0)) eqn:Edup.
    + specialize (IH scraped_count (with_stats incr_duplicates_found s0)).
      cbn zeta in IH.
      destruct IH as (Hlen & Hext & Hnd & Hnew & Hsub & Hset).
      cbn [content_hashes with_stats] in Hnew, Hsub, Hset.
      rewrite Hs0 in Hnew, Hsub, Hset.
      cbn zeta. split; [exact Hlen |]. split; [simpl; lia |].
      split; [exact Hnd |]. split; [exact Hnew |].
      split; [exact Hsub | exact Hset].
    + apply bool_decide_eq_false in Edup. rewrite Hs0 in Edup.
      set (s1 := with_hashes
                   (fun hashes => {[md5 (content d)]} ∪ hashes) s0).
      assert (Hs1 : content_hashes s1
                    = {[md5 (content d)]} ∪ content_hashes s)
        by reflexivity.
      destruct (add_metadata (platform_name s1) v d) as [d1 | e] eqn:Ea.
      2: { cbn [yielded raised scraper_after length].
           split; [lia |]. split; [lia |]. split; [constructor |].
           split; [intros h Hh; apply elem_of_nil in Hh; destruct Hh |].
           split; [| discriminate].
           intros h [Hh | Hh];
             [| apply elem_of_nil in Hh; destruct Hh].
           rewrite Hs1. apply elem_of_union_r, Hh. }
      pose proof (add_metadata_content _ _ _ _ Ea) as Hcontent.
      specialize (IH (S scraped_count) s1). cbn zeta in IH.
      destruct IH as (Hlen & Hext & Hnd & Hnew & Hsub & Hset).
      rewrite Hs1 in Hnew, Hsub, Hset.
      cbn [yielded raised scraper_after].
      unfold hashes_of in *. cbn [List.map length].
      rewrite Hcontent.
      split; [intros _; specialize (Hlen ltac:(lia)); lia |].
      split; [lia |].
      split.
      { apply NoDup_cons. split; [| exact Hnd].
        intros Hin. apply (Hnew _ Hin).
        apply elem_of_union_l, elem_of_singleton. reflexivity. }
      split.
      { intros h Hh. apply elem_of_cons in Hh. destruct Hh as [-> | Hh];
          [exact Edup |].
        intros Hold. apply (Hnew h Hh), elem_of_union_r, Hold. }
      split.
      { intros h [Hh | Hh].
        - apply Hsub. left. apply elem_of_union_r, Hh.
        - apply elem_of_cons in Hh. destruct Hh as [-> | Hh].
          + apply Hsub. left. apply elem_of_union_l, elem_of_singleton.
            reflexivity.
          + apply Hsub. right. exact Hh. }
      intros Hfinished.
      rewrite (Hset Hfinished), list_to_set_cons, (assoc_L (∪)).
      rewrite (comm_L (∪) (content_hashes s)). reflexivity.
Qed.

End CollectionEffectsFacts.

Section CollectionProperties.
Import BaseScraper Collection CollectionEffects.
Local Open Scope string_scope.
Local Open Scope nat_scope.

(** X13.  [scrape_company_experiences] yields at most [max_experiences]
    records, and no more than the adapter extracted.  Their contents
    have pairwise different hashes, none of which the scraper had
    recorded before the call.  Afterwards [content_hashes] holds the
    old hashes and those of the yielded records; when the generator ends
    without raising it holds exactly these (a run ended by an exception
    of [calculate_weight] has recorded the hash of the record it was
    weighing as well). *)
Theorem collection_yields_distinct_content :
  forall (md5 : string -> string) (max_experiences : nat)
         (discovery : request_effects) (visits : list visit) (s : scraper),
    let run :=
      scrape_company_experiences md5 max_experiences discovery visits s in
    length (yielded run) <= max_experiences /\
    length (yielded run) <= length (extractions visits) /\
    NoDup (hashes_of md5 (yielded run)) /\
    (forall h, h ∈ hashes_of md5 (yielded run) -> h ∉ content_hashes s) /\
    (forall h, h ∈ content_hashes s \/ h ∈ hashes_of md5 (yielded run) ->
               h ∈ content_hashes (scraper_after run)) /\
    (raised run = None ->
       content_hashes (scraper_after run) =
         content_hashes s ∪ list_to_set (hashes_of md5 (yielded run))).
Proof.
  intros md5 max_experiences discovery visits s run. unfold run.
  unfold scrape_company_experiences.
  pose proof (scrape_loop_effects md5 max_experiences visits 0
                (apply_requests discovery s)) as H.
  cbn zeta in H.
  destruct H as (Hlen & Hext & Hnd & Hnew & Hsub & Hset).
  split; [specialize (Hlen ltac:(lia)); lia |].
  split; [exact Hext |]. split; [exact Hnd |].
  split; [exact Hnew |]. split; [exact Hsub | exact Hset].
Qed.

End CollectionProperties.
(* ===================================================================== *)
(** * The store and its queries *)
(* ===================================================================== *)

Section PipelineQueriesFacts.
Import PyFloat Pipeline PipelineQueries.
Local Open Scope string_scope.
Local Open Scope nat_scope.

Lemma db_ok_empty : db_ok empty.
Proof. repeat split; constructor. Qed.

Lemma find_company_Some (company_name : string) (db : database)
    (c : Company) :
  find_company company_name db = Some c ->
  In c (companies db) /\ name c = company_name.
Proof.
  unfold find_company. intros H. apply find_some in H.
  destruct H as [Hin Heq]. split; [exact Hin | apply String.eqb_eq, Heq].
Qed.

Lemma find_company_None (company_name : string) (db : database) :
  find_company company_name db = None ->
  ~ In company_name (List.map name (companies db)).
Proof.
  unfold find_company. intros H Hin.
  apply in_map_iff in Hin. destruct Hin as (c & Heq & Hin).
  pose proof (find_none _ _ H c Hin) as Hne. simpl in Hne.
  rewrite Heq, String.eqb_refl in Hne. discriminate.
Qed.

(** What [get_or_create_company] returns and does. *)
Lemma get_or_create_company_spec (company_name : string) (db : database) :
  db_ok db ->
  let '(c, db1) := get_or_create_company company_name db in
  db_ok db1 /\ In c (companies db1) /\ name c = company_name /\
  experiences db1 = experiences db /\
  next_experience_id db1 = next_experience_id db /\
  (companies db1 = companies db \/
   companies db1 = (companies db ++ [c])%list /\
   company_id c = next_company_id db).
Proof.
  intros (Hids & Hnames & Hlt & Heids & Hexp).
  unfold get_or_create_company.
  destruct (find_company company_name db) as [c |] eqn:E.
  - apply find_company_Some in E. destruct E as [Hin Hname].
    split; [repeat split; assumption |].
    split; [exact Hin |]. split; [exact Hname |].
    split; [reflexivity |]. split; [reflexivity | left; reflexivity].
  - apply find_company_None in E. simpl.
    split.
    + unfold db_ok. simpl. rewrite !List.map_app. simpl.
      split.
      { apply NoDup_app. split; [exact Hids |]. split;
          [| apply NoDup_singleton].
        intros x Hx Hin. apply list_elem_of_In in Hx.
        apply list_elem_of_In in Hin. destruct Hin as [<- | []].
        apply in_map_iff in Hx. destruct Hx as (c & Heq & Hc).
        rewrite List.Forall_forall in Hlt. specialize (Hlt c Hc). lia. }
      split.
      { apply NoDup_app. split; [exact Hnames |]. split;
          [| apply NoDup_singleton].
        intros x Hx Hin. apply list_elem_of_In in Hx.
        apply list_elem_of_In in Hin. destruct Hin as [<- | []].
        exact (E Hx). }
      split.
      { apply Forall_app. split.
        - eapply List.Forall_impl; [| exact Hlt]. simpl. intros c Hc. lia.
        - constructor; [simpl; lia | constructor]. }
      split; [exact Heids |].
      eapply List.Forall_impl; [| exact Hexp]. simpl.
      intros e [He Hin]. split; [exact He |].
      apply in_or_app. left. exact Hin.
    + split; [apply in_or_app; right; left; reflexivity |].
      split; [reflexivity |]. split; [reflexivity |].
      split; [reflexivity |]. right. split; reflexivity.
Qed.

(** What [_store_experience] does to a consistent store when it writes a
    row. *)
Lemma store_experience_new (now : TimeUtils.datetime)
    (d : Collection.experience_data) (db : database)
    (platform : string) (date : TimeUtils.datetime) :
  db_ok db ->
  find_experience (Collection.source_url d) db = None ->
  Collection.source_platform d = Some platform ->
  Collection.experience_date d = Some date ->
  exists (row : InterviewExperience) (c : Company),
    _store_experience now d db =
      (Some (id row),
       {| companies := companies (snd (get_or_create_company
                                         (Collection.company d) db));
          experiences := (experiences db ++ [row])%list;
          next_company_id :=
            next_company_id (snd (get_or_create_company
                                    (Collection.company d) db));
          next_experience_id := S (next_experience_id db) |}) /\
    id row = next_experience_id db /\
    experience_company_id row = company_id c /\
    In c (companies (snd (get_or_create_company (Collection.company d) db))) /\
    name c = Collection.company d /\
    title row = Collection.title d /\
    content row = Collection.content d /\
    source_url row = Collection.source_url d /\
    source_platform row = platform /\
    experience_date row = date /\
    scraped_at row = now /\
    processed_at row = None.
Proof.
  intros Hok Hnone Hp Hd. unfold _store_experience.
  rewrite Hnone, Hp, Hd.
  pose proof (get_or_create_company_spec (Collection.company d) db Hok) as H.
  destruct (get_or_create_company (Collection.company d) db) as [c db1].
  destruct H as (_ & Hin & Hname & Hexp & Hnext & _).
  simpl. rewrite Hexp, Hnext.
  match goal with
  | |- context [(experiences db ++ [?r])%list] => exists r
  end.
  exists c. split; [reflexivity |]. simpl.
  repeat split; assumption.
Qed.

Lemma store_experience_ok (now : TimeUtils.datetime)
    (d : Collection.experience_data) (db : database) :
  db_ok db -> db_ok (snd (_store_experience now d db)).
Proof.
  intros Hok. unfold _store_experience.
  destruct (find_experience _ db) as [existing |] eqn:E; [exact Hok |].
  pose proof (get_or_create_company_spec (Collection.company d) db Hok) as H.
  destruct (get_or_create_company (Collection.company d) db) as [c db1].
  destruct H as (Hok1 & Hin & Hname & Hexp & Hnext & _).
  destruct (Collection.source_platform d) as [platform |]; [| exact Hok].
  destruct (Collection.experience_date d) as [date |]; [| exact Hok].
  destruct Hok1 as (Hids & Hnames & Hlt & Heids & Hrows).
  unfold db_ok. simpl. rewrite List.map_app. simpl.
  split; [exact Hids |]. split; [exact Hnames |]. split; [exact Hlt |].
  split.
  - apply NoDup_app. split; [exact Heids |]. split;
      [| apply NoDup_singleton].
    intros x Hx Hin'. apply list_elem_of_In in Hx.
    apply list_elem_of_In in Hin'. destruct Hin' as [<- | []].
    apply in_map_iff in Hx. destruct Hx as (e & Heq & He).
    rewrite List.Forall_forall in Hrows. destruct (Hrows e He) as [Hlt' _].
    lia.
  - apply Forall_app. split.
    + eapply List.Forall_impl; [| exact Hrows]. simpl.
      intros e [He Hc]. split; [lia | exact Hc].
    + constructor; [| constructor]. simpl. split; [lia |].
      apply in_map, Hin.
Qed.

Lemma store_all_ok
    (records : list (TimeUtils.datetime * Collection.experience_data))
    (db : database) :
  db_ok db -> db_ok (store_all records db).
Proof.
  revert db. induction records as [| [now d] rest IH]; intros db Hok; simpl;
    [exact Hok |].
  apply IH, store_experience_ok, Hok.
Qed.

Lemma NoDup_map_injective {A B : Type} (f : A -> B) (l : list A) (a b : A) :
  NoDup (List.map f l) -> In a l -> In b l -> f a = f b -> a = b.
Proof.
  induction l as [| x l IH]; simpl; intros Hnd Ha Hb Heq; [destruct Ha |].
  apply NoDup_cons in Hnd. destruct Hnd as [Hx Hnd].
  destruct Ha as [-> | Ha], Hb as [-> | Hb].
  - reflexivity.
  - exfalso. apply Hx. rewrite Heq. apply list_elem_of_In, in_map, Hb.
  - exfalso. apply Hx. rewrite <- Heq. apply list_elem_of_In, in_map, Ha.
  - apply IH; assumption.
Qed.

(** In a consistent store, a row joins the company called
    [company_name] exactly when the company its key names is called
    so. *)
Lemma joins_spec (company_name : string) (db : database)
    (e : InterviewExperience) (c : Company) :
  NoDup (List.map company_id (companies db)) ->
  In c (companies db) ->
  experience_company_id e = company_id c ->
  joins company_name db e = String.eqb (name c) company_name.
Proof.
  intros Hnd Hc He. unfold joins.
  destruct (String.eqb (name c) company_name) eqn:E.
  - apply existsb_exists. exists c. split; [exact Hc |].
    rewrite He, Nat.eqb_refl, E. reflexivity.
  - apply not_true_iff_false. intros H. apply existsb_exists in H.
    destruct H as (c' & Hc' & Hcond).
    apply andb_true_iff in Hcond. destruct Hcond as [Hid Hname].
    apply Nat.eqb_eq in Hid.
    assert (c' = c)
      by (apply (NoDup_map_injective company_id (companies db));
          [assumption .. | congruence]).
    subst c'. congruence.
Qed.

Lemma joins_companies (company_name : string) (db db' : database)
    (e : InterviewExperience) :
  companies db' = companies db ->
  joins company_name db' e = joins company_name db e.
Proof. unfold joins. intros ->. reflexivity. Qed.

(** A company created by [get_or_create_company] joins none of the rows
    that were there. *)
Lemma joins_get_or_create (company_name new_name : string) (db : database)
    (e : InterviewExperience) :
  db_ok db -> In e (experiences db) ->
  joins company_name (snd (get_or_create_company new_name db)) e =
  joins company_name db e.
Proof.
  intros Hok He.
  pose proof (get_or_create_company_spec new_name db Hok) as H.
  destruct (get_or_create_company new_name db) as [c db1].
  destruct H as (_ & _ & _ & _ & _ & [Hsame | [Hnew Hid]]); simpl.
  - apply joins_companies, Hsame.
  - unfold joins. rewrite Hnew, existsb_app. simpl.
    destruct Hok as (_ & _ & Hlt & _ & Hrows).
    rewrite List.Forall_forall in Hrows. destruct (Hrows e He) as [_ Hin].
    apply in_map_iff in Hin. destruct Hin as (c' & Heq & Hc').
    rewrite List.Forall_forall in Hlt. specialize (Hlt c' Hc').
    assert (Hne : (company_id c =? experience_company_id e) = false)
      by (apply Nat.eqb_neq; lia).
    rewrite Hne. simpl. rewrite orb_false_r. reflexivity.
Qed.

Lemma get_company_experiences_store (now : TimeUtils.datetime)
    (d : Collection.experience_data) (db : database)
    (platform : string) (date : TimeUtils.datetime) :
  db_ok db ->
  find_experience (Collection.source_url d) db = None ->
  Collection.source_platform d = Some platform ->
  Collection.experience_date d = Some date ->
  exists row : InterviewExperience,
    fst (_store_experience now d db) = Some (id row) /\
    title row = Collection.title d /\
    content row = Collection.content d /\
    source_url row = Collection.source_url d /\
    scraped_at row = now /\
    processed_at row = None /\
    forall company_name : string,
      _get_company_experiences company_name
        (snd (_store_experience now d db)) =
      (_get_company_experiences company_name db ++
       (if String.eqb (Collection.company d) company_name then [row]
        else []))%list.
Proof.
  intros Hok Hnone Hp Hd.
  destruct (store_experience_new now d db platform date Hok Hnone Hp Hd)
    as (row & c & Heq & _ & Hcid & Hc & Hname & Ht & Hcontent & Hurl & _ & _
        & Hnow & Hproc).
  exists row. rewrite Heq. simpl.
  split; [reflexivity |].
  do 5 (split; [assumption |]).
  intros company_name. unfold _get_company_experiences. simpl.
  rewrite List.filter_app. f_equal.
  - apply List.filter_ext_in. intros e He.
    rewrite <- (joins_get_or_create company_name (Collection.company d) db e
                  Hok He).
    apply joins_companies. reflexivity.
  - simpl.
    pose proof (get_or_create_company_spec (Collection.company d) db Hok)
      as Hspec.
    destruct (get_or_create_company (Collection.company d) db) as [c1 db1].
    destruct Hspec as ((Hids & _) & _). simpl in Hc |- *.
    rewrite (joins_spec company_name _ row c); [| exact Hids | exact Hc
                                                | exact Hcid].
    rewrite Hname. reflexivity.
Qed.

(** The head of a list sorted by decreasing key carries the largest
    key. *)
Lemma sorted_desc_head {A : Type} (key : A -> Q) (l : list A) :
  match hd_error (sorted_desc key l) with
  | Some m => In m l /\ Forall (fun x => (key x <= key m)%Q) l
  | None => l = []
  end.
Proof.
  induction l as [| x l IH]; [reflexivity |].
  unfold sorted_desc in *. simpl.
  destruct (fold_right (insert_desc key) [] l) as [| m sorted]; simpl in *.
  - subst l. split; [left; reflexivity |].
    constructor; [apply Qle_refl | constructor].
  - destruct IH as [Hm Hall].
    destruct (Qltb (key x) (key m)) eqn:E; simpl.
    + apply Qltb_true in E. split; [right; exact Hm |].
      constructor; [apply Qlt_le_weak, E | exact Hall].
    + apply Qltb_false in E. split; [left; reflexivity |].
      constructor; [apply Qle_refl |].
      eapply List.Forall_impl; [| exact Hall]. simpl.
      intros y Hy. eapply Qle_trans; eassumption.
Qed.

End PipelineQueriesFacts.

Section PipelineQueriesProperties.
Import PyFloat Pipeline PipelineQueries.
Local Open Scope string_scope.
Local Open Scope nat_scope.

(** X14.  Whatever records [_store_experience] is given, one after the
    other, starting from empty tables: no two companies share a name or
    an id, no two experiences share an id, and every experience points
    to a company that is in the table. *)
Theorem store_keeps_the_tables_consistent :
  forall (history : list (TimeUtils.datetime * Collection.experience_data)),
    let db := store_all history empty in
    NoDup (List.map name (companies db)) /\
    NoDup (List.map company_id (companies db)) /\
    NoDup (List.map id (experiences db)) /\
    forall e : InterviewExperience,
      In e (experiences db) ->
      exists c : Company,
        In c (companies db) /\ company_id c = experience_company_id e.
Proof.
  intros history db.
  destruct (store_all_ok history empty db_ok_empty)
    as (Hids & Hnames & _ & Heids & Hrows).
  fold db in Hids, Hnames, Heids, Hrows.
  split; [exact Hnames |]. split; [exact Hids |]. split; [exact Heids |].
  intros e He. rewrite List.Forall_forall in Hrows.
  destruct (Hrows e He) as [_ Hin].
  apply in_map_iff in Hin. destruct Hin as (c & Heq & Hc).
  exists c. split; assumption.
Qed.

(** X15.  A record with a new source URL, a platform and a date is
    stored as one new row, and the queries by company see it under the
    company named in the record and under no other: the list
    [_get_company_experiences] returns for that company grows by exactly
    this row, at its end, and the list for every other company is
    unchanged.  A record lacking the platform or the date is not stored
    and leaves the tables as they are. *)
Theorem stored_experience_is_found_under_its_company :
  forall (history : list (TimeUtils.datetime * Collection.experience_data))
         (now : TimeUtils.datetime) (d : Collection.experience_data),
    let db := store_all history empty in
    ~ In (Collection.source_url d) (stored_urls db) ->
    let '(r, db') := _store_experience now d db in
    (Collection.source_platform d <> None ->
     Collection.experience_date d <> None ->
     exists row : InterviewExperience,
       r = Some (id row) /\
       title row = Collection.title d /\
       content row = Collection.content d /\
       source_url row = Collection.source_url d /\
       scraped_at row = now /\
       processed_at row = None /\
       _get_company_experiences (Collection.company d) db' =
         (_get_company_experiences (Collection.company d) db ++ [row])%list /\
       forall other : string,
         other <> Collection.company d ->
         _get_company_experiences other db' =
         _get_company_experiences other db) /\
    (Collection.source_platform d = None \/
     Collection.experience_date d = None ->
     r = None /\ db' = db).
Proof.
  intros history now d db Hnew.
  assert (Hok : db_ok db) by (apply store_all_ok, db_ok_empty).
  assert (Hnone : find_experience (Collection.source_url d) db = None).
  { destruct (find_experience _ db) as [e |] eqn:E; [| reflexivity].
    exfalso. apply Hnew. apply find_experience_Some in E.
    destruct E as [He Hurl]. unfold stored_urls.
    apply in_map_iff. exists e. split; assumption. }
  destruct (_store_experience now d db) as [r db'] eqn:Estore. split.
  - intros Hp Hd.
    destruct (Collection.source_platform d) as [platform |] eqn:Ep;
      [| contradiction].
    destruct (Collection.experience_date d) as [date |] eqn:Ed;
      [| contradiction].
    destruct (get_company_experiences_store now d db platform date
                Hok Hnone Ep Ed)
      as (row & Hr & Ht & Hc & Hurl & Hnow & Hproc & Hquery).
    rewrite Estore in Hr, Hquery. simpl in Hr, Hquery.
    exists row. do 6 (split; [assumption |]). split.
    + rewrite Hquery, String.eqb_refl. reflexivity.
    + intros other Hne. rewrite Hquery.
      destruct (String.eqb_spec (Collection.company d) other) as [E | _];
        [congruence | apply app_nil_r].
  - intros Hmissing. unfold _store_experience in Estore.
    rewrite Hnone in Estore.
    destruct (get_or_create_company (Collection.company d) db) as [c db1].
    destruct (Collection.source_platform d) as [platform |].
    + destruct (Collection.experience_date d) as [date |].
      * destruct Hmissing; discriminate.
      * injection Estore as <- <-. split; reflexivity.
    + injection Estore as <- <-. split; reflexivity.
Qed.

Lemma stored_experience_is_found_under_its_company_witness :
  let d := Collection.sample_data in
  let '(r, db') := _store_experience 5%Z d empty in
  exists row : InterviewExperience,
    r = Some (id row) /\
    _get_company_experiences "Amazon" db' = [row] /\
    _get_company_experiences "Google" db' = [].
Proof.
  intros d.
  pose proof (stored_experience_is_found_under_its_company [] 5%Z d
                (fun F => F)) as H.
  change (store_all [] empty) with empty in H.
  destruct (_store_experience 5%Z d empty) as [r db'].
  destruct H as [H _].
  destruct (H ltac:(discriminate) ltac:(discriminate))
    as (row & Hr & _ & _ & _ & _ & _ & Hhere & Hother).
  exists row. split; [exact Hr |]. split; [exact Hhere |].
  apply (Hother "Google"). discriminate.
Defined.

(** X16.  [_is_data_stale] answers true exactly when every experience
    stored for the company was scraped at least eight whole days before
    the clock reading; in particular when there is none. *)
Theorem data_is_stale_after_eight_days :
  forall (company_name : string) (now : TimeUtils.datetime) (db : database),
    _is_data_stale company_name now db = true <->
    forall e : InterviewExperience,
      In e (_get_company_experiences company_name db) ->
      (scraped_at e + 8 * TimeUtils.microseconds_per_day <= now)%Z.
Proof.
  intros company_name now db. unfold _is_data_stale, latest_experience.
  pose proof (sorted_desc_head (fun e => inject_Z (scraped_at e))
                (_get_company_experiences company_name db)) as Hhead.
  destruct (hd_error _) as [latest |].
  - destruct Hhead as [Hin Hall].
    assert (Hdays : (days_threshold
                       <? TimeUtils.days now (scraped_at latest))%Z = true
                    <-> (scraped_at latest
                         + 8 * TimeUtils.microseconds_per_day <= now)%Z).
    { unfold days_threshold, TimeUtils.days, TimeUtils.microseconds_per_day.
      rewrite Z.ltb_lt. split; intros H.
      - assert (H8 : (8 <= (now - scraped_at latest)
                            / (86400 * 1000000))%Z) by lia.
        pose proof (Z.mul_div_le (now - scraped_at latest)
                      (86400 * 1000000) ltac:(lia)).
        nia.
      - assert (H8 : (8 <= (now - scraped_at latest)
                            / (86400 * 1000000))%Z)
          by (apply Z.div_le_lower_bound; lia).
        lia. }
    rewrite Hdays. split.
    + intros H e He. rewrite List.Forall_forall in Hall.
      specialize (Hall e He). simpl in Hall.
      rewrite <- Zle_Qle in Hall. lia.
    + intros H. apply H, Hin.
  - rewrite Hhead. split; [intros _ e [] | reflexivity].
Qed.

End PipelineQueriesProperties.
(* ===================================================================== *)
(** * Sorting by decreasing key *)
(* ===================================================================== *)

Section SortedDescFacts.
Import PyFloat.
Local Open Scope Q_scope.

Lemma insert_desc_perm {A : Type} (key : A -> Q) (x : A) (l : list A) :
  Permutation (insert_desc key x l) (x :: l).
Proof.
  induction l as [| y rest IH]; simpl; [reflexivity |].
  destruct (Qltb (key x) (key y)); [| reflexivity].
  rewrite IH. apply perm_swap.
Qed.

Lemma sorted_desc_perm {A : Type} (key : A -> Q) (l : list A) :
  Permutation (sorted_desc key l) l.
Proof.
  unfold sorted_desc. induction l as [| x rest IH]; simpl; [reflexivity |].
  rewrite insert_desc_perm, IH. reflexivity.
Qed.

Lemma insert_desc_sorted {A : Type} (key : A -> Q) (x : A) (l : list A) :
  StronglySorted (fun a b => key b <= key a) l ->
  StronglySorted (fun a b => key b <= key a) (insert_desc key x l).
Proof.
  induction 1 as [| y rest Hsorted IH Hall]; simpl.
  - constructor; constructor.
  - destruct (Qltb (key x) (key y)) eqn:E.
    + apply Qltb_true in E. constructor; [exact IH |].
      apply insert_desc_Forall; [apply Qlt_le_weak, E | exact Hall].
    + apply Qltb_false in E. constructor.
      * constructor; assumption.
      * constructor; [exact E |].
        eapply List.Forall_impl; [| exact Hall]. simpl.
        intros z Hz. eapply Qle_trans; eassumption.
Qed.

Lemma sorted_desc_sorted {A : Type} (key : A -> Q) (l : list A) :
  StronglySorted (fun a b => key b <= key a) (sorted_desc key l).
Proof.
  unfold sorted_desc. induction l as [| x rest IH]; simpl;
    [constructor | apply insert_desc_sorted, IH].
Qed.

End SortedDescFacts.

(* ===================================================================== *)
(** * The scored topics of one experience *)
(* ===================================================================== *)

Section TopicScoresFacts.
Import PyFloat PyStr PyRound TopicExtractor TopicAnalysis.
Local Open Scope nat_scope.

Lemma key_eqb_eq (a b : topic_key) : key_eqb a b = true <-> a = b.
Proof.
  destruct a as [a1 a2], b as [b1 b2]. unfold key_eqb. simpl.
  rewrite andb_true_iff, !String.eqb_eq. split.
  - intros [-> ->]. reflexivity.
  - intros H. injection H as -> ->. split; reflexivity.
Qed.

Lemma key_eqb_refl (a : topic_key) : key_eqb a a = true.
Proof. apply key_eqb_eq. reflexivity. Qed.

Lemma add_count_keys (key : topic_key) (n : nat) (topics : counts) :
  List.map fst (add_count key n topics) =
  if has_topic key topics then List.map fst topics
  else (List.map fst topics ++ [key])%list.
Proof.
  unfold has_topic.
  induction topics as [| [k m] rest IH]; simpl; [reflexivity |].
  destruct (key_eqb k key); simpl; [reflexivity |].
  rewrite IH. destruct (existsb _ rest); reflexivity.
Qed.

Lemma has_topic_In (key : topic_key) (topics : counts) :
  has_topic key topics = false -> ~ In key (List.map fst topics).
Proof.
  unfold has_topic. intros H Hin. apply in_map_iff in Hin.
  destruct Hin as ([k m] & Heq & Hin). simpl in Heq. subst k.
  assert (Hex : existsb (fun km => key_eqb (fst km) key) topics = true).
  { apply existsb_exists. exists (key, m).
    split; [exact Hin | apply key_eqb_refl]. }
  congruence.
Qed.

Lemma add_count_NoDup (key : topic_key) (n : nat) (topics : counts) :
  NoDup (List.map fst topics) -> NoDup (List.map fst (add_count key n topics)).
Proof.
  intros Hnd. rewrite add_count_keys.
  destruct (has_topic key topics) eqn:E; [exact Hnd |].
  apply NoDup_app. split; [exact Hnd |]. split; [| apply NoDup_singleton].
  intros x Hx Hin. apply list_elem_of_In in Hx.
  apply list_elem_of_In in Hin. destruct Hin as [<- | []].
  exact (has_topic_In _ _ E Hx).
Qed.

Lemma count_of_add_count (key k : topic_key) (n : nat) (topics : counts) :
  count_of key (add_count k n topics) =
  count_of key topics + (if key_eqb k key then n else 0).
Proof.
  induction topics as [| [k' m] rest IH]; simpl.
  - destruct (key_eqb k key); lia.
  - destruct (key_eqb k' k) eqn:E; simpl.
    + apply key_eqb_eq in E. subst k'.
      destruct (key_eqb k key); lia.
    + destruct (key_eqb k' key) eqn:E'; [| exact IH].
      apply key_eqb_eq in E'. subst k'.
      destruct (key_eqb k key) eqn:E2; [| lia].
      apply key_eqb_eq in E2. subst k. rewrite key_eqb_refl in E.
      discriminate.
Qed.

Lemma count_of_missing (key : topic_key) (topics : counts) :
  ~ In key (List.map fst topics) -> count_of key topics = 0.
Proof.
  induction topics as [| [k m] rest IH]; simpl; intros H; [reflexivity |].
  destruct (key_eqb k key) eqn:E.
  - apply key_eqb_eq in E. exfalso. apply H. left. exact E.
  - apply IH. intros Hin. apply H. right. exact Hin.
Qed.

Lemma merge_into_NoDup (merged extraction : counts) :
  NoDup (List.map fst merged) ->
  NoDup (List.map fst (merge_into merged extraction)).
Proof.
  unfold merge_into. revert merged.
  induction extraction as [| [key count] rest IH]; intros merged H; simpl;
    [exact H |].
  apply IH, add_count_NoDup, H.
Qed.

Lemma count_of_merge_into (key : topic_key) (merged extraction : counts) :
  NoDup (List.map fst extraction) ->
  count_of key (merge_into merged extraction) =
  count_of key merged + count_of key extraction.
Proof.
  unfold merge_into. revert merged.
  induction extraction as [| [k count] rest IH]; intros merged Hnd; simpl;
    [lia |].
  apply NoDup_cons in Hnd. destruct Hnd as [Hk Hnd].
  rewrite IH by exact Hnd. rewrite count_of_add_count.
  destruct (key_eqb k key) eqn:E; [| lia].
  apply key_eqb_eq in E. subst k.
  rewrite (count_of_missing key rest); [lia |].
  intros Hin. apply Hk, list_elem_of_In, Hin.
Qed.

(** A loop that only ever calls [add_count] keeps the keys distinct. *)
Lemma fold_left_NoDup {A : Type} (step : counts -> A -> counts)
    (items : list A) (topics : counts) :
  (forall acc x, NoDup (List.map fst acc) -> NoDup (List.map fst (step acc x))) ->
  NoDup (List.map fst topics) ->
  NoDup (List.map fst (fold_left step items topics)).
Proof.
  intros Hstep. revert topics.
  induction items as [| x rest IH]; intros topics H; simpl; [exact H |].
  apply IH, Hstep, H.
Qed.

Section WithTaxonomy.
Variable keyword_lookup : list (string * topic_key).
Variable findall_count : string -> string -> nat.
Variable captured_terms : string -> string -> list string.
Variable math_log : nat -> Q.

Lemma extract_by_keywords_NoDup (text : string) :
  NoDup (List.map fst (_extract_by_keywords keyword_lookup text)).
Proof.
  unfold _extract_by_keywords. apply fold_left_NoDup; [| constructor].
  intros acc [keyword key] Hacc.
  destruct (0 <? _); [apply add_count_NoDup |]; exact Hacc.
Qed.

Lemma extract_by_context_NoDup (text : string) :
  NoDup (List.map fst
           (_extract_by_context keyword_lookup captured_terms text)).
Proof.
  unfold _extract_by_context. apply fold_left_NoDup; [| constructor].
  intros acc pattern Hacc. apply fold_left_NoDup; [| exact Hacc].
  intros acc1 term Hacc1. apply fold_left_NoDup; [| exact Hacc1].
  intros acc2 [keyword key] Hacc2.
  destruct (_ || _); [apply add_count_NoDup |]; exact Hacc2.
Qed.

Lemma extract_by_patterns_NoDup (text : string) :
  NoDup (List.map fst (_extract_by_patterns findall_count text)).
Proof.
  unfold _extract_by_patterns. apply fold_left_NoDup; [| constructor].
  intros acc [key patterns] Hacc. apply fold_left_NoDup; [| exact Hacc].
  intros acc1 pattern Hacc1.
  destruct (0 <? _); [apply add_count_NoDup |]; exact Hacc1.
Qed.

Lemma calculate_topic_scores_spec (topics : counts) (text : string)
    (decay : Q) :
  let scored := _calculate_topic_scores math_log topics text decay in
  Permutation scored
    (List.map (fun '(key, count) =>
                 (key, score_topic math_log text decay key count)) topics) /\
  StronglySorted
    (fun a b => (weighted_importance (snd b) <= weighted_importance (snd a))%Q)
    scored.
Proof.
  unfold _calculate_topic_scores. split;
    [apply sorted_desc_perm | apply sorted_desc_sorted].
Qed.

Lemma calculate_topic_scores_keys (topics : counts) (text : string)
    (decay : Q) :
  Permutation
    (List.map fst (_calculate_topic_scores math_log topics text decay))
    (List.map fst topics).
Proof.
  destruct (calculate_topic_scores_spec topics text decay) as [Hperm _].
  etransitivity; [apply Permutation_map, Hperm |].
  clear Hperm. induction topics as [| [key count] rest IH]; simpl;
    [reflexivity | apply perm_skip, IH].
Qed.

End WithTaxonomy.

End TopicScoresFacts.

Section MeanFacts.
Import PyFloat.
Local Open Scope Q_scope.

Lemma fold_left_Qplus_unit (l : list Q) (a : Q) :
  Forall (fun x => 0 <= x /\ x <= 1) l ->
  a <= fold_left Qplus l a /\
  fold_left Qplus l a <= a + inject_Z (Z.of_nat (length l)).
Proof.
  revert a. induction l as [| x l IH]; intros a Hall.
  - change (inject_Z (Z.of_nat (length (@nil Q)))) with 0. simpl.
    split; qlra.
  - apply Forall_cons in Hall. destruct Hall as [[Hx0 Hx1] Hall].
    destruct (IH (a + x) Hall) as [Hlo Hhi].
    cbn [fold_left length]. rewrite Nat2Z.inj_succ. unfold Z.succ.
    rewrite inject_Z_plus. change (inject_Z 1) with 1.
    revert Hhi. generalize (inject_Z (Z.of_nat (length l))). intros n Hhi.
    split; qlra.
Qed.

(** The mean of values of the unit interval lies in the unit interval. *)
Lemma mean_unit (l : list Q) :
  l <> [] ->
  Forall (fun x => 0 <= x /\ x <= 1) l ->
  0 <= pysum l / inject_Z (Z.of_nat (length l)) /\
  pysum l / inject_Z (Z.of_nat (length l)) <= 1.
Proof.
  intros Hne Hall. unfold pysum.
  destruct (fold_left_Qplus_unit l 0 Hall) as [Hlo Hhi].
  assert (Hn : 0 < inject_Z (Z.of_nat (length l))).
  { change 0 with (inject_Z 0). rewrite <- Zlt_Qlt.
    destruct l; [contradiction | simpl; lia]. }
  split.
  - apply Qle_shift_div_l; [exact Hn |]. rewrite Qmult_0_l. exact Hlo.
  - apply Qle_shift_div_r; [exact Hn |]. rewrite Qmult_1_l.
    rewrite Qplus_0_l in Hhi. exact Hhi.
Qed.

End MeanFacts.

Section TopicScoresProperties.
Import PyFloat PyStr PyRound TopicExtractor TopicAnalysis.
Local Open Scope nat_scope.

(** X17.  The topics reported for an experience come sorted by
    decreasing weighted importance, and no topic is reported twice; the
    category and the name of each entry are the two components of its
    key. *)
Theorem scored_topics_are_sorted_and_distinct :
  forall (keyword_lookup : list (string * topic_key))
         (findall_count : string -> string -> nat)
         (captured_terms : string -> string -> list string)
         (math_log : nat -> Q)
         (title content : string) (decay : Q),
    let topics :=
      extract_topics_from_experience keyword_lookup findall_count
        captured_terms math_log title content decay in
    StronglySorted
      (fun a b =>
         (weighted_importance (snd b) <= weighted_importance (snd a))%Q)
      topics /\
    NoDup (List.map fst topics) /\
    Forall (fun kd => category (snd kd) = fst (fst kd) /\
                      topic_name (snd kd) = snd (fst kd)) topics.
Proof.
  intros keyword_lookup findall_count captured_terms math_log title content
    decay topics.
  unfold topics, extract_topics_from_experience.
  destruct (String.eqb content EmptyString).
  { split; [constructor |]. split; constructor. }
  set (text := _preprocess_text _).
  set (merged := _merge_topic_extractions _).
  destruct (calculate_topic_scores_spec math_log merged text decay)
    as [Hperm Hsorted].
  split; [exact Hsorted |]. split.
  - rewrite (calculate_topic_scores_keys math_log merged text decay).
    unfold merged, _merge_topic_extractions. simpl.
    do 3 apply merge_into_NoDup. constructor.
  - apply List.Forall_forall. intros kd Hin.
    apply (Permutation_in _ Hperm) in Hin. apply in_map_iff in Hin.
    destruct Hin as ([key count] & <- & _). split; reflexivity.
Qed.

(** X18.  The three passes add up.  A topic is reported for an
    experience exactly when the keyword pass, the context pass or the
    pattern pass found it, and its raw count is the sum of the counts
    of the three passes. *)
Theorem raw_count_adds_the_three_passes :
  forall (keyword_lookup : list (string * topic_key))
         (findall_count : string -> string -> nat)
         (captured_terms : string -> string -> list string)
         (math_log : nat -> Q)
         (title content : string) (decay : Q) (key : topic_key),
    let text := _preprocess_text (title ++ " " ++ content) in
    let found :=
      count_of key (_extract_by_keywords keyword_lookup text)
      + count_of key (_extract_by_context keyword_lookup captured_terms text)
      + count_of key (_extract_by_patterns findall_count text) in
    let topics :=
      extract_topics_from_experience keyword_lookup findall_count
        captured_terms math_log title content decay in
    (forall data, In (key, data) topics -> raw_count data = found) /\
    (content <> EmptyString -> 0 < found ->
     exists data, In (key, data) topics).
Proof.
  intros keyword_lookup findall_count captured_terms math_log title content
    decay key text found topics.
  unfold topics, extract_topics_from_experience.
  destruct (String.eqb_spec content EmptyString) as [Hempty | Hcontent].
  { split; [intros data [] | intros H; contradiction]. }
  fold text.
  set (kw := _extract_by_keywords keyword_lookup text) in *.
  set (ctx := _extract_by_context keyword_lookup captured_terms text) in *.
  set (pat := _extract_by_patterns findall_count text) in *.
  set (merged := _merge_topic_extractions [kw; ctx; pat]).
  assert (Hnd : NoDup (List.map fst merged)).
  { unfold merged, _merge_topic_extractions. simpl.
    do 3 apply merge_into_NoDup. constructor. }
  assert (Hcount : count_of key merged = found).
  { unfold merged, _merge_topic_extractions, found. simpl.
    rewrite !count_of_merge_into; [reflexivity | ..];
      unfold kw, ctx, pat;
      first [ apply extract_by_keywords_NoDup
            | apply extract_by_context_NoDup
            | apply extract_by_patterns_NoDup ]. }
  destruct (calculate_topic_scores_spec math_log merged text decay)
    as [Hperm _].
  split.
  - intros data Hin. apply (Permutation_in _ Hperm) in Hin.
    apply in_map_iff in Hin. destruct Hin as ([k count] & Heq & Hin).
    injection Heq as -> <-. simpl. rewrite <- Hcount.
    clear - Hnd Hin. induction merged as [| [k m] rest IH]; [destruct Hin |].
    simpl in *. apply NoDup_cons in Hnd. destruct Hnd as [Hk Hnd].
    destruct Hin as [Heq | Hin].
    + injection Heq as -> ->. rewrite key_eqb_refl. reflexivity.
    + destruct (key_eqb k key) eqn:E; [| apply IH; assumption].
      apply key_eqb_eq in E. subst k. exfalso. apply Hk.
      apply list_elem_of_In, in_map_iff. exists (key, count).
      split; [reflexivity | exact Hin].
  - intros _ Hpos. rewrite <- Hcount in Hpos.
    assert (Hin : In key (List.map fst merged)).
    { destruct (decide (key ∈ (List.map fst merged : list (string * string))))
        as [H | H]; [apply list_elem_of_In, H |].
      rewrite (count_of_missing key merged) in Hpos; [lia |].
      intros Hin. apply H, list_elem_of_In, Hin. }
    apply in_map_iff in Hin. destruct Hin as ([k count] & Heq & Hin).
    simpl in Heq. subst k.
    exists (score_topic math_log text decay key count).
    apply (Permutation_in _ (Permutation_sym Hperm)).
    apply in_map_iff. exists (key, count). split; [reflexivity | exact Hin].
Qed.

(** X19.  The overall confidence of an analysis,
    [_calculate_overall_confidence] of the reported topics, lies between
    0 and 1; it is 0 when no topic is reported. *)
Theorem overall_confidence_is_bounded :
  forall (keyword_lookup : list (string * topic_key))
         (findall_count : string -> string -> nat)
         (captured_terms : string -> string -> list string)
         (math_log : nat -> Q)
         (title content : string) (decay : Q),
    let topics :=
      extract_topics_from_experience keyword_lookup findall_count
        captured_terms math_log title content decay in
    (0 <= _calculate_overall_confidence topics)%Q /\
    (_calculate_overall_confidence topics <= 1)%Q /\
    (topics = [] -> _calculate_overall_confidence topics = 0%Q).
Proof.
  intros keyword_lookup findall_count captured_terms math_log title content
    decay topics.
  assert (Hall : Forall (fun x => (0 <= x /\ x <= 1)%Q)
                   (List.map (fun kd => confidence (snd kd)) topics)).
  { apply List.Forall_map, List.Forall_forall. intros kd Hin.
    unfold topics, extract_topics_from_experience in Hin.
    destruct (String.eqb content EmptyString); [destruct Hin |].
    match type of Hin with
    | In _ (_calculate_topic_scores _ ?m ?t _) =>
        destruct (calculate_topic_scores_spec math_log m t decay)
          as [Hperm _]
    end.
    apply (Permutation_in _ Hperm) in Hin. apply in_map_iff in Hin.
    destruct Hin as ([key count] & <- & _). simpl.
    unfold _calculate_topic_confidence.
    match goal with
    | |- context [topic_frequency ?t ?c] =>
        destruct (confidence_unrounded_unit c (topic_frequency t c)
                    (frequency_nonneg _ _)) as [H0 H1]
    end.
    apply round2_unit; assumption. }
  clearbody topics. unfold _calculate_overall_confidence.
  destruct topics as [| kd rest].
  { split; [qlra |]. split; [qlra | reflexivity]. }
  assert (Hne : List.map (fun kd => confidence (snd kd)) (kd :: rest) <> [])
    by discriminate.
  destruct (mean_unit _ Hne Hall) as [H0 H1].
  destruct (round2_unit _ H0 H1) as [Hr0 Hr1].
  split; [exact Hr0 |]. split; [exact Hr1 |]. intros H. discriminate.
Qed.

End TopicScoresProperties.

(* ===================================================================== *)
(** * Interview rounds and difficulty *)
(* ===================================================================== *)

Section RoundsFacts.
Import PyFloat PyStr PyRound TopicExtractor TopicAnalysis.
Local Open Scope nat_scope.

(** The confidence [min(score / 3.0, 1.0)] of a round with a positive
    score. *)
Lemma round_confidence_spec (n : nat) :
  1 <= n ->
  let c := pymin (inject_Z (Z.of_nat n) / 3) 1 in
  ((1 # 3) <= c)%Q /\ (c <= 1)%Q /\
  (Qltb (5 # 10) c = true <-> 2 <= n) /\
  ((c == 1)%Q <-> 3 <= n).
Proof.
  intros Hn c. subst c.
  assert (H1 : (inject_Z 1 <= inject_Z (Z.of_nat n))%Q)
    by (rewrite <- Zle_Qle; lia).
  assert (Hcases : n = 1 \/ n = 2 \/ 3 <= n) by lia.
  assert (H3 : 3 <= n -> (inject_Z 3 <= inject_Z (Z.of_nat n))%Q)
    by (intros H; rewrite <- Zle_Qle; lia).
  unfold pymin.
  destruct (Qltb 1 (inject_Z (Z.of_nat n) / 3)) eqn:E;
    [apply Qltb_true in E | apply Qltb_false in E].
  - assert (Hn3 : 3 <= n).
    { destruct Hcases as [-> | [-> | H]]; [| | exact H];
        exfalso; revert E; vm_compute; discriminate. }
    split; [qlra |]. split; [qlra |]. split.
    + split; [lia | intros _; reflexivity].
    + split; [intros _; exact Hn3 | reflexivity].
  - split.
    { revert H1. unfold inject_Z at 1.
      generalize (inject_Z (Z.of_nat n)). intros z Hz. qlra. }
    split; [exact E |]. split.
    + rewrite Qltb_true. split.
      * intros H. destruct Hcases as [-> | [-> | H']]; [| lia | lia].
        exfalso. revert H. vm_compute. discriminate.
      * intros H.
        assert (H2 : (inject_Z 2 <= inject_Z (Z.of_nat n))%Q)
          by (rewrite <- Zle_Qle; lia).
        revert H2. unfold inject_Z at 1.
        generalize (inject_Z (Z.of_nat n)). intros z Hz. qlra.
    + split.
      * intros H. destruct Hcases as [-> | [-> | H']]; [| | exact H'];
          exfalso; revert H; vm_compute; discriminate.
      * intros H. specialize (H3 H). revert H3 E. unfold inject_Z at 1.
        generalize (inject_Z (Z.of_nat n)). intros z Hz E.
        apply Qle_antisym; qlra.
Qed.

End RoundsFacts.

Section RoundsProperties.
Import PyFloat PyStr PyRound TopicExtractor TopicAnalysis.
Local Open Scope nat_scope.

(** X20.  [_classify_interview_rounds] reports a round type only when
    one of its keywords occurs in the text, the round types in their
    fixed order and none twice.  The score of an entry is the number of
    keyword matches, at least one; its confidence [min(score / 3, 1)] is
    at least one third and reaches 1 at three matches; and the test
    "confidence above 0.5" under which [_analyze_interview_process]
    counts the round holds exactly from two matches on. *)
Theorem interview_rounds_need_a_keyword :
  forall text : string,
    let rounds := _classify_interview_rounds text in
    sublist (List.map fst rounds) (List.map fst round_types) /\
    Forall
      (fun entry : string * round_info =>
         let info := snd entry in
         (exists keywords,
             In (fst entry, keywords) round_types /\
             score info = round_score keywords text) /\
         1 <= score info /\
         ((1 # 3) <= round_confidence info)%Q /\
         (round_confidence info <= 1)%Q /\
         ((round_confidence info == 1)%Q <-> 3 <= score info) /\
         (counts_as_round info = true <-> 2 <= score info))
      rounds.
Proof.
  intros text rounds. unfold rounds, _classify_interview_rounds.
  generalize round_types. intros types.
  induction types as [| [round_type keywords] rest [IHsub IHall]]; simpl.
  - split; constructor.
  - destruct (0 <? round_score keywords text) eqn:E; simpl.
    + apply Nat.ltb_lt in E. split; [apply sublist_skip, IHsub |].
      constructor.
      * simpl.
        destruct (round_confidence_spec (round_score keywords text)
                    ltac:(lia)) as (Hlo & Hhi & Hcount & Hone).
        split; [exists keywords; split; [left; reflexivity | reflexivity] |].
        split; [lia |]. split; [exact Hlo |]. split; [exact Hhi |].
        split; [exact Hone | exact Hcount].
      * eapply List.Forall_impl; [| exact IHall]. simpl.
        intros entry ((kws & Hin & Hscore) & Hrest).
        split; [exists kws; split; [right; exact Hin | exact Hscore] |].
        exact Hrest.
    + split; [apply sublist_cons, IHsub |].
      eapply List.Forall_impl; [| exact IHall]. simpl.
      intros entry ((kws & Hin & Hscore) & Hrest).
      split; [exists kws; split; [right; exact Hin | exact Hscore] |].
      exact Hrest.
Qed.

(** X21.  [_assess_difficulty] answers "unknown", with confidence 0,
    exactly when no difficulty pattern matches.  Otherwise the level it
    names has the largest number of matches, a level named after "easy"
    in the order easy, medium, hard has strictly more matches than every
    level before it, and the confidence (the share of the matches that
    speak for the level, rounded) lies between 0.33 and 1. *)
Theorem difficulty_follows_the_most_matches :
  forall (findall_count : string -> string -> nat) (text : string),
    let a := _assess_difficulty findall_count text in
    let total := breakdown a easy + breakdown a medium + breakdown a hard in
    (forall d, breakdown a d = difficulty_score findall_count text d) /\
    (overall_difficulty a = None <-> total = 0) /\
    (overall_difficulty a = None -> (assessment_confidence a == 0)%Q) /\
    forall d,
      overall_difficulty a = Some d ->
      (forall d', breakdown a d' <= breakdown a d) /\
      (d = medium -> breakdown a easy < breakdown a medium) /\
      (d = hard -> breakdown a easy < breakdown a hard /\
                   breakdown a medium < breakdown a hard) /\
      ((33 # 100) <= assessment_confidence a)%Q /\
      (assessment_confidence a <= 1)%Q.
Proof.
  intros findall_count text a total. subst a total.
  unfold _assess_difficulty.
  set (scores := difficulty_score findall_count text).
  destruct (scores easy + scores medium + scores hard =? 0) eqn:Etotal; simpl.
  - apply Nat.eqb_eq in Etotal.
    split; [reflexivity |]. split; [tauto |].
    split; [intros _; vm_compute; reflexivity | intros d H; discriminate].
  - apply Nat.eqb_neq in Etotal.
    split; [reflexivity |].
    split; [split; [discriminate | intros H; contradiction] |].
    split; [discriminate |].
    intros d Hd. injection Hd as <-.
    assert (Hmax :
      (forall d', scores d' <= scores (max_by_score scores)) /\
      (max_by_score scores = medium -> scores easy < scores medium) /\
      (max_by_score scores = hard ->
       scores easy < scores hard /\ scores medium < scores hard)).
    { unfold max_by_score. simpl.
      destruct (scores easy <? scores medium) eqn:E1;
        [apply Nat.ltb_lt in E1 | apply Nat.ltb_ge in E1];
        match goal with
        | |- context [if ?b then _ else _] => destruct b eqn:E2
        end;
        [apply Nat.ltb_lt in E2 | apply Nat.ltb_ge in E2
         | apply Nat.ltb_lt in E2 | apply Nat.ltb_ge in E2];
        (split; [intros [| |]; lia |]);
        (split; [intros H; try discriminate; lia |]);
        intros H; try discriminate; lia. }
    destruct Hmax as (Hall & Hmedium & Hhard).
    split; [exact Hall |]. split; [exact Hmedium |]. split; [exact Hhard |].
    set (s := scores (max_by_score scores)) in *.
    assert (Hs : scores easy + scores medium + scores hard <= 3 * s)
      by (pose proof (Hall easy); pose proof (Hall medium);
          pose proof (Hall hard); lia).
    assert (Hle : s <= scores easy + scores medium + scores hard).
    { unfold s. destruct (max_by_score scores); lia. }
    set (t := scores easy + scores medium + scores hard) in *.
    assert (Ht : (0 < inject_Z (Z.of_nat t))%Q)
      by (change 0%Q with (inject_Z 0); rewrite <- Zlt_Qlt; lia).
    assert (Hs' : (inject_Z (Z.of_nat t) <= 3 * inject_Z (Z.of_nat s))%Q).
    { change 3%Q with (inject_Z 3). rewrite <- inject_Z_mult, <- Zle_Qle.
      lia. }
    assert (Hle' : (inject_Z (Z.of_nat s) <= inject_Z (Z.of_nat t))%Q)
      by (rewrite <- Zle_Qle; lia).
    split.
    + apply (round2_ge _ 33). apply Qle_shift_div_l; [exact Ht |].
      change (inject_Z 33) with 33%Q. revert Ht Hs' Hle'.
      generalize (inject_Z (Z.of_nat t)), (inject_Z (Z.of_nat s)).
      intros T S HT HS HL. qlra.
    + apply round2_unit.
      * apply Qle_shift_div_l; [exact Ht |].
        revert Ht Hs' Hle'.
        generalize (inject_Z (Z.of_nat t)), (inject_Z (Z.of_nat s)).
        intros T S HT HS HL. qlra.
      * apply Qle_shift_div_r; [exact Ht |].
        revert Ht Hs' Hle'.
        generalize (inject_Z (Z.of_nat t)), (inject_Z (Z.of_nat s)).
        intros T S HT HS HL. qlra.
Qed.

End RoundsProperties.
(* ===================================================================== *)
(** * Priorities, the order of the topic insights, and the confidence *)
(* ===================================================================== *)

Section InsightOrderFacts.
Import PyFloat PyRound Insights InsightStats.
Local Open Scope Q_scope.

Lemma add_sample_keys (key : topic_key) (f i c : Q) (g : groups) :
  List.map fst (add_sample key f i c g) =
  if existsb (fun ks => TopicExtractor.key_eqb (fst ks) key) g
  then List.map fst g else (List.map fst g ++ [key])%list.
Proof.
  induction g as [| [k s] rest IH]; simpl; [reflexivity |].
  destruct (TopicExtractor.key_eqb k key); simpl; [reflexivity |].
  rewrite IH.
  match goal with
  | |- context [existsb ?p rest] => destruct (existsb p rest)
  end; reflexivity.
Qed.

Lemma add_sample_NoDup (key : topic_key) (f i c : Q) (g : groups) :
  NoDup (List.map fst g) -> NoDup (List.map fst (add_sample key f i c g)).
Proof.
  intros Hnd. rewrite add_sample_keys.
  match goal with
  | |- context [existsb ?p g] => destruct (existsb p g) eqn:E
  end; [exact Hnd |].
  apply NoDup_app. split; [exact Hnd |]. split; [| apply NoDup_singleton].
  intros x Hx Hin. apply list_elem_of_In in Hx.
  apply list_elem_of_In in Hin. destruct Hin as [<- | []].
  apply in_map_iff in Hx. destruct Hx as ([k s] & Heq & Hks).
  simpl in Heq. subst k.
  assert (Hex : existsb (fun ks => TopicExtractor.key_eqb (fst ks) key) g
                = true).
  { apply existsb_exists. exists (key, s).
    split; [exact Hks | apply key_eqb_refl]. }
  congruence.
Qed.

Lemma add_sample_sampled (key : topic_key) (f i c : Q) (g : groups) :
  sampled g -> sampled (add_sample key f i c g).
Proof.
  unfold sampled. induction g as [| [k s] rest IH]; intros Hall; simpl.
  - constructor; [simpl; lia | constructor].
  - apply Forall_cons in Hall. destruct Hall as [Hs Hrest].
    destruct (TopicExtractor.key_eqb k key).
    + constructor; [| exact Hrest]. simpl. rewrite length_app. simpl. lia.
    + constructor; [exact Hs | apply IH, Hrest].
Qed.

Lemma collect_groups (analyses : list analysis) :
  NoDup (List.map fst (snd (collect analyses))) /\
  sampled (snd (collect analyses)).
Proof.
  unfold collect.
  assert (H : forall acc : Q * groups,
             NoDup (List.map fst (snd acc)) /\ sampled (snd acc) ->
             NoDup (List.map fst
                      (snd (fold_left collect_analysis analyses acc))) /\
             sampled (snd (fold_left collect_analysis analyses acc))).
  { induction analyses as [| a rest IH]; intros acc Hacc; simpl;
      [exact Hacc |].
    apply IH. unfold collect_analysis. simpl.
    generalize (snd acc), Hacc. clear.
    induction (topics a) as [| [key data] more IH]; intros g Hg; simpl;
      [exact Hg |].
    apply IH. destruct Hg as [Hnd Hs].
    split; [apply add_sample_NoDup, Hnd | apply add_sample_sampled, Hs]. }
  apply H. simpl. split; constructor.
Qed.

Lemma rollup_all_keys (analyses : list analysis) (total_weight : Q) :
  forall (g : groups) (insights : list (topic_key * topic_insight)),
    rollup_all analyses total_weight g = Returned insights ->
    List.map fst insights = List.map fst g /\
    (sampled g ->
     Forall (fun ki => (1 <= mentions_count (snd ki))%nat) insights).
Proof.
  induction g as [| [key s] rest IH]; intros insights H; simpl in H.
  - injection H as <-. split; [reflexivity | constructor].
  - destruct (rollup analyses total_weight key s) as [insight |] eqn:E;
      [| discriminate].
    destruct (rollup_all analyses total_weight rest) as [more |];
      [| discriminate].
    injection H as <-. destruct (IH more eq_refl) as [Hkeys Hcount].
    split; [simpl; rewrite Hkeys; reflexivity |].
    intros Hs. apply Forall_cons in Hs. destruct Hs as [Hs Hrest].
    constructor; [| apply Hcount, Hrest].
    unfold rollup in E. destruct (Qeq_bool total_weight 0); [discriminate |].
    destruct (negb _); [discriminate |].
    injection E as <-. exact Hs.
Qed.

(** In a list sorted by decreasing key, nothing behind the first [n]
    entries has a larger key than one of them. *)
Lemma sorted_firstn_skipn {A : Type} (key : A -> Q) (n : nat) (l : list A)
    (x y : A) :
  StronglySorted (fun a b => key b <= key a) l ->
  In x (firstn n l) -> In y (skipn n l) -> key y <= key x.
Proof.
  intros Hsorted. revert n.
  induction Hsorted as [| z l Hs IH Hall]; intros n Hx Hy.
  - destruct n; destruct Hx.
  - destruct n as [| n]; [destruct Hx |]. simpl in Hx, Hy.
    destruct Hx as [<- | Hx].
    + rewrite List.Forall_forall in Hall. apply Hall.
      rewrite <- (List.firstn_skipn n l). apply in_or_app. right. exact Hy.
    + apply (IH n); assumption.
Qed.

End InsightOrderFacts.

Section ConfidenceFacts.
Import PyFloat PyRound Insights InsightStats.
Local Open Scope Q_scope.

(** The test [avg_topics_per_exp >= k] in whole numbers. *)
Lemma average_at_least (k n t : nat) :
  (1 <= k)%nat ->
  Qle_bool (inject_Z (Z.of_nat k))
    (if (0 <? n)%nat then inject_Z (Z.of_nat t) / inject_Z (Z.of_nat n)
     else 0) = true
  <-> (0 < n /\ k * n <= t)%nat.
Proof.
  intros Hk. rewrite Qle_bool_iff.
  destruct (0 <? n)%nat eqn:E.
  - apply Nat.ltb_lt in E.
    assert (Hn : 0 < inject_Z (Z.of_nat n))
      by (change 0 with (inject_Z 0); rewrite <- Zlt_Qlt; lia).
    split.
    + intros H. split; [exact E |].
      apply (Qmult_le_compat_r _ _ (inject_Z (Z.of_nat n))) in H;
        [| apply Qlt_le_weak, Hn].
      unfold Qdiv in H. rewrite <- Qmult_assoc in H.
      rewrite (Qmult_comm (/ _)), Qmult_inv_r, Qmult_1_r in H
        by (intros H0; rewrite H0 in Hn; apply (Qlt_irrefl 0), Hn).
      rewrite <- inject_Z_mult, <- Zle_Qle in H. lia.
    + intros [_ H]. apply Qle_shift_div_l; [exact Hn |].
      rewrite <- inject_Z_mult, <- Zle_Qle. lia.
  - apply Nat.ltb_ge in E. split.
    + intros H. exfalso.
      assert (H1 : inject_Z 1 <= inject_Z (Z.of_nat k))
        by (rewrite <- Zle_Qle; lia).
      revert H H1. unfold inject_Z at 2.
      generalize (inject_Z (Z.of_nat k)). intros q H H1. qlra.
    + intros [H _]. lia.
Qed.

End ConfidenceFacts.

Section InsightOrderProperties.
Import PyFloat PyRound Insights InsightStats.
Local Open Scope Q_scope.

(** X22.  The priority level never falls when the weighted frequency,
    the average importance or the average confidence of a topic
    rises. *)
Theorem priority_is_monotone :
  forall (f i c f' i' c' : Q),
    f <= f' -> i <= i' -> c <= c' ->
    (priority_rank (_determine_priority_level f i c)
     <= priority_rank (_determine_priority_level f' i' c'))%nat.
Proof.
  intros f i c f' i' c' Hf Hi Hc.
  destruct (priority_cases f i c) as (Hh & Hm & Hl).
  destruct (priority_cases f' i' c') as (Hh' & Hm' & Hl').
  simpl in Hh, Hm, Hl, Hh', Hm', Hl'.
  destruct (_determine_priority_level f i c) eqn:E;
    destruct (_determine_priority_level f' i' c') eqn:E';
    simpl; try lia; exfalso.
  - destruct (proj1 Hh eq_refl) as [Hs Hconf].
    destruct (proj1 Hm' eq_refl) as [Hnot _]. apply Hnot. split; qlra.
  - destruct (proj1 Hh eq_refl) as [Hs Hconf].
    destruct (proj1 Hl' eq_refl) as [Hnot _]. apply Hnot. split; qlra.
  - destruct (proj1 Hm eq_refl) as (_ & Hs & Hconf).
    destruct (proj1 Hl' eq_refl) as [_ Hnot]. apply Hnot. split; qlra.
Qed.

Lemma priority_is_monotone_witness :
  (priority_rank (_determine_priority_level 10 5 (1 # 2))
   <= priority_rank (_determine_priority_level 20 10 (8 # 10)))%nat.
Proof.
  apply priority_is_monotone; apply Qle_bool_iff; reflexivity.
Defined.

(** X23.  What [_generate_topic_insights] returns is ranked: the
    detailed topics come by decreasing weighted frequency, no topic
    twice, each mentioned by at least one experience; the top five are
    the first five of them (all of them when there are fewer), so no
    topic outside the top five has a larger weighted frequency than one
    inside; and the high-priority list holds exactly the topics whose
    level is HIGH. *)
Theorem topic_insights_are_ranked :
  forall (analyses : list analysis) (ti : topic_insights),
    _generate_topic_insights analyses = Returned ti ->
    StronglySorted
      (fun a b => weighted_frequency (snd b) <= weighted_frequency (snd a))
      (detailed_topics ti) /\
    NoDup (List.map fst (detailed_topics ti)) /\
    Forall (fun ki => (1 <= mentions_count (snd ki))%nat)
      (detailed_topics ti) /\
    length (top_5_topics ti) = Nat.min 5 (length (detailed_topics ti)) /\
    (forall (k k' : topic_key) (d d' : topic_insight),
        In (k, d) (detailed_topics ti) ->
        In (k', d') (detailed_topics ti) ->
        In k' (top_5_topics ti) -> ~ In k (top_5_topics ti) ->
        weighted_frequency d <= weighted_frequency d') /\
    (forall k : topic_key,
        In k (high_priority_topics ti) <->
        exists d, In (k, d) (detailed_topics ti) /\ priority_level d = HIGH).
Proof.
  intros analyses ti. unfold _generate_topic_insights.
  pose proof (collect_groups analyses) as Hgroups.
  destruct (collect analyses) as [total_weight g]. simpl in Hgroups.
  destruct Hgroups as [Hnd Hsampled].
  destruct (rollup_all analyses total_weight g) as [insights |] eqn:E;
    [| discriminate].
  intros H. injection H as <-. simpl.
  destruct (rollup_all_keys _ _ _ _ E) as [Hkeys Hcount].
  set (key := fun ki : topic_key * topic_insight =>
                weighted_frequency (snd ki)).
  set (sorted := sorted_desc key insights).
  assert (Hsorted : StronglySorted (fun a b => key b <= key a) sorted)
    by apply sorted_desc_sorted.
  assert (Hdistinct : NoDup (List.map fst sorted)).
  { unfold sorted. rewrite (Permutation_map fst (sorted_desc_perm key insights)).
    rewrite Hkeys. exact Hnd. }
  split; [exact Hsorted |]. split; [exact Hdistinct |].
  split; [apply sorted_desc_Forall, Hcount, Hsampled |].
  split; [rewrite List.length_firstn, List.length_map; reflexivity |].
  split.
  - intros k k' d d' Hd Hd' Htop Hout.
    rewrite List.firstn_map in Htop, Hout.
    apply in_map_iff in Htop. destruct Htop as ([k2 d2] & Hk2 & Hfirst).
    simpl in Hk2. subst k2.
    assert (Hin2 : In (k', d2) sorted).
    { rewrite <- (List.firstn_skipn 5 sorted). apply in_or_app. left.
      exact Hfirst. }
    assert (Heq : (k', d2) = (k', d'))
      by (apply (NoDup_map_injective fst sorted); auto).
    injection Heq as ->.
    assert (Hlast : In (k, d) (skipn 5 sorted)).
    { rewrite <- (List.firstn_skipn 5 sorted) in Hd.
      apply in_app_or in Hd. destruct Hd as [Hd | Hd]; [| exact Hd].
      exfalso. apply Hout. apply in_map_iff. exists (k, d).
      split; [reflexivity | exact Hd]. }
    apply (sorted_firstn_skipn key 5 sorted (k', d') (k, d) Hsorted Hfirst
             Hlast).
  - intros k. rewrite in_map_iff. split.
    + intros ([k1 d] & Hk & Hin). simpl in Hk. subst k1.
      apply List.filter_In in Hin. destruct Hin as [Hin Hhigh].
      exists d. split; [exact Hin |]. simpl in Hhigh.
      destruct (priority_level d); [reflexivity | discriminate | discriminate].
    + intros (d & Hin & Hhigh). exists (k, d). split; [reflexivity |].
      apply List.filter_In. split; [exact Hin |]. simpl. rewrite Hhigh.
      reflexivity.
Qed.

Lemma topic_insights_are_ranked_witness :
  match _generate_topic_insights
          (List.map (analyse sample_extractor) sample_experiences) with
  | Returned ti =>
      NoDup (List.map fst (detailed_topics ti)) /\
      length (top_5_topics ti) = Nat.min 5 (length (detailed_topics ti))
  | ZeroDivisionError => False
  end.
Proof.
  destruct (_generate_topic_insights
              (List.map (analyse sample_extractor) sample_experiences))
    as [ti |] eqn:E.
  - destruct (topic_insights_are_ranked _ _ E) as (_ & Hnd & _ & Hlen & _).
    split; [exact Hnd | exact Hlen].
  - vm_compute in E. discriminate.
Defined.

(** X24.  The confidence [_calculate_statistical_confidence] attaches to
    a report.  The overall score lies between 0.3 and 0.9.  The level is
    "high" exactly when there are at least 20 experiences averaging at
    least 2 topics, at least 10 averaging at least 3, or at least 5
    averaging at least 5; it is "low" exactly when there are fewer than
    5 experiences averaging fewer than 3 topics or fewer than 10
    averaging fewer than 2.  So a report on fewer than 5 experiences is
    never rated "high". *)
Theorem statistical_confidence_levels :
  forall analyses : list analysis,
    let r := _calculate_statistical_confidence analyses in
    let n := length analyses in
    ((3 # 10) <= overall_score r /\ overall_score r <= (9 # 10)) /\
    (confidence_level r = "high"%string <->
       (20 <= n)%nat /\ averages_at_least 2 analyses \/
       (10 <= n)%nat /\ averages_at_least 3 analyses \/
       (5 <= n)%nat /\ averages_at_least 5 analyses) /\
    (confidence_level r = "low"%string <->
       (n < 5)%nat /\ ~ averages_at_least 3 analyses \/
       (n < 10)%nat /\ ~ averages_at_least 2 analyses) /\
    ((n < 5)%nat -> confidence_level r <> "high"%string).
Proof.
  intros analyses r n. subst r. unfold _calculate_statistical_confidence.
  fold n. unfold averages_at_least. fold n.
  set (t := total_topics analyses).
  pose proof (average_at_least 5 n t ltac:(lia)) as H5.
  pose proof (average_at_least 3 n t ltac:(lia)) as H3.
  pose proof (average_at_least 2 n t ltac:(lia)) as H2.
  change (inject_Z (Z.of_nat 5)) with 5 in H5.
  change (inject_Z (Z.of_nat 3)) with 3 in H3.
  change (inject_Z (Z.of_nat 2)) with 2 in H2.
  set (avg := if (0 <? n)%nat
              then inject_Z (Z.of_nat t) / inject_Z (Z.of_nat n) else 0) in *.
  assert (Hmono : (5 * n <= t -> 3 * n <= t)%nat /\
                  (3 * n <= t -> 2 * n <= t)%nat) by (split; lia).
  destruct (Qle_bool 5 avg);
    [| destruct (Qle_bool 3 avg); [| destruct (Qle_bool 2 avg)]];
    (destruct (20 <=? n)%nat eqn:E20;
     [apply Nat.leb_le in E20
     | apply Nat.leb_gt in E20;
       destruct (10 <=? n)%nat eqn:E10;
       [apply Nat.leb_le in E10
       | apply Nat.leb_gt in E10;
         destruct (5 <=? n)%nat eqn:E5;
         [apply Nat.leb_le in E5 | apply Nat.leb_gt in E5]]]);
    cbn [overall_score confidence_level];
    (split; [split; apply Qle_bool_iff; vm_compute; reflexivity |]);
    match goal with
    | |- context [Qle_bool (7 # 10) ?x] =>
        let b := eval vm_compute in (Qle_bool (7 # 10) x) in
        change (Qle_bool (7 # 10) x) with b
    end;
    try match goal with
    | |- context [Qle_bool (5 # 10) ?x] =>
        let b := eval vm_compute in (Qle_bool (5 # 10) x) in
        change (Qle_bool (5 # 10) x) with b
    end;
    cbv iota;
    repeat match goal with
           | H : _ = true <-> _ |- _ =>
               first [ pose proof (proj1 H eq_refl); clear H
                     | let Hn := fresh "Hn" in
                       assert (Hn : ~ _)
                         by (intros Hc; apply (proj2 H) in Hc; discriminate);
                       clear H ]
           end;
    (split; [split; [first [discriminate | intros _; lia]
                    | first [intros _; reflexivity
                            | intros Hc; exfalso; lia]] |]);
    (split; [split; [first [discriminate | intros _; lia]
                    | first [intros _; reflexivity
                            | intros Hc; exfalso; lia]] |]);
    first [intros _; discriminate | intros Hc; exfalso; lia].
Qed.

End InsightOrderProperties.
(* ===================================================================== *)
(** * The analysis stage *)
(* ===================================================================== *)

Section AnalysisStageFacts.
Import Pipeline PipelineQueries AnalysisStage.
Local Open Scope string_scope.
Local Open Scope nat_scope.

Variable extract_topics :
  string -> string -> TimeUtils.datetime ->
  list (TopicExtractor.topic_key * TopicExtractor.topic_data).
Variable checked_at stored_at : nat -> TimeUtils.datetime.

Lemma find_by_id_middle (pre rest : list InterviewExperience)
    (e : InterviewExperience) :
  ~ In (id e) (List.map id pre) ->
  find (fun x => id x =? id e) (pre ++ e :: rest) = Some e.
Proof.
  induction pre as [| x pre IH]; simpl; intros Hnot.
  - rewrite Nat.eqb_refl. reflexivity.
  - destruct (Nat.eqb_spec (id x) (id e)) as [Heq | Hne].
    + exfalso. apply Hnot. left. exact Heq.
    + apply IH. intros Hin. apply Hnot. right. exact Hin.
Qed.

Lemma mark_processed_middle (pre rest : list InterviewExperience)
    (e : InterviewExperience) (now : TimeUtils.datetime) :
  ~ In (id e) (List.map id pre) ->
  mark_processed (id e) now (pre ++ e :: rest) =
  (pre ++ set_processed now e :: rest)%list.
Proof.
  induction pre as [| x pre IH]; simpl; intros Hnot.
  - rewrite Nat.eqb_refl. reflexivity.
  - destruct (Nat.eqb_spec (id x) (id e)) as [Heq | Hne].
    + exfalso. apply Hnot. left. exact Heq.
    + f_equal. apply IH. intros Hin. apply Hnot. right. exact Hin.
Qed.

Lemma analysed_row_id (company_name : string) (d : database)
    (e : InterviewExperience) :
  id (analysed_row extract_topics checked_at stored_at company_name d e)
  = id e.
Proof. unfold analysed_row. destruct (analysed _ _ _ _ _); reflexivity. Qed.

Lemma analysed_rows_ids (company_name : string) (d : database)
    (rows : list InterviewExperience) :
  List.map id
    (List.map (analysed_row extract_topics checked_at stored_at
                 company_name d) rows)
  = List.map id rows.
Proof.
  rewrite List.map_map. apply List.map_ext. intros e.
  apply analysed_row_id.
Qed.

(** The loop of the stage over the rows still to be visited, [pre] being
    the rows already passed. *)
Lemma analyse_loop (company_name : string) (d0 : database) :
  forall (rows pre : list InterviewExperience) (st : store),
    NoDup (List.map id (pre ++ rows)) ->
    experiences (db st) =
      (List.map (analysed_row extract_topics checked_at stored_at
                   company_name d0) pre ++ rows)%list ->
    let st' :=
      fold_left (analyse_experience extract_topics checked_at stored_at)
        (List.filter (joins company_name d0) rows) st in
    experiences (db st') =
      List.map (analysed_row extract_topics checked_at stored_at
                  company_name d0) (pre ++ rows) /\
    companies (db st') = companies (db st) /\
    mentions st' =
      (mentions st ++
       flat_map (analysed_mentions extract_topics checked_at
                   company_name d0) rows)%list.
Proof.
  set (G := analysed_row extract_topics checked_at stored_at company_name d0).
  set (M := analysed_mentions extract_topics checked_at company_name d0).
  induction rows as [| e rest IH]; intros pre st Hnd Hrows.
  - simpl. rewrite !app_nil_r in *.
    split; [exact Hrows | split; reflexivity].
  - assert (Hfresh : ~ In (id e) (List.map id (List.map G pre))).
    { unfold G. rewrite analysed_rows_ids. intros Hin.
      rewrite List.map_app in Hnd. simpl in Hnd.
      apply NoDup_app in Hnd. destruct Hnd as (_ & Hdisjoint & _).
      apply (Hdisjoint (id e)); [apply list_elem_of_In, Hin |].
      apply list_elem_of_In. left. reflexivity. }
    assert (Hnd' : NoDup (List.map id ((pre ++ [e]) ++ rest)))
      by (rewrite <- app_assoc; exact Hnd).
    assert (Hskip :
      forall st1 : store,
        experiences (db st1) = (List.map G pre ++ G e :: rest)%list ->
        companies (db st1) = companies (db st) ->
        mentions st1 = (mentions st ++ M e)%list ->
        let st' :=
          fold_left (analyse_experience extract_topics checked_at stored_at)
            (List.filter (joins company_name d0) rest) st1 in
        experiences (db st') = List.map G (pre ++ e :: rest) /\
        companies (db st') = companies (db st) /\
        mentions st' = (mentions st ++ M e ++ flat_map M rest)%list).
    { intros st1 Hexp Hcomp Hment.
      destruct (IH (pre ++ [e])%list st1 Hnd') as (H1 & H2 & H3).
      - rewrite List.map_app, <- app_assoc. exact Hexp.
      - rewrite <- app_assoc in H1. split; [exact H1 |].
        split; [rewrite H2; exact Hcomp |].
        rewrite H3, Hment, <- app_assoc. reflexivity. }
    assert (Hcases :
      analysed extract_topics checked_at company_name d0 e
      = joins company_name d0 e
        && negb (match processed_at e with
                 | Some processed =>
                     analyzed_within_threshold (checked_at (id e)) processed
                 | None => false
                 end)
        && match topics_of extract_topics e with
           | [] => false
           | _ => true
           end) by reflexivity.
    assert (Hstep :
      joins company_name d0 e = true ->
      let st1 :=
        analyse_experience extract_topics checked_at stored_at st e in
      experiences (db st1) = (List.map G pre ++ G e :: rest)%list /\
      companies (db st1) = companies (db st) /\
      mentions st1 = (mentions st ++ M e)%list).
    { intros EJ. rewrite EJ in Hcases. simpl in Hcases.
      unfold analyse_experience, _is_experience_recently_analyzed.
      rewrite Hrows, (find_by_id_middle _ _ _ Hfresh).
      destruct (match processed_at e with
                | Some processed =>
                    analyzed_within_threshold (checked_at (id e)) processed
                | None => false
                end) eqn:Erecent; simpl in Hcases.
      - assert (HG : G e = e)
          by (unfold G, analysed_row; rewrite Hcases; reflexivity).
        assert (HM : M e = [])
          by (unfold M, analysed_mentions; rewrite Hcases; reflexivity).
        rewrite HG, HM, app_nil_r. simpl.
        split; [exact Hrows | split; reflexivity].
      - destruct (topics_of extract_topics e) as [| topic more] eqn:Et.
        + assert (HG : G e = e)
            by (unfold G, analysed_row; rewrite Hcases; reflexivity).
          assert (HM : M e = [])
            by (unfold M, analysed_mentions; rewrite Hcases; reflexivity).
          rewrite HG, HM, app_nil_r. simpl.
          split; [exact Hrows | split; reflexivity].
        + assert (HG : G e = set_processed (stored_at (id e)) e)
            by (unfold G, analysed_row; rewrite Hcases; reflexivity).
          assert (HM : M e = TopicExtractor._store_topic_mentions (id e)
                               (topic :: more))
            by (unfold M, analysed_mentions; rewrite Hcases, Et;
                reflexivity).
          rewrite HG, HM. simpl. rewrite Hrows.
          split; [apply mark_processed_middle, Hfresh | split; reflexivity]. }
    cbn [List.filter flat_map]. fold (M e).
    destruct (joins company_name d0 e) eqn:EJ.
    + cbn [fold_left]. destruct (Hstep eq_refl) as (H1 & H2 & H3).
      apply Hskip; assumption.
    + assert (HG : G e = e)
        by (unfold G, analysed_row; rewrite Hcases; reflexivity).
      assert (HM : M e = [])
        by (unfold M, analysed_mentions; rewrite Hcases; reflexivity).
      apply Hskip;
        [rewrite HG; exact Hrows | reflexivity
         | rewrite HM; symmetry; apply app_nil_r].
Qed.

End AnalysisStageFacts.

Section AnalysisStageProperties.
Import Pipeline PipelineQueries AnalysisStage.
Local Open Scope string_scope.
Local Open Scope nat_scope.

(** X25.  The analysis stage as one pass over the table.  When no two
    experiences share an id, [_run_analysis_stage] changes exactly the
    rows of the company that were not processed within the last 24
    hours and in which the extractor finds a topic: each gets its
    [processed_at] set, and its topic mentions are appended to the
    table of mentions, which loses nothing.  An experience in which no
    topic is found is left as it is: it is never marked as processed. *)
Theorem analysis_stage_is_one_pass :
  forall (extract_topics :
            string -> string -> TimeUtils.datetime ->
            list (TopicExtractor.topic_key * TopicExtractor.topic_data))
         (checked_at stored_at : nat -> TimeUtils.datetime)
         (company_name : string) (st : store),
    NoDup (List.map id (experiences (db st))) ->
    let st' :=
      _run_analysis_stage extract_topics checked_at stored_at
        company_name st in
    experiences (db st') =
      List.map (analysed_row extract_topics checked_at stored_at
                  company_name (db st)) (experiences (db st)) /\
    companies (db st') = companies (db st) /\
    mentions st' =
      (mentions st ++
       flat_map (analysed_mentions extract_topics checked_at
                   company_name (db st)) (experiences (db st)))%list /\
    forall e : InterviewExperience,
      In e (experiences (db st)) ->
      topics_of extract_topics e = [] ->
      In e (experiences (db st')).
Proof.
  intros extract_topics checked_at stored_at company_name st Hnd st'.
  destruct (analyse_loop extract_topics checked_at stored_at company_name
              (db st) (experiences (db st)) [] st Hnd eq_refl)
    as (Hrows & Hcomp & Hment).
  fold (_get_company_experiences company_name (db st)) in Hrows, Hcomp, Hment.
  fold (_run_analysis_stage extract_topics checked_at stored_at
          company_name st) in Hrows, Hcomp, Hment.
  fold st' in Hrows, Hcomp, Hment. simpl in Hrows.
  split; [exact Hrows |]. split; [exact Hcomp |]. split; [exact Hment |].
  intros e He Hnone. rewrite Hrows. apply in_map_iff. exists e.
  split; [| exact He].
  unfold analysed_row, analysed. rewrite Hnone, andb_false_r. reflexivity.
Qed.

Lemma analysis_stage_is_one_pass_witness :
  let st := {| db := snd (_store_experience 5%Z Collection.sample_data empty);
               mentions := [] |} in
  let extract_topics :=
    fun (_ _ : string) (_ : TimeUtils.datetime) =>
      TopicExtractor.sample_topics in
  let st' :=
    _run_analysis_stage extract_topics (fun _ => 10%Z) (fun _ => 11%Z)
      "Amazon" st in
  List.map processed_at (experiences (db st')) = [Some 11%Z] /\
  length (mentions st') = length TopicExtractor.sample_topics.
Proof.
  intros st extract_topics st'.
  destruct (analysis_stage_is_one_pass extract_topics (fun _ => 10%Z)
              (fun _ => 11%Z) "Amazon" st)
    as (Hrows & _ & Hmentions & _).
  - apply NoDup_singleton.
  - fold st' in Hrows, Hmentions. rewrite Hrows, Hmentions.
    split; reflexivity.
Defined.

End AnalysisStageProperties.

(* ===================================================================== *)
(** * Storing the insights of a company *)
(* ===================================================================== *)

Section StoredInsightsFacts.
Import Insights InsightStore.
Local Open Scope nat_scope.

Variable actionable_insight : topic_key -> topic_insight -> string.
Variable topic_id_of : topic_key -> option nat.

Lemma filter_all {A : Type} (p : A -> bool) (l : list A) :
  Forall (fun x => p x = true) l -> List.filter p l = l.
Proof.
  induction 1 as [| x l Hx _ IH]; simpl; [reflexivity |].
  rewrite Hx, IH. reflexivity.
Qed.

Lemma filter_none {A : Type} (p : A -> bool) (l : list A) :
  Forall (fun x => p x = false) l -> List.filter p l = [].
Proof.
  induction 1 as [| x l Hx _ IH]; simpl; [reflexivity |].
  rewrite Hx, IH. reflexivity.
Qed.

Lemma filter_twice {A : Type} (p : A -> bool) (l : list A) :
  List.filter p (List.filter p l) = List.filter p l.
Proof.
  apply filter_all, List.Forall_forall. intros x Hx.
  apply List.filter_In in Hx. apply Hx.
Qed.

Lemma new_rows_company (cid sample : nat)
    (clock : nat -> TimeUtils.datetime)
    (entries : list (topic_key * topic_insight)) :
  forall i : nat,
    Forall (fun row => insight_company_id (written row) = cid)
      (new_rows actionable_insight topic_id_of cid sample clock i entries).
Proof.
  induction entries as [| [key data] rest IH]; intros i; simpl;
    [constructor |].
  destruct (topic_id_of key); [constructor; [reflexivity |] |]; apply IH.
Qed.

(** The six columns are those of [Insights.insight_rows]. *)
Lemma new_rows_written (cid sample : nat)
    (clock : nat -> TimeUtils.datetime)
    (entries : list (topic_key * topic_insight)) :
  forall i : nat,
    List.map written
      (new_rows actionable_insight topic_id_of cid sample clock i entries)
    = flat_map
        (fun '(key, data) =>
           match topic_id_of key with
           | Some topic_id =>
               [ {| insight_company_id := cid;
                    insight_topic_id := topic_id;
                    stored_weighted_frequency := weighted_frequency data;
                    stored_confidence_score := confidence_score data;
                    stored_sample_size := sample;
                    stored_priority_level :=
                      PyStr.lower (priority_name (priority_level data)) |} ]
           | None => []
           end)
        entries.
Proof.
  induction entries as [| [key data] rest IH]; intros i; simpl;
    [reflexivity |].
  destruct (topic_id_of key); simpl; rewrite IH; reflexivity.
Qed.

(** The recommendations do not depend on the clock. *)
Lemma new_rows_recommendation (cid sample : nat)
    (clock clock' : nat -> TimeUtils.datetime)
    (entries : list (topic_key * topic_insight)) :
  forall i j : nat,
    List.map study_recommendation
      (new_rows actionable_insight topic_id_of cid sample clock i entries)
    = List.map study_recommendation
        (new_rows actionable_insight topic_id_of cid sample clock' j
           entries).
Proof.
  induction entries as [| [key data] rest IH]; intros i j; simpl;
    [reflexivity |].
  destruct (topic_id_of key); simpl; [f_equal |]; apply IH.
Qed.

(** The analysis dates are the clock readings, in order. *)
Lemma new_rows_dates (cid sample : nat)
    (clock : nat -> TimeUtils.datetime)
    (entries : list (topic_key * topic_insight)) :
  forall i : nat,
    let rows :=
      new_rows actionable_insight topic_id_of cid sample clock i entries in
    List.map analysis_date rows = List.map clock (seq i (length rows)).
Proof.
  induction entries as [| [key data] rest IH]; intros i; simpl;
    [reflexivity |].
  destruct (topic_id_of key); simpl; [f_equal |]; apply IH.
Qed.

Lemma insight_rows_written (cid : nat) (clock : nat -> TimeUtils.datetime)
    (r : result) :
  List.map written
    (InsightStore.insight_rows actionable_insight topic_id_of cid clock r)
  = Insights.insight_rows cid topic_id_of r.
Proof.
  destruct r as [response | found]; [reflexivity |].
  apply new_rows_written.
Qed.

Lemma insight_rows_recommendation (cid : nat)
    (clock clock' : nat -> TimeUtils.datetime) (r : result) :
  List.map study_recommendation
    (InsightStore.insight_rows actionable_insight topic_id_of cid clock r)
  = List.map study_recommendation
      (InsightStore.insight_rows actionable_insight topic_id_of cid clock'
         r).
Proof.
  destruct r as [response | found]; [reflexivity |].
  apply new_rows_recommendation.
Qed.

Lemma insight_rows_dates (cid : nat) (clock : nat -> TimeUtils.datetime)
    (r : result) :
  let rows :=
    InsightStore.insight_rows actionable_insight topic_id_of cid clock r in
  List.map analysis_date rows = List.map clock (seq 0 (length rows)).
Proof.
  destruct r as [response | found]; [reflexivity |].
  apply new_rows_dates.
Qed.

Lemma insight_rows_company (cid : nat) (clock : nat -> TimeUtils.datetime)
    (r : result) :
  Forall (fun row => insight_company_id (written row) = cid)
    (InsightStore.insight_rows actionable_insight topic_id_of cid clock r).
Proof.
  destruct r as [response | found]; [constructor |].
  apply new_rows_company.
Qed.

End StoredInsightsFacts.

Section StoredInsightsProperties.
Import Insights InsightStore.
Local Open Scope nat_scope.

(** X26.  [_store_company_insights] replaces: afterwards the rows of the
    company are exactly the rows built from the new result, one per
    detailed topic that has a topic row, each dated with the clock
    reading of its own insert, and the rows of every other company are
    what they were.  Storing the same result again deletes these rows
    and inserts them anew: the table has the same rows in every column
    the result determines, but their analysis dates are the readings of
    the second call, so the table is a different one as soon as the
    clock has moved.  For a company that is not in the database nothing
    is stored. *)
Theorem stored_insights_replace_the_old :
  forall (actionable_insight : topic_key -> topic_insight -> string)
         (topic_id_of : topic_key -> option nat) (cid : nat)
         (clock clock' : nat -> TimeUtils.datetime) (r : result)
         (table : list stored_insight),
    let store := _store_company_insights actionable_insight topic_id_of in
    let rows :=
      InsightStore.insight_rows actionable_insight topic_id_of cid in
    let others :=
      fun row : stored_insight =>
        negb (insight_company_id (written row) =? cid) in
    let table' := store (Some cid) clock r table in
    let table'' := store (Some cid) clock' r table' in
    List.filter (fun row => negb (others row)) table' = rows clock r /\
    List.filter others table' = List.filter others table /\
    List.map written (rows clock r) = Insights.insight_rows cid topic_id_of r /\
    List.map analysis_date (rows clock r)
      = List.map clock (seq 0 (length (rows clock r))) /\
    table'' = (List.filter others table ++ rows clock' r)%list /\
    List.map written table'' = List.map written table' /\
    List.map study_recommendation table''
      = List.map study_recommendation table' /\
    (rows clock r <> [] -> clock' 0 <> clock 0 -> table'' <> table') /\
    store None clock r table = table.
Proof.
  intros actionable_insight topic_id_of cid clock clock' r table
    store rows others table' table''.
  assert (Hin : forall c, List.filter (fun row => negb (others row))
                            (rows c r) = rows c r).
  { intros c. apply filter_all.
    eapply List.Forall_impl;
      [| exact (insight_rows_company actionable_insight topic_id_of cid c r)].
    intros row Hrow. unfold others. rewrite Hrow, Nat.eqb_refl.
    reflexivity. }
  assert (Hout : forall c, List.filter others (rows c r) = []).
  { intros c. apply filter_none.
    eapply List.Forall_impl;
      [| exact (insight_rows_company actionable_insight topic_id_of cid c r)].
    intros row Hrow. unfold others. rewrite Hrow, Nat.eqb_refl.
    reflexivity. }
  assert (Hold : List.filter (fun row => negb (others row))
                   (List.filter others table) = []).
  { apply filter_none, List.Forall_forall. intros row Hrow.
    apply List.filter_In in Hrow. destruct Hrow as [_ Hne].
    rewrite Hne. reflexivity. }
  assert (Hfirst : table' = (List.filter others table ++ rows clock r)%list)
    by reflexivity.
  assert (Hsecond : table''
                    = (List.filter others table ++ rows clock' r)%list).
  { unfold table'', store, _store_company_insights. fold others.
    fold (rows clock' r). rewrite Hfirst, List.filter_app, Hout,
      filter_twice, app_nil_r. reflexivity. }
  split; [rewrite Hfirst, List.filter_app, Hold, Hin; reflexivity |].
  split; [rewrite Hfirst, List.filter_app, Hout, filter_twice, app_nil_r;
          reflexivity |].
  split; [apply insight_rows_written |].
  split; [apply insight_rows_dates |].
  split; [exact Hsecond |].
  split.
  { rewrite Hsecond, Hfirst, !List.map_app. unfold rows.
    rewrite !insight_rows_written. reflexivity. }
  split.
  { rewrite Hsecond, Hfirst, !List.map_app. f_equal.
    apply insight_rows_recommendation. }
  split; [| reflexivity].
  intros Hne Hclock Heq. rewrite Hsecond, Hfirst in Heq.
  apply app_inv_head in Heq.
  pose proof (insight_rows_dates actionable_insight topic_id_of cid clock r)
    as Hdates.
  pose proof (insight_rows_dates actionable_insight topic_id_of cid clock' r)
    as Hdates'.
  cbn zeta in Hdates, Hdates'. fold (rows clock r) in Hdates.
  fold (rows clock' r) in Hdates'. rewrite Heq in Hdates'.
  rewrite Hdates in Hdates'.
  destruct (rows clock r) as [| row rest]; [contradiction |].
  simpl in Hdates'. injection Hdates' as Hhead _.
  apply Hclock. symmetry. exact Hhead.
Qed.

End StoredInsightsProperties.
(* ===================================================================== *)
(** * Preprocessed texts *)
(* ===================================================================== *)

Section TextShapeFacts.
Import PyStr TopicExtractor TextShape.
Local Open Scope string_scope.

(** The three facts about single characters, by inspection of the 256
    of them. *)
Lemma kept_char (c : ascii) :
  let c' := keep_or_blank (lower_char c) in
  (if is_space c' then true
   else plain_char c' && negb (Ascii.eqb c' " ")) = true.
Proof.
  destruct c as [[] [] [] [] [] [] [] []]; vm_compute; reflexivity.
Qed.

Lemma plain_char_fixed (c : ascii) :
  plain_char c = true ->
  is_space c = false /\ lower_char c = c /\ keep_or_blank c = c.
Proof.
  destruct c as [[] [] [] [] [] [] [] []]; vm_compute;
    intros H; try discriminate; repeat split.
Qed.

Lemma space_fixed :
  is_space " " = true /\ lower_char " " = " "%char /\
  keep_or_blank " " = " "%char.
Proof. vm_compute. repeat split. Qed.

Lemma blank_is_not_plain (c : ascii) :
  is_space c = true -> plain_char c = false.
Proof.
  destruct c as [[] [] [] [] [] [] [] []]; vm_compute;
    intros H; try discriminate; reflexivity.
Qed.

Lemma space_eqb (c : ascii) :
  Ascii.eqb c " " = true -> c = " "%char.
Proof. apply Ascii.eqb_eq. Qed.

(** After the substitutions and the collapse of the blanks. *)
Lemma collapse_single_spaced (s : string) :
  forall b : bool,
    single_spaced b
      (collapse_blanks b (map_chars keep_or_blank (lower s))) = true.
Proof.
  induction s as [| c rest IH]; intros b; [reflexivity |].
  cbn [lower map_chars collapse_blanks].
  pose proof (kept_char c) as Hc. cbv zeta in Hc.
  destruct (is_space (keep_or_blank (lower_char c))).
  - destruct b; [apply IH |]. cbn [single_spaced].
    change (Ascii.eqb " " " ") with true. cbv iota. simpl. apply IH.
  - apply andb_true_iff in Hc. destruct Hc as [Hplain Hne].
    apply negb_true_iff in Hne. cbn [single_spaced].
    rewrite Hne, Hplain. simpl. apply IH.
Qed.

Lemma lstrip_single_spaced (s : string) :
  forall b : bool,
    single_spaced b s = true -> single_spaced true (lstrip s) = true.
Proof.
  induction s as [| c rest IH]; intros b H; [reflexivity |].
  cbn [single_spaced] in H. cbn [lstrip].
  destruct (Ascii.eqb c " ") eqn:E.
  - apply space_eqb in E. subst c.
    change (is_space " ") with true. cbv iota.
    apply andb_true_iff in H. apply (IH true), H.
  - apply andb_true_iff in H. destruct H as [Hplain Hrest].
    destruct (plain_char_fixed c Hplain) as (Hspace & _).
    rewrite Hspace. cbn [single_spaced]. rewrite E, Hplain, Hrest.
    reflexivity.
Qed.

Lemma rstrip_single_spaced (s : string) :
  forall b : bool,
    single_spaced b s = true ->
    single_spaced b (rstrip s) = true /\ ends_with_blank (rstrip s) = false.
Proof.
  induction s as [| c rest IH]; intros b H; [split; reflexivity |].
  cbn [single_spaced] in H. cbn [rstrip].
  destruct (Ascii.eqb c " ") eqn:E.
  - apply space_eqb in E. subst c.
    apply andb_true_iff in H. destruct H as [Hb Hrest].
    destruct (IH true Hrest) as [Hs He].
    destruct (rstrip rest) as [| c2 r2]; [split; reflexivity |].
    split; [| exact He].
    cbn [single_spaced]. change (Ascii.eqb " " " ") with true. cbv iota.
    rewrite Hb. exact Hs.
  - apply andb_true_iff in H. destruct H as [Hplain Hrest].
    destruct (plain_char_fixed c Hplain) as (Hspace & _).
    destruct (IH false Hrest) as [Hs He].
    destruct (rstrip rest) as [| c2 r2].
    + rewrite Hspace. cbn [single_spaced ends_with_blank].
      rewrite E, Hplain, Hspace. split; reflexivity.
    + split; [| exact He].
      cbn [single_spaced]. rewrite E, Hplain. exact Hs.
Qed.

(** A text in normal form is left alone by each of the steps. *)
Lemma single_spaced_fixed (s : string) :
  forall b : bool,
    single_spaced b s = true ->
    lower s = s /\ map_chars keep_or_blank s = s /\
    forall b' : bool, (b' = true -> b = true) -> collapse_blanks b' s = s.
Proof.
  induction s as [| c rest IH]; intros b H;
    [repeat split; reflexivity |].
  cbn [single_spaced] in H. cbn [lower map_chars collapse_blanks].
  destruct (Ascii.eqb c " ") eqn:E.
  - apply space_eqb in E. subst c.
    apply andb_true_iff in H. destruct H as [Hb Hrest].
    apply negb_true_iff in Hb. subst b.
    destruct (IH true Hrest) as (Hl & Hm & Hc).
    destruct space_fixed as (Hspace & Hlow & Hkeep).
    rewrite Hlow, Hkeep, Hl, Hm, Hspace.
    split; [reflexivity |]. split; [reflexivity |].
    intros b' Hb'. destruct b'; [specialize (Hb' eq_refl); discriminate |].
    rewrite (Hc true); reflexivity.
  - apply andb_true_iff in H. destruct H as [Hplain Hrest].
    destruct (plain_char_fixed c Hplain) as (Hspace & Hlow & Hkeep).
    destruct (IH false Hrest) as (Hl & Hm & Hc).
    rewrite Hlow, Hkeep, Hl, Hm, Hspace.
    split; [reflexivity |]. split; [reflexivity |].
    intros b' _. rewrite (Hc false); [reflexivity | discriminate].
Qed.

Lemma lstrip_fixed (s : string) :
  single_spaced true s = true -> lstrip s = s.
Proof.
  destruct s as [| c rest]; [reflexivity |].
  cbn [single_spaced lstrip]. destruct (Ascii.eqb c " "); [discriminate |].
  intros H. apply andb_true_iff in H. destruct H as [Hplain _].
  destruct (plain_char_fixed c Hplain) as (-> & _). reflexivity.
Qed.

Lemma rstrip_fixed (s : string) :
  ends_with_blank s = false -> rstrip s = s.
Proof.
  induction s as [| c rest IH]; [reflexivity |].
  destruct rest as [| c2 r2].
  - simpl. intros ->. reflexivity.
  - intros H. change (ends_with_blank (String c (String c2 r2)))
      with (ends_with_blank (String c2 r2)) in H.
    cbn [rstrip]. cbn [rstrip] in IH. rewrite (IH H). reflexivity.
Qed.

Lemma plain_char_ascii (c : ascii) :
  plain_char c = true -> (nat_of_ascii c <? 128)%nat = true.
Proof.
  intros H. apply Nat.ltb_lt.
  unfold plain_char, is_word_char in H.
  apply orb_true_iff in H. destruct H as [H | H].
  - apply andb_true_iff in H. destruct H as [H _].
    cbv zeta in H. revert H. generalize (nat_of_ascii c). intros n H.
    repeat match type of H with
           | (_ || _) = true => apply orb_true_iff in H; destruct H as [H | H]
           | (_ && _) = true => apply andb_true_iff in H; destruct H as [? H]
           end;
      repeat match goal with
             | H : Nat.leb _ _ = true |- _ => apply Nat.leb_le in H
             | H : Nat.eqb _ _ = true |- _ => apply Nat.eqb_eq in H
             end; lia.
  - apply Ascii.eqb_eq in H. subst c. apply Nat.ltb_lt. reflexivity.
Qed.

Lemma single_spaced_ascii (s : string) :
  forall b : bool, single_spaced b s = true -> ascii_only s = true.
Proof.
  induction s as [| c rest IH]; intros b H; [reflexivity |].
  cbn [single_spaced ascii_only] in *.
  destruct (Ascii.eqb c " ") eqn:Ec.
  - apply Ascii.eqb_eq in Ec. subst c.
    apply andb_true_iff in H. destruct H as [_ H].
    rewrite (IH true H). reflexivity.
  - apply andb_true_iff in H. destruct H as [Hplain H].
    rewrite (plain_char_ascii c Hplain), (IH false H). reflexivity.
Qed.

End TextShapeFacts.

Section TextShapeProperties.
Import PyStr TopicExtractor TextShape.
Local Open Scope string_scope.

(** X27.  For a text of ASCII characters, what [_preprocess_text]
    returns is in normal form: lower-case letters, digits, underscores
    and full stops, in words separated by single spaces, with no blank
    at either end.  It is again a text of ASCII characters, and
    preprocessing it a second time returns it unchanged. *)
Theorem preprocessed_text_is_in_normal_form :
  forall text : string,
    ascii_only text = true ->
    let processed := _preprocess_text text in
    normal_form processed = true /\
    ascii_only processed = true /\
    _preprocess_text processed = processed.
Proof.
  intros text _ processed.
  assert (Hshape : single_spaced true processed = true /\
                   ends_with_blank processed = false).
  { unfold processed, _preprocess_text.
    apply rstrip_single_spaced, (lstrip_single_spaced _ false),
      collapse_single_spaced. }
  destruct Hshape as [Hs He]. split; [| split].
  - unfold normal_form. rewrite Hs, He. reflexivity.
  - apply (single_spaced_ascii processed true), Hs.
  - destruct (single_spaced_fixed processed true Hs) as (Hl & Hm & Hc).
    unfold _preprocess_text at 1.
    rewrite Hl, Hm, (Hc false) by discriminate.
    rewrite (lstrip_fixed _ Hs). apply rstrip_fixed, He.
Qed.

Lemma preprocessed_text_is_in_normal_form_witness :
  let text := "  Two-Sum:  asked in ROUND 1.  " in
  ascii_only text = true /\
  _preprocess_text text = "two sum asked in round 1." /\
  normal_form (_preprocess_text text) = true /\
  _preprocess_text (_preprocess_text text) = _preprocess_text text.
Proof.
  intros text.
  assert (Hascii : ascii_only text = true) by reflexivity.
  destruct (preprocessed_text_is_in_normal_form text Hascii)
    as (Hnormal & _ & Hfixed).
  split; [exact Hascii |]. split; [reflexivity |].
  split; [exact Hnormal | exact Hfixed].
Defined.

End TextShapeProperties.
(* ===================================================================== *)
(** * The data collection stage *)
(* ===================================================================== *)

Section CollectionStageFacts.
Import Pipeline PipelineQueries BaseScraper Collection CollectionStage.
Local Open Scope string_scope.
Local Open Scope nat_scope.

Variable md5 : string -> string.
Variable stored_at : experience_data -> TimeUtils.datetime.

(** One call of [_store_experience] on a consistent store: the rows of
    a company never get fewer, and they get more, by one, only when the
    call returns a truthy id. *)
Lemma store_experience_count (now : TimeUtils.datetime)
    (d : experience_data) (db : database) (company_name : string) :
  store_ok db ->
  let '(r, db') := _store_experience now d db in
  let counted :=
    match r with
    | Some i => if i =? 0 then 0 else 1
    | None => 0
    end in
  store_ok db' /\
  _get_existing_experience_count company_name db
    <= _get_existing_experience_count company_name db' /\
  _get_existing_experience_count company_name db'
    <= _get_existing_experience_count company_name db + counted.
Proof.
  intros [Hok Hnext].
  pose proof (store_experience_ok now d db Hok) as Hok'.
  destruct (_store_experience now d db) as [r db'] eqn:E. simpl in Hok'.
  destruct (find_experience (Collection.source_url d) db) as [existing |]
    eqn:Efind.
  { unfold _store_experience in E. rewrite Efind in E.
    injection E as <- <-. split; [split; assumption |]. split; lia. }
  destruct (Collection.source_platform d) as [platform |] eqn:Ep.
  2: { unfold _store_experience in E. rewrite Efind, Ep in E.
       destruct (get_or_create_company _ db). injection E as <- <-.
       split; [split; assumption |]. split; lia. }
  destruct (Collection.experience_date d) as [date |] eqn:Ed.
  2: { unfold _store_experience in E. rewrite Efind, Ep, Ed in E.
       destruct (get_or_create_company _ db). injection E as <- <-.
       split; [split; assumption |]. split; lia. }
  destruct (store_experience_new now d db platform date Hok Efind Ep Ed)
    as (row & c & Heq & Hid & _).
  destruct (get_company_experiences_store now d db platform date
              Hok Efind Ep Ed)
    as (row' & Hr & _ & _ & _ & _ & _ & Hquery).
  rewrite E in Heq, Hr, Hquery. simpl in Hr, Hquery.
  injection Heq as -> Hdb.
  split.
  { split; [exact Hok' |]. rewrite Hdb. simpl. lia. }
  unfold _get_existing_experience_count. rewrite Hquery, length_app.
  assert (Hpos : (id row =? 0) = false) by (apply Nat.eqb_neq; lia).
  rewrite Hpos.
  destruct (String.eqb _ company_name); simpl; split; lia.
Qed.

Lemma store_experiences_count (company_name : string) :
  forall (records : list experience_data) (db : database),
    store_ok db ->
    let '(n, db') := store_experiences stored_at records db in
    store_ok db' /\ n <= length records /\
    _get_existing_experience_count company_name db
      <= _get_existing_experience_count company_name db' /\
    _get_existing_experience_count company_name db'
      <= _get_existing_experience_count company_name db + n.
Proof.
  unfold store_experiences.
  assert (H : forall (records : list experience_data) (n0 : nat)
                     (db0 : database),
             store_ok db0 ->
             let '(n, db') :=
               fold_left
                 (fun acc exp_data =>
                    let '(experience_id, d') :=
                      _store_experience (stored_at exp_data) exp_data
                        (snd acc) in
                    (match experience_id with
                     | Some i => if i =? 0 then fst acc else S (fst acc)
                     | None => fst acc
                     end, d'))
                 records (n0, db0) in
             store_ok db' /\ n0 <= n /\ n <= n0 + length records /\
             _get_existing_experience_count company_name db0
               <= _get_existing_experience_count company_name db' /\
             _get_existing_experience_count company_name db' + n0
               <= _get_existing_experience_count company_name db0 + n).
  { induction records as [| d rest IH]; intros n0 db0 Hok; simpl.
    - split; [exact Hok |]. repeat split; lia.
    - pose proof (store_experience_count (stored_at d) d db0 company_name
                    Hok) as Hone.
      destruct (_store_experience (stored_at d) d db0) as [r db1].
      destruct Hone as (Hok1 & Hlo & Hhi).
      match goal with
      | |- context [fold_left _ rest (?n1, db1)] =>
          specialize (IH n1 db1 Hok1);
          destruct (fold_left _ rest (n1, db1)) as [n db']
      end.
      destruct IH as (Hok' & H1 & H2 & H3 & H4).
      split; [exact Hok' |].
      destruct r as [i |]; [destruct (i =? 0) |]; repeat split; lia. }
  intros records db Hok. specialize (H records 0 db Hok).
  destruct (fold_left _ records (0, db)) as [n db'].
  destruct H as (Hok' & _ & H2 & H3 & H4).
  split; [exact Hok' |]. repeat split; lia.
Qed.

Lemma scrape_platform_count (company_name : string) (quota : nat)
    (p : platform) (acc : nat * database) :
  store_ok (snd acc) ->
  let '(n, db') := scrape_platform md5 stored_at quota acc p in
  store_ok db' /\ fst acc <= n /\ n <= fst acc + quota /\
  (quota = 0 -> db' = snd acc) /\
  _get_existing_experience_count company_name (snd acc)
    <= _get_existing_experience_count company_name db' /\
  _get_existing_experience_count company_name db' + fst acc
    <= _get_existing_experience_count company_name (snd acc) + n.
Proof.
  intros Hok. unfold scrape_platform.
  destruct (platform_visits p) as [visits |].
  2: { destruct acc as [n db]. simpl in *.
       split; [exact Hok |]. repeat split; lia. }
  unfold scrape_company_experiences.
  pose proof (scrape_loop_effects md5 quota visits 0
                (apply_requests (platform_discovery p) (platform_scraper p)))
    as Hloop.
  cbn zeta in Hloop.
  destruct (scrape_loop md5 quota visits 0 _) as [records failure s'].
  cbn [yielded raised] in *.
  destruct failure as [e |].
  { destruct acc as [n db]. simpl in *.
    split; [exact Hok |]. repeat split; lia. }
  destruct Hloop as (Hlen & _).
  specialize (Hlen ltac:(lia)).
  pose proof (store_experiences_count company_name records (snd acc) Hok)
    as Hstore.
  destruct (store_experiences stored_at records (snd acc)) as [n db'] eqn:E.
  destruct Hstore as (Hok' & Hn & Hlo & Hhi).
  split; [exact Hok' |]. split; [lia |]. split; [lia |].
  split; [| split; lia].
  intros Hq. destruct records as [| d rest]; [| simpl in Hlen; lia].
  unfold store_experiences in E. simpl in E. injection E as _ <-.
  reflexivity.
Qed.

Lemma scrape_platforms_count (company_name : string) (quota : nat) :
  forall (scrapers : list platform) (acc : nat * database),
    store_ok (snd acc) ->
    let '(n, db') :=
      fold_left (scrape_platform md5 stored_at quota) scrapers acc in
    store_ok db' /\ fst acc <= n /\
    n <= fst acc + quota * length scrapers /\
    (quota = 0 -> db' = snd acc) /\
    _get_existing_experience_count company_name (snd acc)
      <= _get_existing_experience_count company_name db' /\
    _get_existing_experience_count company_name db' + fst acc
      <= _get_existing_experience_count company_name (snd acc) + n.
Proof.
  induction scrapers as [| p rest IH]; intros acc Hok.
  - destruct acc as [n db]. simpl in *.
    split; [exact Hok |]. repeat split; lia.
  - cbn [fold_left length].
    pose proof (scrape_platform_count company_name quota p acc Hok) as Hone.
    destruct (scrape_platform md5 stored_at quota acc p) as [n1 db1].
    destruct Hone as (Hok1 & H1 & H2 & H3 & H4 & H5).
    specialize (IH (n1, db1) Hok1).
    destruct (fold_left _ rest (n1, db1)) as [n db'].
    simpl in IH. destruct IH as (Hok' & I1 & I2 & I3 & I4 & I5).
    split; [exact Hok' |]. split; [lia |]. split; [nia |].
    split; [intros Hq; rewrite (I3 Hq); apply H3, Hq |].
    split; lia.
Qed.

Lemma store_all_store_ok
    (records : list (TimeUtils.datetime * Collection.experience_data))
    (db : database) :
  store_ok db -> store_ok (store_all records db).
Proof.
  revert db. induction records as [| [now d] rest IH]; intros db Hok; simpl;
    [exact Hok |].
  apply IH.
  pose proof (store_experience_count now d db EmptyString Hok) as H.
  destruct (_store_experience now d db) as [r db1]. apply H.
Qed.

End CollectionStageFacts.

Section CollectionStageProperties.
Import Pipeline PipelineQueries BaseScraper Collection CollectionStage.
Local Open Scope string_scope.
Local Open Scope nat_scope.

(** X28.  The data collection stage on a store built by
    [_store_experience], with [k >= 1] scrapers.  Each scraper is given
    the quota [max_experiences // k], so the stage counts at most
    [k * (max_experiences // k) <= max_experiences] scraped experiences;
    with [max_experiences < k] the quota is zero and nothing is scraped
    or stored, also under [force_refresh].  The rows of the company
    never get fewer, and they grow by at most the number counted as
    newly scraped.  When the stage decides not to scrape, the store is
    left as it is. *)
Theorem collection_stage_respects_the_quota :
  forall (md5 : string -> string)
         (stored_at : experience_data -> TimeUtils.datetime)
         (history : list (TimeUtils.datetime * experience_data))
         (company_name : string) (max_experiences : nat)
         (force_refresh : bool) (now : TimeUtils.datetime)
         (scrapers : list platform),
    scrapers <> [] ->
    let d := store_all history empty in
    let k := length scrapers in
    exists (res : collection_results) (d' : database),
      _run_data_collection_stage md5 stored_at company_name max_experiences
        force_refresh now scrapers d = Some (res, d') /\
      existing_experiences res = _get_existing_experience_count company_name d /\
      total_experiences res = _get_existing_experience_count company_name d' /\
      newly_scraped res <= k * (max_experiences / k) /\
      newly_scraped res <= max_experiences /\
      existing_experiences res <= total_experiences res /\
      total_experiences res <= existing_experiences res + newly_scraped res /\
      (scraping_performed res = false -> d' = d /\ newly_scraped res = 0) /\
      (max_experiences < k -> d' = d /\ newly_scraped res = 0).
Proof.
  intros md5 stored_at history company_name max_experiences force_refresh
    now scrapers Hne d k.
  assert (Hk : 1 <= k) by (unfold k; destruct scrapers; [contradiction |];
                           simpl; lia).
  assert (Hok : store_ok d).
  { apply store_all_store_ok. split; [apply db_ok_empty | simpl; lia]. }
  assert (Hquota : k * (max_experiences / k) <= max_experiences)
    by (apply Nat.Div0.mul_div_le).
  unfold _run_data_collection_stage. fold d. fold k.
  destruct (force_refresh
            || (_get_existing_experience_count company_name d
                <? max_experiences)
            || _is_data_stale company_name now d).
  - destruct k as [| k'] eqn:Ek; [lia |]. rewrite <- Ek in *.
    pose proof (scrape_platforms_count md5 stored_at company_name
                  (max_experiences / k) scrapers (0, d) Hok) as H.
    destruct (fold_left _ scrapers (0, d)) as [n d'].
    simpl in H. destruct H as (_ & _ & Hn & Hzero & Hlo & Hhi).
    fold k in Hn.
    exists {| existing_experiences :=
                _get_existing_experience_count company_name d;
              newly_scraped := n;
              total_experiences :=
                _get_existing_experience_count company_name d';
              scraping_performed := true |}, d'.
    simpl. split; [reflexivity |]. split; [reflexivity |].
    split; [reflexivity |]. split; [lia |]. split; [lia |].
    split; [lia |]. split; [lia |]. split; [discriminate |].
    intros Hsmall.
    assert (Hq : max_experiences / k = 0) by (apply Nat.div_small, Hsmall).
    split; [apply Hzero, Hq |]. rewrite Hq in Hn. lia.
  - exists {| existing_experiences :=
                _get_existing_experience_count company_name d;
              newly_scraped := 0;
              total_experiences :=
                _get_existing_experience_count company_name d;
              scraping_performed := false |}, d.
    simpl. split; [reflexivity |]. split; [reflexivity |].
    split; [reflexivity |]. split; [lia |]. split; [lia |].
    split; [lia |]. split; [lia |]. split; intros _; split; reflexivity.
Qed.

Lemma collection_stage_respects_the_quota_witness :
  let scrapers :=
    [ mkPlatform (init "reddit") no_requests
        (Some [sample_visit; sample_visit]);
      mkPlatform (init "leetcode") no_requests None ] in
  exists (res : collection_results) (d' : database),
    _run_data_collection_stage (fun text => text) (fun _ => 7%Z) "Amazon" 5
      true 9%Z scrapers (store_all [] empty) = Some (res, d') /\
    newly_scraped res <= 5 /\
    total_experiences res <= existing_experiences res + newly_scraped res.
Proof.
  intros scrapers.
  destruct (collection_stage_respects_the_quota (fun text => text)
              (fun _ => 7%Z) [] "Amazon" 5 true 9%Z scrapers)
    as (res & d' & Hrun & _ & _ & _ & Hmax & _ & Htotal & _).
  - discriminate.
  - exists res, d'. split; [exact Hrun |]. split; [exact Hmax | exact Htotal].
Defined.

End CollectionStageProperties.
